(** * Storefront template copy generator: prompt, sanitise, recover, substitute

    A shallow embedding of the three page scripts [home_cotent_status.py],
    [footer_content_status.py] and [product_content_status.py], and the
    properties of their shared pipeline: the response sanitiser, the retrying
    completion client, the JSON recovery step, the format-preserving
    generator and the placeholder substitution in the target file. *)

From Stdlib Require Import NArith ZArith QArith_base Bool List Ascii String Lia.
From stdpp Require Import base option list gmap strings.
Import ListNotations.

Set Default Proof Using "Type".
Local Open Scope list_scope.

(** ** Python text

    A Python [str] is a sequence of Unicode code points; a character is its
    code point. *)

Module Str.

Definition char : Type := N.
Definition str : Type := list char.

(** An ASCII literal of the source, character by character. *)
Definition lit (s : string) : str :=
  List.map N_of_ascii (list_ascii_of_string s).

Definition dquote : char := 34%N.      (* the double quote *)
Definition squote : char := 39%N.      (* ' *)
Definition backslash : char := 92%N.   (* \ *)
Definition backtick : char := 96%N.    (* ` *)
Definition lt_sign : char := 60%N.     (* < *)
Definition gt_sign : char := 62%N.     (* > *)

(** [str.isspace] on one character, which is also the class [\s] of the
    [re] module on text patterns: the ASCII controls 9..13 and 28..31, the
    space, and the Unicode separators. *)
Definition isspace (c : char) : bool :=
  ((9 <=? c) && (c <=? 13) || (28 <=? c) && (c <=? 32)
   || (c =? 133) || (c =? 160) || (c =? 5760)
   || (8192 <=? c) && (c <=? 8202)
   || (c =? 8232) || (c =? 8233) || (c =? 8239) || (c =? 8287)
   || (c =? 12288))%N.

Definition eqb (a b : char) : bool := N.eqb a b.

(** [s.startswith(p)] *)
Fixpoint startswith (p s : str) : bool :=
  match p, s with
  | [], _ => true
  | _ :: _, [] => false
  | a :: p', b :: s' => eqb a b && startswith p' s'
  end.

(** [p in s] *)
Fixpoint contains (p s : str) : bool :=
  startswith p s ||
  match s with
  | [] => false
  | _ :: r => contains p r
  end.

(** [c in s] for a single character. *)
Definition has_char (c : char) (s : str) : bool := existsb (eqb c) s.

(** [s.lstrip()], [s.rstrip()], [s.strip()] with no argument. *)
Fixpoint lstrip (s : str) : str :=
  match s with
  | [] => []
  | c :: r => if isspace c then lstrip r else s
  end.

Definition rstrip (s : str) : str := rev (lstrip (rev s)).

Definition strip (s : str) : str := rstrip (lstrip s).

(** [s.replace(old, new)] for a non-empty [old]: the occurrences are found
    from the left and do not overlap.  Every round consumes a character, so
    [length s] rounds reach the end of [s]. *)
Fixpoint replace_from (rounds : nat) (old new s : str) : str :=
  match rounds with
  | O => s
  | S n =>
      if startswith old s
      then new ++ replace_from n old new (drop (length old) s)
      else match s with
           | [] => []
           | c :: r => c :: replace_from n old new r
           end
  end.

(** [s.replace(old, new)]; an empty [old] matches before every character and
    at the end. *)
Definition replace (old new s : str) : str :=
  match old with
  | [] => new ++ flat_map (fun c => c :: new) s
  | _ :: _ => replace_from (length s) old new s
  end.

(** Truthiness of a string: [if s] holds for a non-empty one. *)
Definition truthy (s : str) : bool :=
  match s with [] => false | _ :: _ => true end.

End Str.
Export Str.

(** ** The regular expressions of the scripts

    Each pattern of the source is given by its matcher: at a position of the
    subject, with the character before it ([None] at the start) and the text
    from it on, the matcher returns the length of the match that [re] finds
    there, or [None].  No pattern of the scripts matches the empty string. *)

Module Re.

Definition matcher : Type := option char -> str -> option nat.

(** The scan of [re.sub] and [re.findall]: leftmost match first, then on
    from the end of the match. *)
Fixpoint sub_from (rounds : nat) (m : matcher) (repl : str)
    (prev : option char) (s : str) : str :=
  match rounds with
  | O => s
  | S n =>
      match s with
      | [] => []
      | c :: r =>
          match m prev s with
          | Some (S k) =>
              repl ++ sub_from n m repl (last (take (S k) s)) (drop (S k) s)
          | _ => c :: sub_from n m repl (Some c) r
          end
      end
  end.

(** [re.sub(pattern, repl, s)], with [repl] free of group references. *)
Definition sub (m : matcher) (repl s : str) : str :=
  sub_from (length s) m repl None s.

Fixpoint findall_from (rounds : nat) (m : matcher)
    (prev : option char) (s : str) : list str :=
  match rounds with
  | O => []
  | S n =>
      match s with
      | [] => []
      | c :: r =>
          match m prev s with
          | Some (S k) =>
              take (S k) s
                :: findall_from n m (last (take (S k) s)) (drop (S k) s)
          | _ => findall_from n m (Some c) r
          end
      end
  end.

(** [re.findall(pattern, s)] for a pattern without groups. *)
Definition findall (m : matcher) (s : str) : list str :=
  findall_from (length s) m None s.

(** The longest run of characters satisfying [p] at the head of [s]. *)
Fixpoint span_len (p : char -> bool) (s : str) : nat :=
  match s with
  | c :: r => if p c then S (span_len p r) else O
  | [] => O
  end.

(** [```json\s*]: the fence with its tag, then all the white space that
    follows. *)
Definition fence_json : matcher := fun _ s =>
  if startswith (lit "```json") s
  then Some (7 + span_len isspace (drop 7 s))
  else None.

(** [```html\s*] *)
Definition fence_html : matcher := fun _ s =>
  if startswith (lit "```html") s
  then Some (7 + span_len isspace (drop 7 s))
  else None.

(** [```\s*$]: a fence followed by white space only up to the end of the
    text.  The [$] also holds before a final line feed, which [\s*] has
    taken already, so the match runs to the end. *)
Definition fence_end : matcher := fun _ s =>
  if startswith (lit "```") s && forallb isspace (drop 3 s)
  then Some (length s)
  else None.

(** [<[^>]+>]: a [<], one or more characters other than [>], and the first
    [>] after them. *)
Definition html_tag : matcher := fun _ s =>
  match s with
  | c :: r =>
      if eqb c lt_sign then
        let n := span_len (fun x => negb (eqb x gt_sign)) r in
        match n, drop n r with
        | S _, _ :: _ => Some (S (S n))
        | _, _ => None
        end
      else None
  | [] => None
  end.

(** [(?<!\\)'(?=([^']*'[^']*')*[^']*$)]: an apostrophe that no backslash
    precedes and that an even number of apostrophes follows. *)
Definition unescaped_quote : matcher := fun prev s =>
  match s with
  | c :: r =>
      if eqb c squote
         && negb (match prev with Some p => eqb p backslash | None => false end)
         && Nat.even (count_occ N.eq_dec r squote)
      then Some 1
      else None
  | [] => None
  end.

End Re.

(** ** Values, exceptions and the world of a run *)

Module Py.

(** What [json.loads] returns, and what the scripts pass around: Python
    values are typed at run time. *)
#[warnings="-register-all"]
Inductive value : Type :=
| VNone
| VBool (b : bool)
| VNumber (q : Q)
| VStr (s : str)
| VList (l : list value)
| VDict (d : list (str * value)).

Inductive exn : Type :=
| APIError (msg : str)        (* the completion call, or unpacking its answer *)
| OSError (path : string)     (* [open] on a file that cannot be opened *)
| JSONDecodeError             (* [json.loads] *)
| KeyError (key : str)
| TypeError
| Exception (msg : str)       (* [raise Exception(msg)] *)
| UnicodeEncodeError          (* a text that an encoding cannot carry *)
| RecursionError              (* [json.loads] on a text nested too deep *)
| ValueError.                 (* [json.loads] on a number it cannot hold *)

Inductive result (A : Type) : Type :=
| Ok (a : A)
| Raise (e : exn).
Arguments Ok {A} a.
Arguments Raise {A} e.

Definition str_eqb (a b : str) : bool :=
  Nat.eqb (length a) (length b) && startswith a b.

Fixpoint dict_get (d : list (str * value)) (key : str) : option value :=
  match d with
  | [] => None
  | (k, v) :: d' => if str_eqb k key then Some v else dict_get d' key
  end.

(** [obj[key]] with a string key. *)
Definition getitem (obj : value) (key : str) : result value :=
  match obj with
  | VDict d =>
      match dict_get d key with
      | Some v => Ok v
      | None => Raise (KeyError key)
      end
  | _ => Raise TypeError
  end.

(** [data.replace(old, new)] where [new] is whatever the caller passed:
    anything but a string is a [TypeError]. *)
Definition replace_with (old : str) (new : value) (data : str) : result str :=
  match new with
  | VStr s => Ok (replace old s data)
  | _ => Raise TypeError
  end.

(** [sep.join(l)] *)
Fixpoint join (sep : str) (l : list str) : str :=
  match l with
  | [] => []
  | [a] => a
  | a :: l' => a ++ sep ++ join sep l'
  end.

(** One call of [client.chat.completions.create]: a single user message. *)
Record request : Type := {
  model : str;
  prompt : str;
  temperature : Q;
  max_tokens : option N
}.

(** What the call yields once [response.choices[0].message.content] has been
    read: the text, or the exception raised on the way. *)
Inductive reply : Type :=
| Reply (content : str)
| Failure (e : exn).

(** The completion service: its answer may depend on the requests made
    before. *)
Definition service : Type := list request -> request -> reply.

Record file : Type := {
  contents : str;
  readable : bool;
  writable : bool
}.

(** A file holds text: [contents] is what its bytes decode to under UTF-8,
    line ends as they are stored.  A file whose bytes do not decode is not
    represented.

    The state a run acts on: the requests sent so far, the files, and a
    count of the invocations of [prompt_gpt], kept for the statements only
    (no code reads it).  What the scripts print is not kept; whether a
    [print] raises is, see [py_print].  A path is the name of a file. *)
Record world : Type := {
  api_log : list request;
  client_calls : nat;
  files : gmap string file
}.

Definition M (A : Type) : Type := world -> result A * world.

Definition ret {A} (a : A) : M A := fun w => (Ok a, w).

Definition raise {A} (e : exn) : M A := fun w => (Raise e, w).

Definition bind {A B} (c : M A) (k : A -> M B) : M B := fun w =>
  match c w with
  | (Ok a, w') => k a w'
  | (Raise e, w') => (Raise e, w')
  end.

(** [try: c  except Exception as e: h e] *)
Definition try_except {A} (c : M A) (h : exn -> M A) : M A := fun w =>
  match c w with
  | (Ok a, w') => (Ok a, w')
  | (Raise e, w') => h e w'
  end.

(** [try: c  except json.JSONDecodeError: h]: any other exception goes
    through. *)
Definition try_except_json {A} (c : M A) (h : M A) : M A := fun w =>
  match c w with
  | (Ok a, w') => (Ok a, w')
  | (Raise JSONDecodeError, w') => h w'
  | (Raise e, w') => (Raise e, w')
  end.

Definition lift {A} (r : result A) : M A := fun w => (r, w).

Declare Scope py_scope.
Delimit Scope py_scope with py.
Notation "x <- c ;; k" := (bind c (fun x => k))
  (at level 100, c at next level, right associativity) : py_scope.
Notation "c ;;; k" := (bind c (fun _ => k))
  (at level 100, right associativity) : py_scope.
Local Open Scope py_scope.

(** A [for] loop over a list whose body returns nothing. *)
Fixpoint for_each {A} (l : list A) (body : A -> M unit) : M unit :=
  match l with
  | [] => ret tt
  | a :: l' => body a ;;; for_each l' body
  end.

Section Primitives.
Variable complete : service.

Definition chat_completions_create (rq : request) : M str := fun w =>
    let w' := {| api_log := api_log w ++ [rq];
                 client_calls := client_calls w;
                 files := files w |} in
    match complete (api_log w) rq with
    | Reply content => (Ok content, w')
    | Failure e => (Raise e, w')
    end.
End Primitives.

Definition count_client_call : M unit := fun w =>
  (Ok tt, {| api_log := api_log w;
             client_calls := S (client_calls w);
             files := files w |}).

Definition cr : char := 13%N.          (* carriage return *)
Definition lf : char := 10%N.          (* line feed *)

(** What a file opened for reading in text mode hands over: with the default
    [newline=None] the line ends [\r\n] and [\r] both come as [\n]. *)
Fixpoint universal_newlines (s : str) : str :=
  match s with
  | [] => []
  | c :: r =>
      if eqb c cr then
        lf :: match r with
              | d :: r' =>
                  if eqb d lf then universal_newlines r'
                  else universal_newlines r
              | [] => []
              end
      else c :: universal_newlines r
  end.

(** The code points that UTF-8 encodes: all but the surrogates, which a
    Python string can hold on their own (a JSON answer with an unpaired
    [\ud83d] gives one). *)
Definition utf8_char (c : char) : bool :=
  ((c <? 55296) || (57343 <? c) && (c <=? 1114111))%N.

Definition utf8_text (s : str) : bool := forallb utf8_char s.

(** [with open(path, 'r', encoding='utf-8') as f: data = f.read()] *)
Definition read_text (path : string) : M str := fun w =>
  match files w !! path with
  | Some f => if readable f then (Ok (universal_newlines (contents f)), w)
              else (Raise (OSError path), w)
  | None => (Raise (OSError path), w)
  end.

(** [with open(path, 'w', encoding='utf-8') as f: f.write(data)]: a file
    that is there is opened if it may be written, a missing one is created.
    Opening empties the file; [f.write] then encodes the whole text before
    any of it is stored, so a text that UTF-8 cannot carry leaves the file
    empty and raises.  Line feeds are written as they are ([os.linesep] of
    a POSIX system). *)
Definition write_text (path : string) (data : str) : M unit := fun w =>
  let store f := {| api_log := api_log w;
                    client_calls := client_calls w;
                    files := <[path := f]> (files w) |} in
  let opened r x :=
    if utf8_text data
    then (Ok tt, store {| contents := data; readable := r; writable := x |})
    else (Raise UnicodeEncodeError,
          store {| contents := []; readable := r; writable := x |}) in
  match files w !! path with
  | Some f =>
      if writable f then opened (readable f) (writable f)
      else (Raise (OSError path), w)
  | None => opened true true
  end.

(** [print(text)].  What is printed is not kept.  [console text] is the
    exception that writing [text] to the standard output raises, if any: a
    console raises [UnicodeEncodeError] on a text that its encoding cannot
    carry.  The prints that are modelled are those of a text of the service;
    the others write the scripts' own messages, the arguments of the run,
    the message of an exception or a value as [json.dumps] shows it, in
    ASCII, and are taken to succeed. *)
Definition py_print (console : str -> option exn) (text : str) : M unit :=
  fun w =>
    match console text with
    | None => (Ok tt, w)
    | Some e => (Raise e, w)
    end.

Definition nl : str := [10%N].

(** The retry loop of [prompt_gpt]: [for attempt in range(max_retries)],
    seen from an attempt after which [retries_left] more may follow, so that
    [attempt == max_retries - 1] reads [retries_left = 0]. *)
Section Client.
Variable complete : service.

Fixpoint prompt_gpt_attempts (rq : request) (retries_left : nat) : M str :=
    try_except
      (content <- chat_completions_create complete rq ;;
       ret (strip content))
      (fun e =>
         match retries_left with
         | O => raise e
         | S n => prompt_gpt_attempts rq n
         end).
End Client.

End Py.
Export Py.
Local Open Scope py_scope.

(** ** The home page script, [home_cotent_status.py]

    The footer script repeats these helper functions word for word. *)

(** The text between the triple quotes on the fourth line of the sanitiser:
    comma, space, double quote, apostrophe, double quote, then [).replace(] .
    As the files read, that line is a single call of [replace] whose first
    argument is this literal and whose second is the apostrophe; the line
    before it replaces the double quote by itself, twice. *)
Definition quote_literal : str :=
  lit ", " ++ [dquote] ++ lit "'" ++ [dquote] ++ lit ").replace(".

Definition gpt_4o_mini : str := lit "gpt-4o-mini".

(** How a piece of copy is produced: by [prompt_gpt] alone, or by
    [generate_with_format_validation] against a reference example. *)
Inductive generator : Type :=
| Plain
| Validated (expected_format : str).

Module Home.

Definition clean_json_response (response_text : str) : str :=
  let response_text := Re.sub Re.fence_json [] response_text in
  let response_text := Re.sub Re.fence_end [] response_text in
  let response_text :=
    replace [dquote] [dquote] (replace [dquote] [dquote] response_text) in
  let response_text := replace quote_literal (lit "'") response_text in
  strip response_text.

Definition clean_html_response (response_text : str) : str :=
  let response_text := Re.sub Re.fence_html [] response_text in
  let response_text := Re.sub Re.fence_end [] response_text in
  strip response_text.

Definition fix_prompt (broken_json context : str) : str :=
  lit "Fix this broken JSON and return ONLY valid JSON (no explanations, no markdown):"
  ++ nl ++ nl
  ++ lit "Context: " ++ context ++ nl
  ++ lit "Broken JSON: " ++ broken_json ++ nl ++ nl
  ++ lit "Rules:" ++ nl
  ++ lit "- All keys must have double quotes" ++ nl
  ++ lit "- All string values must have double quotes  " ++ nl
  ++ lit "- No trailing commas" ++ nl
  ++ lit "- Escape quotes inside strings with backslashes" ++ nl
  ++ lit "- Return only the fixed JSON".

Definition fix_request (broken_json context : str) : request :=
  {| model := gpt_4o_mini;
     prompt := fix_prompt broken_json context;
     temperature := 1 # 10;
     max_tokens := Some 500%N |}.

Definition prompt_request (prompt : str) : request :=
  {| model := gpt_4o_mini;
     prompt := prompt;
     temperature := 7 # 10;
     max_tokens := Some 300%N |}.

Definition translate_prompt (text target_language : str) : str :=
  lit "Translate to " ++ target_language
  ++ lit ". Return only the translation, no explanations: " ++ text.

Definition translate_request (text target_language : str) : request :=
  {| model := gpt_4o_mini;
     prompt := translate_prompt text target_language;
     temperature := 3 # 10;
     max_tokens := None |}.

Definition format_instruction (expected_format : str) : str :=
  nl ++ nl
  ++ lit "IMPORTANT: Maintain the exact HTML structure from this example: "
  ++ expected_format.

Definition format_reminder : str :=
  nl ++ nl
  ++ lit "Please maintain the HTML tags structure exactly as shown in the example.".

(** [expected_format and "<" in expected_format] *)
Definition wants_html (expected_format : option str) : bool :=
  match expected_format with
  | Some f => truthy f && contains (lit "<") f
  | None => false
  end.

Definition validate_html_format (text : str) (expected_format : option str)
    : bool :=
  match expected_format with
  | Some f =>
      if truthy f && contains (lit "<") f then
        let original_tags := Re.findall Re.html_tag f in
        let result_tags := Re.findall Re.html_tag text in
        Nat.leb (length original_tags) (length result_tags)
      else true
  | None => true
  end.

(** A unit of generated copy: a text placed as it comes, or a JSON object
    whose fields, reached by their keys, fill one placeholder each.
    [prompt_fn] names the function that renders the prompt. *)
Inductive content_unit : Type :=
| TextUnit (prompt_fn : string) (gen : generator) (placeholder : str)
| JsonUnit (prompt_fn : string) (context : str)
    (fields : list (str * list str)).

Section Script.
Variable complete : service.
  (** [json_loads s] is what [json.loads(s)] comes to: the value, or the
      exception that it raises, [JSONDecodeError] on a text that is not JSON,
      [RecursionError] or [ValueError] on one that it cannot build. *)
Variable json_loads : str -> result value.
  (** [console], see [py_print]. *)
Variable console : str -> option exn.
  (** The prompt templates: [render f brand_name product_title
      product_description language] is the text that the function named [f]
      returns. *)
Variable render : string -> str -> str -> str -> str -> str.

Definition loads (s : str) : M value := lift (json_loads s).

Definition fix_json_with_gpt (broken_json context : str) : M str :=
    try_except
      (content <- chat_completions_create complete
                    (fix_request broken_json context) ;;
       ret (clean_json_response (strip content)))
      (fun _ => ret broken_json).

(** [safe_json_parse], which no page calls: the fallback of the caller
    stands in when the text is not JSON and its repair does not parse.  Each
    handler prints the label of the caller before it goes on. *)
Definition safe_json_parse (json_string context : str)
    (fallback_data : value) : M value :=
  try_except_json
    (let cleaned := clean_json_response json_string in
     loads cleaned)
    (py_print console
       (lit "JSON parse failed for " ++ context ++ lit ", trying GPT fix...") ;;;
     try_except
       (fixed_json <- fix_json_with_gpt json_string context ;;
        loads fixed_json)
       (fun _ =>
          py_print console
            (lit "GPT fix failed for " ++ context ++ lit ", using fallback") ;;;
          ret fallback_data)).

Definition prompt_gpt (prompt : str) (max_retries : positive) : M str :=
    count_client_call ;;;
    prompt_gpt_attempts complete (prompt_request prompt)
      (Pos.to_nat max_retries - 1).

Definition translate_text (text target_language : str) : M str :=
    try_except
      (content <- chat_completions_create complete
                    (translate_request text target_language) ;;
       ret (replace [dquote] [] (strip content)))
      (fun _ => ret text).

Definition replace_in_file (file_path : string) (placeholder : str)
      (content : value) : M unit :=
    data <- read_text file_path ;;
    data <- lift (replace_with placeholder content data) ;;
    write_text file_path data.

  (** The loop [for attempt in range(3)], seen from an attempt after which
      [more] may follow; the result of the last one is returned as it is. *)
Fixpoint format_attempts (more : nat) (prompt : str)
      (expected_format : option str) : M str :=
    result <- prompt_gpt prompt 3 ;;
    if validate_html_format result expected_format then ret result
    else match more with
         | O => ret result
         | S n => format_attempts n (prompt ++ format_reminder) expected_format
         end.

Definition generate_with_format_validation (prompt : str)
      (expected_format : option str) : M str :=
    let prompt :=
      match expected_format with
      | Some f =>
          if truthy f && contains (lit "<") f
          then prompt ++ format_instruction f
          else prompt
      | None => prompt
      end in
    format_attempts 2 prompt expected_format.

Definition generate (gen : generator) (prompt : str) : M str :=
    match gen with
    | Plain => prompt_gpt prompt 3
    | Validated f => generate_with_format_validation prompt (Some f)
    end.

  (** [obj[k1][k2]...] *)
Fixpoint getpath (obj : value) (keys : list str) : result value :=
    match keys with
    | [] => Ok obj
    | k :: ks =>
        match getitem obj k with
        | Ok v => getpath v ks
        | Raise e => Raise e
        end
    end.

Section Page.
Variable PATH : string.
Variables brand_name product_title product_description language : str.

    (** A translated label and the placeholders it fills. *)
Definition translation_step (row : str * list str) : M unit :=
      translated <- translate_text (fst row) language ;;
      for_each (snd row)
        (fun placeholder => replace_in_file PATH placeholder (VStr translated)).

Definition run_translations (table : list (str * list str)) : M unit :=
      for_each table translation_step.

Definition run_unit (u : content_unit) : M unit :=
      match u with
      | TextUnit f gen placeholder =>
          let prompt :=
            render f brand_name product_title product_description language in
          text <- generate gen prompt ;;
          replace_in_file PATH placeholder (VStr text)
      | JsonUnit f context fields =>
          let prompt :=
            render f brand_name product_title product_description language in
          result <- prompt_gpt prompt 3 ;;
          obj <- try_except
                   (loads (clean_json_response result))
                   (fun _ =>
                      fixed_result <- fix_json_with_gpt result context ;;
                      loads fixed_result) ;;
          for_each fields
            (fun field =>
               v <- lift (getpath obj (snd field)) ;;
               replace_in_file PATH (fst field) v)
      end.

Definition run_units (units : list content_unit) : M unit :=
      for_each units run_unit.
End Page.

Definition translations : list (str * list str) :=
    [
      (lit "Exclusive Holiday Bundles",
       [lit "NEW_HERO_CAPTION_TRANSLATED"]);
      (lit "Save Up To 55%",
       [lit "NEW_HERO_BUTTON_TRANSLATED"]);
      (lit "FEATURED IN",
       [lit "NEW_FEATURED_IN_TRANSLATED"]);
      (lit "Look At How Others Are Loving Their Product!",
       [lit "NEW_CUSTOMER_LOVE_HEADING_TRANSLATED"]);
      (lit "Real Reviews From Real People",
       [lit "NEW_REAL_REVIEWS_SUBHEADING_TRANSLATED"]);
      (lit "CLAIM OFFER",
       [lit "NEW_CLAIM_OFFER_BUTTON_TRANSLATED"]);
      (lit "Lookbook",
       [lit "NEW_LOOKBOOK_HEADING_TRANSLATED"]);
      (lit "<p>Optional description for this section</p>",
       [lit "NEW_LOOKBOOK_DESCRIPTION_TRANSLATED"]);
      (lit "Heading",
       [lit "NEW_LOOKBOOK_POINT_1_TITLE_TRANSLATED"; lit "NEW_LOOKBOOK_POINT_2_TITLE_TRANSLATED"]);
      (lit "Some optional description for this point",
       [lit "NEW_LOOKBOOK_POINT_1_DESC_TRANSLATED"; lit "NEW_LOOKBOOK_POINT_2_DESC_TRANSLATED"]);
      (lit "View product",
       [lit "NEW_VIEW_PRODUCT_BUTTON_TRANSLATED"]);
      (lit "button",
       [lit "NEW_BUTTON_TEXT_TRANSLATED"]);
      (lit "Size Chart",
       [lit "NEW_SIZE_CHART_TRANSLATED"]);
      (lit "1 Pack",
       [lit "NEW_PACK_1_LABEL_TRANSLATED"]);
      (lit "3 Pack",
       [lit "NEW_PACK_3_LABEL_TRANSLATED"]);
      (lit "4 Pack",
       [lit "NEW_PACK_4_LABEL_TRANSLATED"]);
      (lit "5 Pack",
       [lit "NEW_PACK_5_LABEL_TRANSLATED"]);
      (lit "Offer",
       [lit "NEW_OFFER_LABEL_TRANSLATED"]);
      (lit "Most Popular",
       [lit "NEW_MOST_POPULAR_TRANSLATED"]);
      (lit "Save (%)",
       [lit "NEW_SAVE_TEXT_TRANSLATED"]);
      (lit "<p>Buy More Save More</p>",
       [lit "NEW_BUY_MORE_SAVE_MORE_TRANSLATED"]);
      (lit "<p>Limited Time Offer</p>",
       [lit "NEW_LIMITED_TIME_OFFER_TRANSLATED"]);
      (lit "OUR PRODUCT PHILOSOPHY",
       [lit "NEW_PRODUCT_PHILOSOPHY_CAPTION_TRANSLATED"]);
      (lit "Learn More",
       [lit "NEW_LEARN_MORE_BUTTON_TRANSLATED"]);
      (lit "What our customers say",
       [lit "NEW_CUSTOMER_TESTIMONIALS_HEADING_TRANSLATED"]);
      (lit "Our Story",
       [lit "NEW_OUR_STORY_BUTTON_TRANSLATED"])
    ].

Definition content_units : list content_unit :=
    [
      TextUnit "generate_hero_heading_prompt" (Plain)
        (lit "NEW_HERO_HEADING_GENERATED");
      TextUnit "generate_hero_subheading_prompt" (Validated (lit "Save up to 55% on <strong>Text Here</strong>"))
        (lit "NEW_HERO_SUBHEADING_GENERATED");
      TextUnit "generate_rating_text_prompt" (Plain)
        (lit "NEW_RATING_TEXT_GENERATED");
      JsonUnit "generate_testimonials_prompt" (lit "testimonials")
        [(lit "NEW_TESTIMONIAL_1_CAPTION_GENERATED", [lit "testimonial_1"; lit "caption"]);
         (lit "NEW_TESTIMONIAL_1_TEXT_GENERATED", [lit "testimonial_1"; lit "text"]);
         (lit "NEW_TESTIMONIAL_1_AUTHOR_GENERATED", [lit "testimonial_1"; lit "author"]);
         (lit "NEW_TESTIMONIAL_2_CAPTION_GENERATED", [lit "testimonial_2"; lit "caption"]);
         (lit "NEW_TESTIMONIAL_2_TEXT_GENERATED", [lit "testimonial_2"; lit "text"]);
         (lit "NEW_TESTIMONIAL_2_AUTHOR_GENERATED", [lit "testimonial_2"; lit "author"]);
         (lit "NEW_TESTIMONIAL_3_CAPTION_GENERATED", [lit "testimonial_3"; lit "caption"]);
         (lit "NEW_TESTIMONIAL_3_TEXT_GENERATED", [lit "testimonial_3"; lit "text"]);
         (lit "NEW_TESTIMONIAL_3_AUTHOR_GENERATED", [lit "testimonial_3"; lit "author"])];
      JsonUnit "generate_customer_reviews_prompt" (lit "reviews")
        [(lit "NEW_CUSTOMER_REVIEW_1_GENERATED", [lit "review_1"]);
         (lit "NEW_CUSTOMER_REVIEW_2_GENERATED", [lit "review_2"]);
         (lit "NEW_CUSTOMER_REVIEW_3_GENERATED", [lit "review_3"])];
      JsonUnit "generate_benefits_prompt" (lit "benefits")
        [(lit "NEW_BENEFIT_1_TEXT_GENERATED", [lit "benefit_1"]);
         (lit "NEW_BENEFIT_2_TEXT_GENERATED", [lit "benefit_2"]);
         (lit "NEW_BENEFIT_3_HEADING_GENERATED", [lit "benefit_3"]);
         (lit "NEW_BENEFIT_4_HEADING_GENERATED", [lit "benefit_4_heading"]);
         (lit "NEW_BENEFIT_4_TEXT_GENERATED", [lit "benefit_4_text"])];
      JsonUnit "generate_scrolling_texts_prompt" (lit "scrolling_texts")
        [(lit "NEW_SCROLLING_TEXT_1_GENERATED", [lit "text_1"]);
         (lit "NEW_SCROLLING_TEXT_2_GENERATED", [lit "text_2"])];
      JsonUnit "generate_video_section_prompt" (lit "video_content")
        [(lit "NEW_BEAUTY_SERENITY_HEADING_GENERATED", [lit "heading"]);
         (lit "NEW_VIDEO_SECTION_DESCRIPTION_GENERATED", [lit "description"]);
         (lit "NEW_FEATURE_1_GENERATED", [lit "feature_1"]);
         (lit "NEW_FEATURE_2_GENERATED", [lit "feature_2"]);
         (lit "NEW_FEATURE_3_GENERATED", [lit "feature_3"]);
         (lit "NEW_PERCENTAGE_TEXT_GENERATED", [lit "percentage_text"])];
      TextUnit "generate_video_heading_prompt" (Validated (lit "**Transform** Your Experience"))
        (lit "NEW_VIDEO_HEADING_GENERATED");
      TextUnit "generate_philosophy_heading_prompt" (Plain)
        (lit "NEW_PHILOSOPHY_HEADING_GENERATED");
      TextUnit "generate_doctor_testimonial_prompt" (Validated (lit "<p><strong>Compelling quote about product quality/results</strong></p><h6><strong>Expert Name, Specific Title/Credentials</strong></h6>"))
        (lit "NEW_DOCTOR_TESTIMONIAL_GENERATED");
      TextUnit "generate_final_cta_heading_prompt" (Validated (lit "Love <strong>Your Skin</strong>, Let Your <em>Radiance</em> Begin"))
        (lit "NEW_FINAL_CTA_HEADING_GENERATED")
    ].

Section Main.
Variable HOME_JSON_PATH : string.
Variables brand_name product_title product_description language : str.

Definition process_translations : M unit :=
      run_translations HOME_JSON_PATH language translations.

Definition process_generated_content : M unit :=
      run_units HOME_JSON_PATH brand_name product_title product_description
        language content_units.

Definition change_home_page_content : M unit :=
      process_translations ;;; process_generated_content.
End Main.
End Script.

End Home.

(** ** The footer script, [footer_content_status.py]: the helpers of the home
    script with its own tables. *)

Module Footer.

Section Script.
Variable complete : service.
Variable json_loads : str -> result value.
Variable render : string -> str -> str -> str -> str -> str.

Definition translations : list (str * list str) :=
    [
      (lit "* We Promise not to use your email for Spam! You can unsubscribe at any time.",
       [lit "NEW_NEWSLETTER_SMALL_TEXT_TRANSLATED"]);
      (lit "Information",
       [lit "NEW_FOOTER_INFO_HEADING_TRANSLATED"]);
      (lit "Shop",
       [lit "NEW_FOOTER_SHOP_HEADING_TRANSLATED"]);
      (lit "Subscribe to our emails",
       [lit "NEW_FOOTER_NEWSLETTER_HEADING_TRANSLATED"])
    ].

Definition content_units : list Home.content_unit :=
    [
      Home.JsonUnit "generate_trust_badges_prompt" (lit "trust_badges")
        [(lit "NEW_TRUST_BADGE_1_TITLE_GENERATED", [lit "badge_1"; lit "title"]);
         (lit "NEW_TRUST_BADGE_1_TEXT_GENERATED", [lit "badge_1"; lit "text"]);
         (lit "NEW_TRUST_BADGE_2_TITLE_GENERATED", [lit "badge_2"; lit "title"]);
         (lit "NEW_TRUST_BADGE_2_TEXT_GENERATED", [lit "badge_2"; lit "text"]);
         (lit "NEW_TRUST_BADGE_3_TITLE_GENERATED", [lit "badge_3"; lit "title"]);
         (lit "NEW_TRUST_BADGE_3_TEXT_GENERATED", [lit "badge_3"; lit "text"]);
         (lit "NEW_TRUST_BADGE_4_TITLE_GENERATED", [lit "badge_4"; lit "title"]);
         (lit "NEW_TRUST_BADGE_4_TEXT_GENERATED", [lit "badge_4"; lit "text"])];
      Home.JsonUnit "generate_scroll_footer_text_prompt" (lit "scroll_footer_texts")
        [(lit "NEW_SCROLL_FOOTER_TEXT_1_GENERATED", [lit "text_1"]);
         (lit "NEW_SCROLL_FOOTER_OUTLINE_1_GENERATED", [lit "outline_1"]);
         (lit "NEW_SCROLL_FOOTER_TEXT_2_GENERATED", [lit "text_2"]);
         (lit "NEW_SCROLL_FOOTER_OUTLINE_2_GENERATED", [lit "outline_2"]);
         (lit "NEW_SCROLL_FOOTER_TEXT_3_GENERATED", [lit "text_3"]);
         (lit "NEW_SCROLL_FOOTER_OUTLINE_3_GENERATED", [lit "outline_3"])];
      Home.JsonUnit "generate_newsletter_prompt" (lit "newsletter")
        [(lit "NEW_NEWSLETTER_HEADING_GENERATED", [lit "heading"]);
         (lit "NEW_NEWSLETTER_TEXT_GENERATED", [lit "text"])];
      Home.JsonUnit "generate_footer_contact_prompt" (lit "footer_contact")
        [(lit "NEW_FOOTER_CONTACT_HEADING_GENERATED", [lit "heading"]);
         (lit "NEW_FOOTER_CONTACT_SUBTEXT_GENERATED", [lit "subtext"])]
    ].

Section Main.
Variable FOOTER_JSON_PATH : string.
Variables brand_name product_title product_description language : str.

Definition process_footer_translations : M unit :=
      Home.run_translations complete FOOTER_JSON_PATH language translations.

Definition process_footer_generated_content : M unit :=
      Home.run_units complete json_loads render FOOTER_JSON_PATH brand_name
        product_title product_description language content_units.

Definition change_footer_content : M unit :=
      process_footer_translations ;;; process_footer_generated_content.
End Main.
End Script.

End Footer.

(** ** The product page script, [product_content_status.py] *)

Module Product.

Definition clean_json_response (response_text : str) : str :=
  let response_text := Re.sub Re.fence_json [] response_text in
  let response_text := Re.sub Re.fence_end [] response_text in
  let response_text :=
    replace [dquote] [dquote] (replace [dquote] [dquote] response_text) in
  let response_text :=
    Re.sub Re.unescaped_quote [backslash; squote] response_text in
  let response_text := replace quote_literal (lit "'") response_text in
  strip response_text.

(** [', '.join(expected_keys) if expected_keys else 'None specified'] *)
Definition keys_text (expected_keys : option (list str)) : str :=
  match expected_keys with
  | Some (k :: ks) => join (lit ", ") (k :: ks)
  | _ => lit "None specified"
  end.

Definition fix_prompt (broken_json context : str)
    (expected_keys : option (list str)) : str :=
  lit "Fix this broken JSON and return ONLY valid JSON (no explanations, no markdown):"
  ++ nl ++ nl
  ++ lit "Context: " ++ context ++ nl
  ++ lit "Broken JSON: " ++ broken_json ++ nl ++ nl
  ++ lit "Rules:" ++ nl
  ++ lit "- All keys must have double quotes" ++ nl
  ++ lit "- All string values must have double quotes" ++ nl
  ++ lit "- For HTML attributes (e.g., href, title), use single quotes (e.g., href='/path')"
  ++ nl
  ++ lit "- Escape quotes inside strings with backslashes" ++ nl
  ++ lit "- Ensure proper string termination to avoid unterminated string errors"
  ++ nl
  ++ lit "- No trailing commas" ++ nl
  ++ lit "- Ensure ALL the following keys are included: "
  ++ keys_text expected_keys ++ nl
  ++ lit "- If a key is missing, provide a default value relevant to the context:"
  ++ nl
  ++ lit "  - For HTML fields, use '<p>Contenu par d" ++ [8730%N; 169%N]
  ++ lit "faut</p>'" ++ nl
  ++ lit "  - For raw text fields (e.g., head_text_lumin_hero_8jr4ii, text_264e37ac, text_74e17b96, text_popup_DVDmRD, stock-related texts, button texts), use 'Texte par d"
  ++ [8730%N; 169%N] ++ lit "faut'" ++ nl
  ++ lit "- Return only the fixed JSON".

Definition fix_request (broken_json context : str)
    (expected_keys : option (list str)) : request :=
  {| model := gpt_4o_mini;
     prompt := fix_prompt broken_json context expected_keys;
     temperature := 1 # 10;
     max_tokens := Some 2000%N |}.

Definition prompt_request (prompt : str) (max_tokens : N) : request :=
  {| model := gpt_4o_mini;
     prompt := prompt;
     temperature := 7 # 10;
     max_tokens := Some max_tokens |}.

Definition validate_html_format (text : str) (expected_format : option str)
    : bool :=
  match expected_format with
  | Some f =>
      if truthy f && contains (lit "<") f then
        let original_tags := Re.findall Re.html_tag f in
        let result_tags := Re.findall Re.html_tag text in
        Nat.leb (length original_tags) (length result_tags)
      else true
  | None => true
  end.

(** A group of fields generated together as one JSON object: the prompt
    function, how the text is produced, the labels handed to the recovery
    step on its first and second call, the keys it is told to expect, and
    the placeholder that each key fills.  [group_name] is the name in the
    message of the final exception. *)
Record unit_group : Type := {
  prompt_fn : string;
  gen : generator;
  group_max_tokens : N;
  group_name : str;
  context : str;
  retry_context : str;
  expected_keys : list str;
  fields : list (str * str)
}.

Definition failure_message (g : unit_group) : str :=
  lit "Failed to generate valid " ++ group_name g
  ++ lit " JSON after retries.".

(** The messages that show a text of the service: [s[:500]] is [take 500 s]. *)
Definition attempt_message (broken_json context : str) : str :=
  lit "Attempting to fix JSON for " ++ context
  ++ lit ". Input (first 500 chars): " ++ take 500 broken_json ++ lit "...".

Definition fixed_message (fixed_json context : str) : str :=
  lit "Fixed JSON for " ++ context ++ lit " (first 500 chars): "
  ++ take 500 fixed_json ++ lit "...".

Definition parse_failure_message (g : unit_group) (result : str) : str :=
  lit "Failed to parse " ++ group_name g ++ lit " JSON (first 500 chars): "
  ++ take 500 result ++ lit "...".

Section Script.
Variable complete : service.
Variable json_loads : str -> result value.
Variable console : str -> option exn.
Variable render : string -> str -> str -> str -> str -> str.

Definition loads (s : str) : M value := lift (json_loads s).

  (** Both progress messages are printed inside the [try]: an exception of
      [print] is handled like one of the call. *)
Definition fix_json_with_gpt (broken_json context : str)
      (expected_keys : option (list str)) : M str :=
    try_except
      (py_print console (attempt_message broken_json context) ;;;
       content <- chat_completions_create complete
                    (fix_request broken_json context expected_keys) ;;
       let fixed_json := clean_json_response (strip content) in
       py_print console (fixed_message fixed_json context) ;;;
       ret fixed_json)
      (fun _ => ret broken_json).

Definition prompt_gpt (prompt : str) (max_retries : positive)
      (max_tokens : N) : M str :=
    count_client_call ;;;
    prompt_gpt_attempts complete (prompt_request prompt max_tokens)
      (Pos.to_nat max_retries - 1).

Definition translate_text (text target_language : str) : M str :=
    try_except
      (content <- chat_completions_create complete
                    (Home.translate_request text target_language) ;;
       ret (replace [dquote] [] (strip content)))
      (fun _ => ret text).

  (** The whole body sits in a [try] whose handler prints and returns.  The
      two prints of the body come last on their branch, inside the [try]:
      whether they raise makes no difference. *)
Definition replace_in_file (file_path : string) (placeholder : str)
      (content : value) : M unit :=
    try_except
      (data <- read_text file_path ;;
       if contains placeholder data then
         data <- lift (replace_with placeholder content data) ;;
         write_text file_path data
       else ret tt)
      (fun _ => ret tt).

Fixpoint format_attempts (more : nat) (prompt : str)
      (expected_format : option str) (max_tokens : N) : M str :=
    result <- prompt_gpt prompt 3 max_tokens ;;
    if validate_html_format result expected_format then ret result
    else match more with
         | O => ret result
         | S n =>
             format_attempts n (prompt ++ Home.format_reminder)
               expected_format max_tokens
         end.

Definition generate_with_format_validation (prompt : str)
      (expected_format : option str) (max_tokens : N) : M str :=
    let prompt :=
      match expected_format with
      | Some f =>
          if truthy f && contains (lit "<") f
          then prompt ++ Home.format_instruction f
          else prompt
      | None => prompt
      end in
    format_attempts 2 prompt expected_format max_tokens.

Definition generate (g : generator) (prompt : str) (max_tokens : N)
      : M str :=
    match g with
    | Plain => prompt_gpt prompt 3 max_tokens
    | Validated f => generate_with_format_validation prompt (Some f) max_tokens
    end.

  (** The nested [try] blocks after the generation of a group: parse the
      sanitised text; failing that, print the start of the result, ask for a
      repair under the label of the group and parse the answer; failing
      that, ask once more under the retry label; failing that, raise.  The
      print of the first handler stands before the inner [try]: its
      exception leaves the group. *)
Definition parse_or_recover (g : unit_group) (result : str) : M value :=
    try_except
      (loads (clean_json_response result))
      (fun _ =>
         py_print console (parse_failure_message g result) ;;;
         try_except
           (fixed_result <- fix_json_with_gpt result (context g)
                              (Some (expected_keys g)) ;;
            loads fixed_result)
           (fun _ =>
              try_except
                (fixed_result <- fix_json_with_gpt result (retry_context g)
                                   (Some (expected_keys g)) ;;
                 loads fixed_result)
                (fun _ => raise (Exception (failure_message g))))).

Section Page.
Variable PRODUCT_JSON_PATH : string.
Variables brand_name product_title product_description language : str.

Definition substitute_fields (g : unit_group) (obj : value) : M unit :=
      for_each (fields g)
        (fun field =>
           v <- lift (getitem obj (snd field)) ;;
           replace_in_file PRODUCT_JSON_PATH (fst field) v).

Definition run_group (g : unit_group) : M unit :=
      let prompt :=
        render (prompt_fn g) brand_name product_title product_description
          language in
      result <- generate (gen g) prompt (group_max_tokens g) ;;
      obj <- parse_or_recover g result ;;
      substitute_fields g obj.

Definition run_groups (groups : list unit_group) : M unit :=
      for_each groups run_group.

Definition translation_step (row : str * str) : M unit :=
      translated <- translate_text (fst row) language ;;
      replace_in_file PRODUCT_JSON_PATH (snd row) (VStr translated).
End Page.

Definition translations : list (str * str) :=
    [
      (lit "Pairs well with",
       lit "NEW_BLOCK_HEADING_006E6C29_717A_4F58_8FEA_CABC7DA6316F_TRANSLATED");
      (lit "Shop Collection",
       lit "NEW_BUTTON_LABEL_BUTTON_MHN8PC_TRANSLATED");
      (lit "July 2023",
       lit "NEW_DATE_TEXT_13A5819E_5698_472F_94EB_34D5A7AD9B21_TRANSLATED");
      (lit "Jan 2024",
       lit "NEW_DATE_TEXT_30900101_E5C8_4C0E_B5BD_0FCF8EEA85CF_TRANSLATED");
      (lit "July 2023",
       lit "NEW_DATE_TEXT_3C322C1A_1E3A_47E6_8D7B_720D506EB595_TRANSLATED");
      (lit "July 2023",
       lit "NEW_DATE_TEXT_53A5B896_0517_4E05_80FE_B23DE703E79B_TRANSLATED");
      (lit "Dec 2023",
       lit "NEW_DATE_TEXT_D032A47C_6F6E_4A8E_94B9_D1260A5D6B0D_TRANSLATED");
      (lit "July 2023",
       lit "NEW_DATE_TEXT_E3288062_4139_4942_8A82_452BFEBBD63F_TRANSLATED");
      (lit "Jan 2023",
       lit "NEW_DATE_TEXT_F57735F1_30A6_4538_8C95_BFE08674506B_TRANSLATED");
      (lit "July 2023",
       lit "NEW_DATE_TEXT_REVIEW_ARWHQK_TRANSLATED");
      (lit "July 2023",
       lit "NEW_DATE_TEXT_REVIEW_FWXHPQ_TRANSLATED");
      (lit "July 2023",
       lit "NEW_DATE_TEXT_REVIEW_KAGTR4_TRANSLATED");
      (lit "(x) People are looking at this",
       lit "NEW_FOMO_TEXT_BEFORE_4EC31670_952B_4ED4_8799_249844A8F39B_TRANSLATED");
      (lit "Rated the #1 drone technology in 2025.",
       lit "NEW_HEADER_TEXT_3475A8F9_021F_4ACD_8E57_163EF2A26740_TRANSLATED");
      (lit "100% Money <strong>Back</strong>!!",
       lit "NEW_HEADING_504C9E09_AAA7_49C4_8271_C6CA319D23F2_TRANSLATED");
      (lit "Shipping Information",
       lit "NEW_HEADING_9CCFFC8D_E4C7_404F_8007_8C5162F22285_TRANSLATED");
      (lit "FAQs",
       lit "NEW_HEADING_C0EF23CF_5481_4B47_9B78_3C28134C079A_TRANSLATED");
      (lit "Is everything recyclable?",
       lit "NEW_HEADING_COLLAPSIBLE_ROW_BMHKAN_TRANSLATED");
      (lit "How often should you use?",
       lit "NEW_HEADING_COLLAPSIBLE_ROW_GIDN9Z_TRANSLATED");
      (lit "Does this really work?",
       lit "NEW_HEADING_COLLAPSIBLE_ROW_T3YHUA_TRANSLATED");
      (lit "Ingredient list",
       lit "NEW_HEADING_COLLAPSIBLE_TAB_HK7DGX_TRANSLATED");
      (lit "Returns & Refunds",
       lit "NEW_HEADING_F34AD5C4_50A9_4A95_A561_D8C51D1B76DD_TRANSLATED");
      (lit "<strong>Experience Stealth with AeroShadow X1</strong>",
       lit "NEW_HEADING_HEADING_8E7QYA_TRANSLATED");
      (lit "<strong>Precision Drone Technology</strong>",
       lit "NEW_HEADING_HEADING_AJMG6N_TRANSLATED");
      (lit "<strong>Fly Beyond Limits.</strong>",
       lit "NEW_HEADING_HEADING_JHTCQY_TRANSLATED");
      (lit "You may also like",
       lit "NEW_HEADING_RELATED-PRODUCTS_TRANSLATED");
      (lit "What if it doesn" ++ [8218%N] ++ [196%N] ++ [244%N] ++ lit "t work for me?",
       lit "NEW_HEADING_TEMPLATE__15124688076883__C0EF23CF_5481_4B47_9B78_3C28134C079A_COLLAPSIBLE_ROW_1_TRANSLATED");
      (lit "Guarantee?",
       lit "NEW_HEADING_TEMPLATE__15124688076883__C0EF23CF_5481_4B47_9B78_3C28134C079A_COLLAPSIBLE_ROW_2_TRANSLATED");
      (lit "Okay, but why have I never heard of this before?",
       lit "NEW_HEADING_TEMPLATE__15124688076883__C0EF23CF_5481_4B47_9B78_3C28134C079A_COLLAPSIBLE_ROW_3_TRANSLATED");
      (lit "Do you provide tracking information?",
       lit "NEW_HEADING_TEMPLATE__15124688076883__C0EF23CF_5481_4B47_9B78_3C28134C079A_COLLAPSIBLE_ROW_4_TRANSLATED");
      (lit "Johan D.",
       lit "NEW_NAME_TEXT_13A5819E_5698_472F_94EB_34D5A7AD9B21_TRANSLATED");
      (lit "Sofia R.",
       lit "NEW_NAME_TEXT_30900101_E5C8_4C0E_B5BD_0FCF8EEA85CF_TRANSLATED");
      (lit "Johan D.",
       lit "NEW_NAME_TEXT_3C322C1A_1E3A_47E6_8D7B_720D506EB595_TRANSLATED");
      (lit "Amy Grady, B.",
       lit "NEW_NAME_TEXT_53A5B896_0517_4E05_80FE_B23DE703E79B_TRANSLATED");
      (lit "Anabella C.",
       lit "NEW_NAME_TEXT_D032A47C_6F6E_4A8E_94B9_D1260A5D6B0D_TRANSLATED");
      (lit "Johan D.",
       lit "NEW_NAME_TEXT_E3288062_4139_4942_8A82_452BFEBBD63F_TRANSLATED");
      (lit "Vera R.",
       lit "NEW_NAME_TEXT_F57735F1_30A6_4538_8C95_BFE08674506B_TRANSLATED");
      (lit "Johan D.",
       lit "NEW_NAME_TEXT_REVIEW_ARWHQK_TRANSLATED");
      (lit "Johan D.",
       lit "NEW_NAME_TEXT_REVIEW_FWXHPQ_TRANSLATED");
      (lit "Johan D.",
       lit "NEW_NAME_TEXT_REVIEW_KAGTR4_TRANSLATED");
      (lit "Most Popular",
       lit "NEW_OPTION_1_BADGE_TEXT_QUANTITY_SELECTOR_Q9D74M_TRANSLATED");
      (lit "1 Drone",
       lit "NEW_OPTION_1_LABEL_QUANTITY_SELECTOR_Q9D74M_TRANSLATED");
      (lit "SPECIAL OFFER - Limited Time",
       lit "NEW_OPTION_2_BADGE_TEXT_QUANTITY_SELECTOR_Q9D74M_TRANSLATED");
      (lit "Buy 2, Get 1 FREE",
       lit "NEW_OPTION_2_LABEL_QUANTITY_SELECTOR_Q9D74M_TRANSLATED");
      (lit "FLASH SALE " ++ [8218%N] ++ [196%N] ++ [238%N] ++ lit " Grab It Before It's Gone",
       lit "NEW_OPTION_3_BADGE_TEXT_QUANTITY_SELECTOR_Q9D74M_TRANSLATED");
      (lit "Buy 3, Get 2 FREE",
       lit "NEW_OPTION_3_LABEL_QUANTITY_SELECTOR_Q9D74M_TRANSLATED");
      (lit "Most Popular",
       lit "NEW_OPTION_4_BADGE_TEXT_QUANTITY_SELECTOR_Q9D74M_TRANSLATED");
      (lit "4 Drones",
       lit "NEW_OPTION_4_LABEL_QUANTITY_SELECTOR_Q9D74M_TRANSLATED");
      (lit "Most Popular",
       lit "NEW_OPTION_5_BADGE_TEXT_QUANTITY_SELECTOR_Q9D74M_TRANSLATED");
      (lit "5 Drones",
       lit "NEW_OPTION_5_LABEL_QUANTITY_SELECTOR_Q9D74M_TRANSLATED");
      (lit "Most Popular",
       lit "NEW_OPTION_6_BADGE_TEXT_QUANTITY_SELECTOR_Q9D74M_TRANSLATED");
      (lit "6 Drones",
       lit "NEW_OPTION_6_LABEL_QUANTITY_SELECTOR_Q9D74M_TRANSLATED");
      (lit "Nice Product",
       lit "NEW_REVIEW_HEAD_13A5819E_5698_472F_94EB_34D5A7AD9B21_TRANSLATED");
      (lit "Works well for advanced flights!",
       lit "NEW_REVIEW_HEAD_30900101_E5C8_4C0E_B5BD_0FCF8EEA85CF_TRANSLATED");
      (lit "Nice Product",
       lit "NEW_REVIEW_HEAD_3C322C1A_1E3A_47E6_8D7B_720D506EB595_TRANSLATED");
      (lit "The Only Drone That Has Worked For Me",
       lit "NEW_REVIEW_HEAD_53A5B896_0517_4E05_80FE_B23DE703E79B_TRANSLATED");
      (lit "Holy Unexpected!!",
       lit "NEW_REVIEW_HEAD_D032A47C_6F6E_4A8E_94B9_D1260A5D6B0D_TRANSLATED");
      (lit "Nice Product",
       lit "NEW_REVIEW_HEAD_E3288062_4139_4942_8A82_452BFEBBD63F_TRANSLATED");
      (lit "BEST PURCHASE BEST FIND",
       lit "NEW_REVIEW_HEAD_F57735F1_30A6_4538_8C95_BFE08674506B_TRANSLATED");
      (lit "Nice Product",
       lit "NEW_REVIEW_HEAD_REVIEW_ARWHQK_TRANSLATED");
      (lit "Nice Product",
       lit "NEW_REVIEW_HEAD_REVIEW_FWXHPQ_TRANSLATED");
      (lit "Nice Product",
       lit "NEW_REVIEW_HEAD_REVIEW_KAGTR4_TRANSLATED");
      ([8218%N] ++ [250%N] ++ [174%N] ++ lit " <strong>Obsessed with the Results</strong>",
       lit "NEW_TITLE_COLUMN_7ZMKCE_TRANSLATED");
      ([8218%N] ++ [246%N] ++ [176%N] ++ lit " <strong>Visible Results, Fast</strong>",
       lit "NEW_TITLE_COLUMN_9PFUYJ_TRANSLATED");
      ([63743%N] ++ [252%N] ++ [237%N] ++ [241%N] ++ lit " <strong>Worth Every Penny</strong>",
       lit "NEW_TITLE_COLUMN_HTTYFJ_TRANSLATED");
      ([63743%N] ++ [252%N] ++ [229%N] ++ [248%N] ++ lit " <strong>Advanced Drone Technology</strong>",
       lit "NEW_TITLE_COLUMN_XLTNH7_TRANSLATED");
      (lit "What makes AeroShadow right for you?",
       lit "NEW_TITLE_COMPARISON_TABLE_9J8NNQ_TRANSLATED");
      (lit "Why AeroShadow is <strong>Better</strong>",
       lit "NEW_TITLE_LUMIN_HERO_8JR4II_TRANSLATED");
      (lit "Drone Tech for the Best Flights Yet",
       lit "NEW_TITLE_MULTICOLUMN_XDHHWC_TRANSLATED");
      (lit "Was this helpful?",
       lit "NEW_LIKE_TEXT_3475A8F9_021F_4ACD_8E57_163EF2A26740_TRANSLATED");
      (lit "Load More",
       lit "NEW_LOAD_TEXT_3475A8F9_021F_4ACD_8E57_163EF2A26740_TRANSLATED");
      (lit "Verified Buyer",
       lit "NEW_VERIFY_TEXT_3475A8F9_021F_4ACD_8E57_163EF2A26740_TRANSLATED");
      (lit "SkyForge Tech",
       lit "NEW_HEAD_TEXT_J7DFT4_GENERATED")
    ].

Definition unit_groups : list unit_group :=
    [
      {| prompt_fn := "generate_announcements_prompt";
         gen := Validated (lit "<h1>Text</h1>");
         group_max_tokens := 500;
         group_name := lit "announcements";
         context := lit "announcements";
         retry_context := lit "announcements_retry";
         expected_keys := [lit "announcement_91817b81";
           lit "announcement_gAyVVz";
           lit "announcement_XGt7RJ";
           lit "announcement_dd77f8e0";
           lit "announcement_template_1";
           lit "announcement_template_2"];
         fields := [(lit "NEW_ANNOUNCEMENT_91817B81_C148_4C6C_8A35_09D6BA380CA5_GENERATED",
            lit "announcement_91817b81");
           (lit "NEW_ANNOUNCEMENT_ANNOUNCEMENT_GAYVVZ_GENERATED",
            lit "announcement_gAyVVz");
           (lit "NEW_ANNOUNCEMENT_ANNOUNCEMENT_XGT7RJ_GENERATED",
            lit "announcement_XGt7RJ");
           (lit "NEW_ANNOUNCEMENT_DD77F8E0_9A10_41D6_A2A8_69B2326223A3_GENERATED",
            lit "announcement_dd77f8e0");
           (lit "NEW_ANNOUNCEMENT_TEMPLATE__15124688076883__05F459A6_0335_4BAB_8D23_AC347077EFCC_ANNOUNCEMENT_1_GENERATED",
            lit "announcement_template_1");
           (lit "NEW_ANNOUNCEMENT_TEMPLATE__15124688076883__05F459A6_0335_4BAB_8D23_AC347077EFCC_ANNOUNCEMENT_2_GENERATED",
            lit "announcement_template_2")] |};
      {| prompt_fn := "generate_button_texts_prompt";
         gen := Plain;
         group_max_tokens := 300;
         group_name := lit "button texts";
         context := lit "button_texts";
         retry_context := lit "button_texts_retry";
         expected_keys := [lit "image_4GCwJt";
           lit "image_6kyG4n";
           lit "image_8WUeHF";
           lit "image_g6WCgH";
           lit "image_mczRTQ";
           lit "image_mWKfnL";
           lit "image_XDdFEp";
           lit "image_YQMGF7";
           lit "image_template_1";
           lit "text_j7Dft4"];
         fields := [(lit "NEW_BUTTON-TEXT_IMAGE_4GCWJT_GENERATED",
            lit "image_4GCwJt");
           (lit "NEW_BUTTON-TEXT_IMAGE_6KYG4N_GENERATED",
            lit "image_6kyG4n");
           (lit "NEW_BUTTON-TEXT_IMAGE_8WUEHF_GENERATED",
            lit "image_8WUeHF");
           (lit "NEW_BUTTON-TEXT_IMAGE_G6WCGH_GENERATED",
            lit "image_g6WCgH");
           (lit "NEW_BUTTON-TEXT_IMAGE_MCZRTQ_GENERATED",
            lit "image_mczRTQ");
           (lit "NEW_BUTTON-TEXT_IMAGE_MWKFNL_GENERATED",
            lit "image_mWKfnL");
           (lit "NEW_BUTTON-TEXT_IMAGE_XDDFEP_GENERATED",
            lit "image_XDdFEp");
           (lit "NEW_BUTTON-TEXT_IMAGE_YQMGF7_GENERATED",
            lit "image_YQMGF7");
           (lit "NEW_BUTTON-TEXT_TEMPLATE__17146523746516__530954A1_091E_46FD_B6F9_AAAACA76CEB6_IMAGE_1_GENERATED",
            lit "image_template_1");
           (lit "NEW_BUTTON-TEXT_TEXT_J7DFT4_GENERATED",
            lit "text_j7Dft4")] |};
      {| prompt_fn := "generate_content_prompt";
         gen := Validated (lit "<p>Text</p>");
         group_max_tokens := 1000;
         group_name := lit "content sections";
         context := lit "content_sections";
         retry_context := lit "content_sections_retry";
         expected_keys := [lit "content_9ccffc8d";
           lit "content_f34ad5c4";
           lit "content_promo_krqbTU";
           lit "content_promo_QC7Vbj";
           lit "content_collapsible_tab_HK7dGX";
           lit "row_content_BMHKaN";
           lit "row_content_GiDN9z";
           lit "row_content_t3yhUa";
           lit "row_content_template_1";
           lit "row_content_template_2";
           lit "row_content_template_3";
           lit "row_content_template_4";
           lit "tab_content_DgkJ3j";
           lit "tab_content_2_DgkJ3j";
           lit "tab_content_3_DgkJ3j"];
         fields := [(lit "NEW_CONTENT_9CCFFC8D_E4C7_404F_8007_8C5162F22285_GENERATED",
            lit "content_9ccffc8d");
           (lit "NEW_CONTENT_F34AD5C4_50A9_4A95_A561_D8C51D1B76DD_GENERATED",
            lit "content_f34ad5c4");
           (lit "NEW_CONTENT_PROMO_KRQBTU_GENERATED",
            lit "content_promo_krqbTU");
           (lit "NEW_CONTENT_PROMO_QC7VBJ_GENERATED",
            lit "content_promo_QC7Vbj");
           (lit "NEW_CONTENT_COLLAPSIBLE_TAB_HK7DGX_GENERATED",
            lit "content_collapsible_tab_HK7dGX");
           (lit "NEW_ROW_CONTENT_COLLAPSIBLE_ROW_BMHKAN_GENERATED",
            lit "row_content_BMHKaN");
           (lit "NEW_ROW_CONTENT_COLLAPSIBLE_ROW_GIDN9Z_GENERATED",
            lit "row_content_GiDN9z");
           (lit "NEW_ROW_CONTENT_COLLAPSIBLE_ROW_T3YHUA_GENERATED",
            lit "row_content_t3yhUa");
           (lit "NEW_ROW_CONTENT_TEMPLATE__15124688076883__C0EF23CF_5481_4B47_9B78_3C28134C079A_COLLAPSIBLE_ROW_1_GENERATED",
            lit "row_content_template_1");
           (lit "NEW_ROW_CONTENT_TEMPLATE__15124688076883__C0EF23CF_5481_4B47_9B78_3C28134C079A_COLLAPSIBLE_ROW_2_GENERATED",
            lit "row_content_template_2");
           (lit "NEW_ROW_CONTENT_TEMPLATE__15124688076883__C0EF23CF_5481_4B47_9B78_3C28134C079A_COLLAPSIBLE_ROW_3_GENERATED",
            lit "row_content_template_3");
           (lit "NEW_ROW_CONTENT_TEMPLATE__15124688076883__C0EF23CF_5481_4B47_9B78_3C28134C079A_COLLAPSIBLE_ROW_4_GENERATED",
            lit "row_content_template_4");
           (lit "NEW_TAB_CONTENT_TABS_DGKJ3J_GENERATED",
            lit "tab_content_DgkJ3j");
           (lit "NEW_TAB_CONTENT_2_TABS_DGKJ3J_GENERATED",
            lit "tab_content_2_DgkJ3j");
           (lit "NEW_TAB_CONTENT_3_TABS_DGKJ3J_GENERATED",
            lit "tab_content_3_DgkJ3j")] |};
      {| prompt_fn := "generate_review_content_prompt";
         gen := Validated (lit "<p>Text</p>");
         group_max_tokens := 600;
         group_name := lit "review content";
         context := lit "review_content";
         retry_context := lit "review_content_retry";
         expected_keys := [lit "review_text_13a5819e";
           lit "review_text_30900101";
           lit "review_text_3c322c1a";
           lit "review_text_53a5b896";
           lit "review_text_d032a47c";
           lit "review_text_e3288062";
           lit "review_text_f57735f1";
           lit "review_text_ArWHqK";
           lit "review_text_fwxHPq";
           lit "review_text_kAgTR4";
           lit "rating_count_3475a8f9";
           lit "lrw_text_7f391028"];
         fields := [(lit "NEW_REVIEW_TEXT_13A5819E_5698_472F_94EB_34D5A7AD9B21_GENERATED",
            lit "review_text_13a5819e");
           (lit "NEW_REVIEW_TEXT_30900101_E5C8_4C0E_B5BD_0FCF8EEA85CF_GENERATED",
            lit "review_text_30900101");
           (lit "NEW_REVIEW_TEXT_3C322C1A_1E3A_47E6_8D7B_720D506EB595_GENERATED",
            lit "review_text_3c322c1a");
           (lit "NEW_REVIEW_TEXT_53A5B896_0517_4E05_80FE_B23DE703E79B_GENERATED",
            lit "review_text_53a5b896");
           (lit "NEW_REVIEW_TEXT_D032A47C_6F6E_4A8E_94B9_D1260A5D6B0D_GENERATED",
            lit "review_text_d032a47c");
           (lit "NEW_REVIEW_TEXT_E3288062_4139_4942_8A82_452BFEBBD63F_GENERATED",
            lit "review_text_e3288062");
           (lit "NEW_REVIEW_TEXT_F57735F1_30A6_4538_8C95_BFE08674506B_GENERATED",
            lit "review_text_f57735f1");
           (lit "NEW_REVIEW_TEXT_REVIEW_ARWHQK_GENERATED",
            lit "review_text_ArWHqK");
           (lit "NEW_REVIEW_TEXT_REVIEW_FWXHPQ_GENERATED",
            lit "review_text_fwxHPq");
           (lit "NEW_REVIEW_TEXT_REVIEW_KAGTR4_GENERATED",
            lit "review_text_kAgTR4");
           (lit "NEW_RATING_COUNT_3475A8F9_021F_4ACD_8E57_163EF2A26740_GENERATED",
            lit "rating_count_3475a8f9");
           (lit "NEW_LRW_TEXT_7F391028_A103_4E66_BB50_BD71D4672AF4_GENERATED",
            lit "lrw_text_7f391028")] |};
      {| prompt_fn := "generate_quantity_selector_prompt";
         gen := Validated (lit "<h3>Text</h3>");
         group_max_tokens := 400;
         group_name := lit "quantity selector";
         context := lit "quantity_selector";
         retry_context := lit "quantity_selector_retry";
         expected_keys := [lit "option_1_save_text";
           lit "option_1_unit_label";
           lit "option_2_save_text";
           lit "option_2_unit_label";
           lit "option_3_promo";
           lit "option_3_save_text";
           lit "option_3_unit_label";
           lit "option_4_save_text";
           lit "option_4_unit_label";
           lit "option_5_save_text";
           lit "option_5_unit_label";
           lit "option_6_save_text";
           lit "option_6_unit_label";
           lit "quantity_title_text"];
         fields := [(lit "NEW_OPTION_1_SAVE_TEXT_QUANTITY_SELECTOR_Q9D74M_GENERATED",
            lit "option_1_save_text");
           (lit "NEW_OPTION_1_UNIT_LABEL_QUANTITY_SELECTOR_Q9D74M_GENERATED",
            lit "option_1_unit_label");
           (lit "NEW_OPTION_2_SAVE_TEXT_QUANTITY_SELECTOR_Q9D74M_GENERATED",
            lit "option_2_save_text");
           (lit "NEW_OPTION_2_UNIT_LABEL_QUANTITY_SELECTOR_Q9D74M_GENERATED",
            lit "option_2_unit_label");
           (lit "NEW_OPTION_3_PROMO_QUANTITY_SELECTOR_Q9D74M_GENERATED",
            lit "option_3_promo");
           (lit "NEW_OPTION_3_SAVE_TEXT_QUANTITY_SELECTOR_Q9D74M_GENERATED",
            lit "option_3_save_text");
           (lit "NEW_OPTION_3_UNIT_LABEL_QUANTITY_SELECTOR_Q9D74M_GENERATED",
            lit "option_3_unit_label");
           (lit "NEW_OPTION_4_SAVE_TEXT_QUANTITY_SELECTOR_Q9D74M_GENERATED",
            lit "option_4_save_text");
           (lit "NEW_OPTION_4_UNIT_LABEL_QUANTITY_SELECTOR_Q9D74M_GENERATED",
            lit "option_4_unit_label");
           (lit "NEW_OPTION_5_SAVE_TEXT_QUANTITY_SELECTOR_Q9D74M_GENERATED",
            lit "option_5_save_text");
           (lit "NEW_OPTION_5_UNIT_LABEL_QUANTITY_SELECTOR_Q9D74M_GENERATED",
            lit "option_5_unit_label");
           (lit "NEW_OPTION_6_SAVE_TEXT_QUANTITY_SELECTOR_Q9D74M_GENERATED",
            lit "option_6_save_text");
           (lit "NEW_OPTION_6_UNIT_LABEL_QUANTITY_SELECTOR_Q9D74M_GENERATED",
            lit "option_6_unit_label");
           (lit "NEW_QUANTITY_TITLE_TEXT_QUANTITY_SELECTOR_Q9D74M_GENERATED",
            lit "quantity_title_text")] |};
      {| prompt_fn := "generate_text_sections_prompt";
         gen := Validated (lit "<p>Text</p>");
         group_max_tokens := 1500;
         group_name := lit "text sections";
         context := lit "text_sections";
         retry_context := lit "text_sections_retry";
         expected_keys := [lit "head_text_lumin_hero_8jr4ii";
           lit "subtitle_text_j7Dft4";
           lit "text_1_hero_Wjwazn";
           lit "text_2_hero_Wjwazn";
           lit "text_3_hero_Wjwazn";
           lit "text_4_hero_Wjwazn";
           lit "text_5_hero_Wjwazn";
           lit "text_6_hero_Wjwazn";
           lit "text_264e37ac";
           lit "text_504c9e09";
           lit "text_74e17b96";
           lit "text_promo_slide_YiPa48_1";
           lit "text_promo_slide_YiPa48_2";
           lit "text_promo_slide_YiPa48_3";
           lit "text_column_7zMkCE";
           lit "text_column_9PFUYj";
           lit "text_column_htTYfJ";
           lit "text_column_xLTnh7";
           lit "text_column_afLRa6";
           lit "text_column_FpEWjD";
           lit "text_column_kcUK3B";
           lit "text_column_nMFyQP";
           lit "text_comparison_table_9j8NnQ";
           lit "text_feature_6cxT6B";
           lit "text_feature_aYFzam";
           lit "text_feature_HCBWrx";
           lit "text_feature_Kgr9Aj";
           lit "text_feature_teRTgW";
           lit "text_text_T999BU";
           lit "text_text_VYmMN6";
           lit "text_text_wFDAYF";
           lit "text_popup_DVDmRD";
           lit "text_low_many_xPXzfP";
           lit "text_low_one_xPXzfP";
           lit "text_normal_xPXzfP";
           lit "text_soldout_xPXzfP";
           lit "text_untracked_xPXzfP"];
         fields := [(lit "NEW_HEAD_TEXT_LUMIN_HERO_8JR4II_GENERATED",
            lit "head_text_lumin_hero_8jr4ii");
           (lit "NEW_SUBTITLE_TEXT_J7DFT4_GENERATED",
            lit "subtitle_text_j7Dft4");
           (lit "NEW_TEXT_1_HERO_WJWAZN_GENERATED",
            lit "text_1_hero_Wjwazn");
           (lit "NEW_TEXT_2_HERO_WJWAZN_GENERATED",
            lit "text_2_hero_Wjwazn");
           (lit "NEW_TEXT_3_HERO_WJWAZN_GENERATED",
            lit "text_3_hero_Wjwazn");
           (lit "NEW_TEXT_4_HERO_WJWAZN_GENERATED",
            lit "text_4_hero_Wjwazn");
           (lit "NEW_TEXT_5_HERO_WJWAZN_GENERATED",
            lit "text_5_hero_Wjwazn");
           (lit "NEW_TEXT_6_HERO_WJWAZN_GENERATED",
            lit "text_6_hero_Wjwazn");
           (lit "NEW_TEXT_264E37AC_8AC8_475C_9F10_973D46BB217D_GENERATED",
            lit "text_264e37ac");
           (lit "NEW_TEXT_504C9E09_AAA7_49C4_8271_C6CA319D23F2_GENERATED",
            lit "text_504c9e09");
           (lit "NEW_TEXT_74E17B96_75E8_4EC7_AE08_2DF77F4249CB_GENERATED",
            lit "text_74e17b96");
           (lit "NEW_TEXT_1_PROMO_SLIDE_YIPA48_GENERATED",
            lit "text_promo_slide_YiPa48_1");
           (lit "NEW_TEXT_2_PROMO_SLIDE_YIPA48_GENERATED",
            lit "text_promo_slide_YiPa48_2");
           (lit "NEW_TEXT_3_PROMO_SLIDE_YIPA48_GENERATED",
            lit "text_promo_slide_YiPa48_3");
           (lit "NEW_TEXT_COLUMN_7ZMKCE_GENERATED",
            lit "text_column_7zMkCE");
           (lit "NEW_TEXT_COLUMN_9PFUYJ_GENERATED",
            lit "text_column_9PFUYj");
           (lit "NEW_TEXT_COLUMN_HTTYFJ_GENERATED",
            lit "text_column_htTYfJ");
           (lit "NEW_TEXT_COLUMN_XLTNH7_GENERATED",
            lit "text_column_xLTnh7");
           (lit "NEW_TEXT_COLUMN_AFLRA6_GENERATED",
            lit "text_column_afLRa6");
           (lit "NEW_TEXT_COLUMN_FPEWJD_GENERATED",
            lit "text_column_FpEWjD");
           (lit "NEW_TEXT_COLUMN_KCUK3B_GENERATED",
            lit "text_column_kcUK3B");
           (lit "NEW_TEXT_COLUMN_NMFYQP_GENERATED",
            lit "text_column_nMFyQP");
           (lit "NEW_TEXT_COMPARISON_TABLE_9J8NNQ_GENERATED",
            lit "text_comparison_table_9j8NnQ");
           (lit "NEW_TEXT_FEATURE_6CXT6B_GENERATED",
            lit "text_feature_6cxT6B");
           (lit "NEW_TEXT_FEATURE_AYFZAM_GENERATED",
            lit "text_feature_aYFzam");
           (lit "NEW_TEXT_FEATURE_HCBWRX_GENERATED",
            lit "text_feature_HCBWrx");
           (lit "NEW_TEXT_FEATURE_KGR9AJ_GENERATED",
            lit "text_feature_Kgr9Aj");
           (lit "NEW_TEXT_FEATURE_TERTGW_GENERATED",
            lit "text_feature_teRTgW");
           (lit "NEW_TEXT_TEXT_T999BU_GENERATED",
            lit "text_text_T999BU");
           (lit "NEW_TEXT_TEXT_VYMMN6_GENERATED",
            lit "text_text_VYmMN6");
           (lit "NEW_TEXT_TEXT_WFDAYF_GENERATED",
            lit "text_text_wFDAYF");
           (lit "NEW_TEXT_POPUP_DVDMRD_GENERATED",
            lit "text_popup_DVDmRD");
           (lit "NEW_TEXT_LOW_MANY_INVENTORY_XPXZFP_GENERATED",
            lit "text_low_many_xPXzfP");
           (lit "NEW_TEXT_LOW_ONE_INVENTORY_XPXZFP_GENERATED",
            lit "text_low_one_xPXzfP");
           (lit "NEW_TEXT_NORMAL_INVENTORY_XPXZFP_GENERATED",
            lit "text_normal_xPXzfP");
           (lit "NEW_TEXT_SOLDOUT_INVENTORY_XPXZFP_GENERATED",
            lit "text_soldout_xPXzfP");
           (lit "NEW_TEXT_UNTRACKED_INVENTORY_XPXZFP_GENERATED",
            lit "text_untracked_xPXzfP")] |}
    ].

Section Main.
Variable PRODUCT_JSON_PATH : string.
Variables brand_name product_title product_description language : str.

Definition process_product_translations : M unit :=
      for_each translations (translation_step PRODUCT_JSON_PATH language).

Definition process_product_generated_content : M unit :=
      run_groups PRODUCT_JSON_PATH brand_name product_title
        product_description language unit_groups.

Definition change_product_content : M unit :=
      process_product_translations ;;; process_product_generated_content.
End Main.
End Script.

End Product.

(** * The vocabulary of the statements

    Worlds and services to run the scripts on, and the notions in which the
    properties below are stated. *)

(** What three attempts at the request [rq] from the world [w] come to.
    [a i] is the answer of the service to the attempt of index [i], that is
    after [i] failed attempts have been logged.  The call stops after [n]
    attempts, between one and three; all attempts before the last one
    failed; the last one either answered, and the stripped answer is
    returned, or it was the third and its exception is raised. *)
Definition three_attempts (complete : service) (rq : request) (w : world)
    (out : result str * world) : Prop :=
  let a i := complete (api_log w ++ repeat rq i) rq in
  exists n : nat,
    1 <= n <= 3
    /\ api_log (snd out) = api_log w ++ repeat rq n
    /\ files (snd out) = files w
    /\ (forall i, i < n - 1 -> exists e, a i = Failure e)
    /\ match a (n - 1) with
       | Reply t => fst out = Ok (strip t)
       | Failure e => n = 3 /\ fst out = Raise e
       end
    /\ ((exists e, fst out = Raise e)
        <-> (forall i, i < 3 -> exists e, a i = Failure e)).

(** What a single completion call guarded by a [try] comes to: the request
    [rq] is sent once, nothing else changes, and the result is [good t] when
    the service answers [t] and [fallback] when it fails; no exception
    leaves the function. *)
Definition single_guarded_call (complete : service) (rq : request)
    (good : str -> str) (fallback : str) (w : world)
    (out : result str * world) : Prop :=
  api_log (snd out) = api_log w ++ [rq]
  /\ client_calls (snd out) = client_calls w
  /\ files (snd out) = files w
  /\ (exists s, fst out = Ok s)
  /\ fst out = match complete (api_log w) rq with
               | Reply t => Ok (good t)
               | Failure _ => Ok fallback
               end.

(** A service that fails on every request. *)
Definition service_down : service :=
  fun _ _ => Failure (APIError (lit "Connection error.")).

(** A service that answers every request with the same text. *)
Definition service_saying (t : str) : service := fun _ _ => Reply t.

(** A fresh world whose only file, at [path], holds [data]. *)
Definition one_file (path : string) (data : str) : world :=
  {| api_log := [];
     client_calls := 0;
     files := {[ path := {| contents := data; readable := true;
                            writable := true |} ]} |}.

(** The text of the file at [path], if there is one. *)
Definition file_text (w : world) (path : string) : option str :=
  contents <$> (files w !! path).

(** The world after the text of the file [f] at [path] has been set. *)
Definition store_text (w : world) (path : string) (f : file) (data : str)
    : world :=
  {| api_log := api_log w;
     client_calls := client_calls w;
     files := <[path := {| contents := data; readable := readable f;
                           writable := writable f |}]> (files w) |}.

(** The text of the file at [path] as a read in text mode returns it. *)
Definition text_read (w : world) (path : string) : option str :=
  universal_newlines <$> file_text w path.

(** Whether the file at [path] is there and may be read and written. *)
Definition can_open (w : world) (path : string) : bool :=
  match files w !! path with
  | Some f => readable f && writable f
  | None => false
  end.

(** The file [f] at [path] is the target document of a run: it is there and
    the run may read and write it. *)
Definition target_document (w : world) (path : string) (f : file) : Prop :=
  files w !! path = Some f /\ readable f = true /\ writable f = true.

(** A target document that holds text. *)
Definition text_document (w : world) (path : string) (f : file) : Prop :=
  target_document w path f /\ utf8_text (contents f) = true.

(** A service whose answers are text that UTF-8 encodes. *)
Definition utf8_service (complete : service) : Prop :=
  forall log rq t, complete log rq = Reply t -> utf8_text t = true.

(** In the words of the specification: [s'] is [s] with every occurrence of
    [old] replaced by [new], the occurrences being taken from the left.
    Either [old] does not occur in [s], which is then unchanged; or [s] is
    [a ++ old ++ b] with no occurrence starting before the end of [a], and
    that occurrence gives way to [new] while [b] is treated likewise. *)
Inductive Replaced (old new : str) : str -> str -> Prop :=
| Replaced_none (s : str) :
    contains old s = false -> Replaced old new s s
| Replaced_first (a b b' : str) :
    contains old (a ++ removelast old) = false ->
    Replaced old new b b' ->
    Replaced old new (a ++ old ++ b) (a ++ new ++ b').

(** Whether the replacement of [token] by [content] can bring the token
    back.  Two texts, the second laid over the first from some position on,
    agree when they are equal as far as both reach; [meets] tells whether two
    texts that start together agree.  The token comes back only where it lies
    over a copy of the content.  Either it starts inside the copy: an end of
    the content agrees with the token.  Or it starts before the copy: a
    proper end of the token agrees with the content; where that end is also
    a start of the token, the scan of [replace] had found the token there. *)
Definition meets (a b : str) : bool := startswith a b || startswith b a.

Fixpoint content_end_meets (token c : str) : bool :=
  match c with
  | [] => false
  | _ :: r => meets c token || content_end_meets token r
  end.

Fixpoint token_end_meets (token content t : str) : bool :=
  match t with
  | [] => false
  | _ :: r =>
      meets t content && negb (startswith t token)
      || token_end_meets token content r
  end.

Definition rejoins (token content : str) : bool :=
  content_end_meets token content
  || token_end_meets token content (tail token).

(** A world whose only file may be read but not written. *)
Definition read_only_file (path : string) (data : str) : world :=
  {| api_log := [];
     client_calls := 0;
     files := {[ path := {| contents := data; readable := true;
                            writable := false |} ]} |}.

(** A fresh world without any file. *)
Definition no_files : world :=
  {| api_log := []; client_calls := 0; files := ∅ |}.

(** The number of markup tags that the pattern finds in a text. *)
Definition tag_count (s : str) : nat := length (Re.findall Re.html_tag s).

(** The world after one more request has been sent. *)
Definition sent (w : world) (rq : request) : world :=
  {| api_log := api_log w ++ [rq];
     client_calls := client_calls w;
     files := files w |}.

(** The text that the recovery step hands back for an answer of the
    service, when its messages are printed. *)
Definition recovered (result : str) (r : reply) : str :=
  match r with
  | Reply t => Product.clean_json_response (strip t)
  | Failure _ => result
  end.

(** What one call of the recovery step of the product script comes to, as a
    text and a world.  When the first message cannot be printed nothing is
    sent; otherwise the request is sent, and the sanitised answer is handed
    back if there is one and the second message, which shows it, can be
    printed.  In every other case the broken text comes back. *)
Definition repair (complete : service) (console : str -> option exn)
    (broken_json context : str) (keys : option (list str)) (w : world)
    : str * world :=
  let rq := Product.fix_request broken_json context keys in
  match console (Product.attempt_message broken_json context) with
  | Some _ => (broken_json, w)
  | None =>
      match complete (api_log w) rq with
      | Reply t =>
          let fixed_json := Product.clean_json_response (strip t) in
          match console (Product.fixed_message fixed_json context) with
          | None => (fixed_json, sent w rq)
          | Some _ => (broken_json, sent w rq)
          end
      | Failure _ => (broken_json, sent w rq)
      end
  end.

(** What parsing with recovery comes to, spelled out: the sanitised result
    is parsed; if that fails the start of the result is printed, and the
    exception of that print, if any, is the outcome; otherwise the recovery
    step is called under the label of the group and its text parsed; if
    that fails it is called again under the retry label; if that fails too
    the exception of the group is raised. *)
Definition recovery_outcome (complete : service)
    (json_loads : str -> result value) (console : str -> option exn)
    (g : Product.unit_group) (result : str) (w : world)
    : Py.result value * world :=
  let keys := Some (Product.expected_keys g) in
  match json_loads (Product.clean_json_response result) with
  | Ok v => (Ok v, w)
  | Raise _ =>
      match console (Product.parse_failure_message g result) with
      | Some e => (Raise e, w)
      | None =>
          let first := repair complete console result (Product.context g)
                         keys w in
          match json_loads (fst first) with
          | Ok v => (Ok v, snd first)
          | Raise _ =>
              let second := repair complete console result
                              (Product.retry_context g) keys (snd first) in
              match json_loads (fst second) with
              | Ok v => (Ok v, snd second)
              | Raise _ =>
                  (Raise (Exception (Product.failure_message g)), snd second)
              end
          end
      end
  end.

(** Whether the console prints a text. *)
Definition printed (console : str -> option exn) (text : str) : bool :=
  match console text with
  | None => true
  | Some _ => false
  end.

(** Whether the console prints the messages of a call of the recovery step
    of the product script: the first one, and the second one when the
    service has answered. *)
Definition repair_printed (console : str -> option exn)
    (broken_json context : str) (r : reply) : bool :=
  printed console (Product.attempt_message broken_json context)
  && match r with
     | Reply t =>
         printed console
           (Product.fixed_message (Product.clean_json_response (strip t))
              context)
     | Failure _ => true
     end.

(** A service whose answers hold a lone surrogate, between two tags. *)
Definition surrogate_answer : str := lit "<h1>" ++ [55357%N] ++ lit "</h1>".

Definition surrogate_service : service := fun _ _ => Reply surrogate_answer.

(** A console with the encoding UTF-8: it raises on a text with a
    surrogate. *)
Definition utf8_console : str -> option exn := fun t =>
  if utf8_text t then None else Some UnicodeEncodeError.

(** A console that prints everything. *)
Definition any_console : str -> option exn := fun _ => None.

(** The groups of the product page by position; [no_group] stands for a
    position past the end of the table. *)
Definition no_group : Product.unit_group :=
  {| Product.prompt_fn := ""; Product.gen := Plain;
     Product.group_max_tokens := 0; Product.group_name := [];
     Product.context := []; Product.retry_context := [];
     Product.expected_keys := []; Product.fields := [] |}.

Definition group_at (i : nat) : Product.unit_group :=
  nth i Product.unit_groups no_group.

(** A run of the product page in which the first group succeeds and the
    second one, the button texts, never parses: every prompt is the name of
    its function, *)
Definition toy_render : string -> str -> str -> str -> str -> str :=
  fun f _ _ _ _ => lit f.

(** the service answers the announcements prompt with a text that the
    parser accepts, and anything else with a text that it rejects, *)
Definition toy_service : service := fun _ rq =>
  if startswith (lit "generate_announcements_prompt") (prompt rq)
  then Reply (lit "<h1>Hi</h1>")
  else Reply (lit "garbage").

(** the parser accepts that one text, as an object with the six keys of the
    announcements, *)
Definition toy_loads : str -> result value := fun s =>
  if str_eqb s (lit "<h1>Hi</h1>")
  then Ok (VDict (List.map (fun k => (k, VStr (lit "Hi")))
                    (Product.expected_keys (group_at 0))))
  else Raise JSONDecodeError.

(** and the file holds a placeholder of each of the two groups. *)
Definition toy_page : world :=
  one_file "product.json"
    (lit "NEW_ANNOUNCEMENT_ANNOUNCEMENT_GAYVVZ_GENERATED NEW_BUTTON-TEXT_TEXT_J7DFT4_GENERATED").

(** The fence of a code block. *)
Definition fence : str := lit "```".

(** The number of apostrophes in a text. *)
Definition quotes (s : str) : nat := count_occ N.eq_dec s squote.

(** Whether a backslash stands before the position. *)
Definition guarded (prev : option char) : bool :=
  match prev with
  | Some p => eqb p backslash
  | None => false
  end.

(** The text [s], read after the character [prev], has no apostrophe that
    the pattern of the product script would escape. *)
Fixpoint settled (prev : option char) (s : str) : bool :=
  match s with
  | [] => true
  | c :: r =>
      match Re.unescaped_quote prev s with
      | None => settled (Some c) r
      | Some _ => false
      end
  end.

(** The escaping pass, from a position inside the text. *)
Definition escape (prev : option char) (s : str) : str :=
  Re.sub_from (length s) Re.unescaped_quote [backslash; squote] prev s.

(** A fenced answer with apostrophes. *)
Definition fenced_answer : str :=
  lit "```json" ++ nl ++ lit "{'title': 'l\'offre'}" ++ nl ++ lit "```".

(** What a call of the client with [max] attempts allowed comes to, for any
    [max]: as [three_attempts], with [max] in the place of three, and a text
    that is returned has no white space at either end. *)
Definition bounded_attempts (complete : service) (rq : request) (max : nat)
    (w : world) (out : result str * world) : Prop :=
  let a i := complete (api_log w ++ repeat rq i) rq in
  exists n : nat,
    1 <= n <= max
    /\ api_log (snd out) = api_log w ++ repeat rq n
    /\ files (snd out) = files w
    /\ (forall i, i < n - 1 -> exists e, a i = Failure e)
    /\ match a (n - 1) with
       | Reply t => fst out = Ok (strip t)
       | Failure e => n = max /\ fst out = Raise e
       end
    /\ (forall t, fst out = Ok t -> strip t = t).

(** What a run of the format-preserving generator sends: the requests [new]
    are appended to the log, [lo] to [hi] of them, each with the model of the
    scripts and a prompt that starts with the prompt [prompt0] of the
    caller; the files are left alone. *)
Definition sends_within (prompt0 : str) (lo hi : nat) (w : world)
    (out : result str * world) : Prop :=
  exists new : list request,
    api_log (snd out) = api_log w ++ new
    /\ lo <= length new <= hi
    /\ Forall (fun rq => startswith prompt0 (prompt rq) = true
                         /\ model rq = gpt_4o_mini) new
    /\ files (snd out) = files w.

(** The world [w'] differs from [w] at most in the text of the file at
    [path]: the log and the count are the same, so is every other file, and
    the file at [path] is there in both or in neither, with the same
    permissions. *)
Definition same_but_text (path : string) (w w' : world) : Prop :=
  api_log w' = api_log w
  /\ client_calls w' = client_calls w
  /\ (forall p, p <> path -> files w' !! p = files w !! p)
  /\ match files w !! path, files w' !! path with
     | Some f, Some f' =>
         readable f' = readable f /\ writable f' = writable f
     | None, None => True
     | _, _ => False
     end.

(** Whether a value is a string. *)
Definition is_str (v : value) : bool :=
  match v with
  | VStr _ => true
  | _ => false
  end.

(** The string that a parsed object holds under a key, if it holds one. *)
Definition field_text (d : list (str * value)) (key : str) : option str :=
  match dict_get d key with
  | Some (VStr s) => Some s
  | _ => None
  end.

(** Plain text: text that UTF-8 encodes, without carriage return. *)
Definition plain_text (s : str) : bool :=
  utf8_text s && negb (has_char cr s).

(** Every field of the list has, under its key, a string of plain text. *)
Definition plain_fields (d : list (str * value)) (fields : list (str * str))
    : bool :=
  forallb (fun field =>
             match field_text d (snd field) with
             | Some s => plain_text s
             | None => false
             end) fields.

(** A text in which the placeholder of each field has been replaced by the
    string of its key, one field after the other. *)
Fixpoint substituted (d : list (str * value)) (fields : list (str * str))
    (data : str) : str :=
  match fields with
  | [] => data
  | field :: rest =>
      match field_text d (snd field) with
      | Some s => substituted d rest (replace (fst field) s data)
      | None => substituted d rest data
      end
  end.

(** The text that the recovery step of the home and footer scripts hands
    back for an answer of the service. *)
Definition home_recovered (result : str) (r : reply) : str :=
  match r with
  | Reply t => Home.clean_json_response (strip t)
  | Failure _ => result
  end.

(** What a phase that only translates and substitutes does to the world:
    [n] requests have been sent, none through [prompt_gpt], and every file
    but the one at [path] is as it was. *)
Definition phase_frame (path : string) (n : nat) (w w' : world) : Prop :=
  length (api_log w') = length (api_log w) + n
  /\ client_calls w' = client_calls w
  /\ (forall p, p <> path -> files w' !! p = files w !! p).

(** The substitution of one field of a parsed object in the product
    script. *)
Definition product_field_step (path : string) (obj : value)
    (field : str * str) : M unit :=
  (v <- lift (getitem obj (snd field)) ;;
   Product.replace_in_file path (fst field) v)%py.

(** A markup tag as the pattern of the validation finds it: a [<], one or
    more characters other than [>], and a [>]. *)
Definition is_tag (t : str) : Prop :=
  exists body : str,
    t = lt_sign :: body ++ [gt_sign]
    /\ body <> []
    /\ has_char gt_sign body = false.

(** The placeholders that a unit of generated copy fills. *)
Definition unit_placeholders (u : Home.content_unit) : list str :=
  match u with
  | Home.TextUnit _ _ placeholder => [placeholder]
  | Home.JsonUnit _ _ fields => List.map fst fields
  end.

(** The placeholders of each page, in the order of their substitution. *)
Definition home_placeholders : list str :=
  concat (List.map snd Home.translations)
  ++ flat_map unit_placeholders Home.content_units.

Definition footer_placeholders : list str :=
  concat (List.map snd Footer.translations)
  ++ flat_map unit_placeholders Footer.content_units.

Definition product_placeholders : list str :=
  List.map snd Product.translations
  ++ flat_map (fun g => List.map fst (Product.fields g)) Product.unit_groups.

(** No text of the list occurs in another one at a different position. *)
Fixpoint apart (ps : list str) : bool :=
  match ps with
  | [] => true
  | a :: r =>
      forallb (fun b => negb (contains a b) && negb (contains b a)) r
      && apart r
  end.

(** The service fails on every request, whatever was sent before. *)
Definition always_fails (complete : service) : Prop :=
  forall log rq, exists e, complete log rq = Failure e.

(** * Properties *)

(** ** The completion client *)

Lemma prompt_gpt_attempts_three (complete : service) (rq : request)
    (w : world) :
  three_attempts complete rq w (prompt_gpt_attempts complete rq 2 w).
Proof.
  unfold three_attempts.
  cbn [prompt_gpt_attempts].
  unfold try_except, bind, chat_completions_create, ret, raise.
  assert (A0 : api_log w ++ repeat rq 0 = api_log w) by apply app_nil_r.
  assert (A1 : api_log w ++ repeat rq 1 = api_log w ++ [rq]) by reflexivity.
  assert (A2 : api_log w ++ repeat rq 2 = (api_log w ++ [rq]) ++ [rq])
    by (rewrite <- app_assoc; reflexivity).
  assert (A3 : api_log w ++ repeat rq 3
               = ((api_log w ++ [rq]) ++ [rq]) ++ [rq])
    by (rewrite <- !app_assoc; reflexivity).
  destruct (complete (api_log w) rq) as [t0|e0] eqn:E0; cbn.
  - exists 1. change (1 - 1) with 0. rewrite A0, A1, E0.
    repeat split; try lia.
    + intros [e He]. discriminate.
    + intros H. destruct (H 0) as [e He]; [lia|]. congruence.
  - destruct (complete (api_log w ++ [rq]) rq) as [t1|e1] eqn:E1; cbn.
    + exists 2. change (2 - 1) with 1. rewrite A1, A2, E1.
      repeat split; try lia.
      * intros i Hi. assert (i = 0) by lia. subst i. rewrite A0. eauto.
      * intros [e He]. discriminate.
      * intros H. destruct (H 1) as [e He]; [lia|]. congruence.
    + assert (early : forall i, i < 2 ->
                exists e, complete (api_log w ++ repeat rq i) rq = Failure e).
      { intros i Hi. assert (i = 0 \/ i = 1) as [-> | ->] by lia.
        - rewrite A0. eauto.
        - rewrite A1. eauto. }
      destruct (complete ((api_log w ++ [rq]) ++ [rq]) rq) as [t2|e2] eqn:E2;
        cbn; exists 3; change (3 - 1) with 2; rewrite A2, A3, E2;
        repeat split; try lia; try exact early.
      * intros [e He]. discriminate.
      * intros H. destruct (H 2) as [e He]; [lia|]. congruence.
      * intros _ i Hi. destruct (Nat.eq_dec i 2) as [-> | Hne].
        -- rewrite A2. eauto.
        -- apply early. lia.
      * eauto.
Qed.

(** Counting the invocation changes neither the log nor the files. *)
Lemma three_attempts_counted (complete : service) (rq : request) (w : world) :
  three_attempts complete rq w
    ((count_client_call ;;; prompt_gpt_attempts complete rq 2) w).
Proof.
  unfold bind, count_client_call.
  exact (prompt_gpt_attempts_three complete rq
           {| api_log := api_log w; client_calls := S (client_calls w);
              files := files w |}).
Qed.

(** C3.  [prompt_gpt], called as every call site does with the default retry
    count of 3, makes between one and three attempts at the completion call;
    it returns the stripped text of the first attempt that answers, whatever
    the text; and it raises, with the exception of the third attempt, exactly
    when all three attempts fail.  This holds for the client of the home and
    footer scripts and for the client of the product script. *)
Theorem prompt_gpt_retries_three_times (complete : service) (prompt : str)
    (max_tokens : N) (w : world) :
  three_attempts complete (Home.prompt_request prompt) w
    (Home.prompt_gpt complete prompt 3 w)
  /\ three_attempts complete (Product.prompt_request prompt max_tokens) w
       (Product.prompt_gpt complete prompt 3 max_tokens w).
Proof.
  split.
  - apply (three_attempts_counted complete (Home.prompt_request prompt) w).
  - apply (three_attempts_counted complete
             (Product.prompt_request prompt max_tokens) w).
Qed.

(** ** Calls that are made once: the recovery step and the translation *)

Lemma guarded_call_single (complete : service) (rq : request)
    (good : str -> str) (fallback : str) (w : world) :
  single_guarded_call complete rq good fallback w
    (try_except
       (content <- chat_completions_create complete rq ;; ret (good content))
       (fun _ => ret fallback) w).
Proof.
  unfold single_guarded_call, try_except, bind, chat_completions_create, ret.
  destruct (complete (api_log w) rq) as [t|e]; cbn; eauto 10.
Qed.

Lemma product_fix_json_with_gpt_eq (complete : service)
    (console : str -> option exn) (broken_json context : str)
    (keys : option (list str)) (w : world) :
  Product.fix_json_with_gpt complete console broken_json context keys w
  = (Ok (fst (repair complete console broken_json context keys w)),
     snd (repair complete console broken_json context keys w)).
Proof.
  unfold Product.fix_json_with_gpt, repair, try_except, bind, py_print,
    chat_completions_create, ret, sent.
  destruct (console (Product.attempt_message broken_json context));
    [reflexivity|].
  destruct (complete (api_log w) _) as [t|e]; [|reflexivity].
  cbv zeta.
  destruct (console (Product.fixed_message _ context)); reflexivity.
Qed.

(** C6, where the product script departs from it.  The console has the
    encoding UTF-8 and the service answers with a text that holds a lone
    surrogate.  The recovery step of the home script returns the sanitised
    answer.  That of the product script sends its request, receives the same
    answer, fails to print it, and returns the broken text: the answer of a
    call that succeeded is thrown away.  When the broken text itself holds
    the surrogate, the first message cannot be printed and no request is
    sent at all. *)
Theorem recovery_print_discards_the_answer :
  let answer := lit "{'note': '" ++ [55357%N] ++ lit "'}" in
  let broken := lit "{'note': }" in
  let keys := Some [lit "note"] in
  let home :=
    Home.fix_json_with_gpt (service_saying answer) broken (lit "notes")
      no_files in
  let product :=
    Product.fix_json_with_gpt (service_saying answer) utf8_console broken
      (lit "notes") keys no_files in
  let unsent :=
    Product.fix_json_with_gpt (service_saying (lit "{}")) utf8_console answer
      (lit "notes") keys no_files in
  fst home = Ok answer
  /\ api_log (snd product)
     = [Product.fix_request broken (lit "notes") keys]
  /\ fst product = Ok broken
  /\ Product.clean_json_response (strip answer) <> broken
  /\ fst unsent = Ok answer
  /\ api_log (snd unsent) = [].
Proof.
  vm_compute. repeat split. discriminate.
Qed.

(** The first translation unit of the home page, run while the service is
    down over a file that holds its placeholder: the step returns normally,
    one request was sent and none through [prompt_gpt], and the English
    source text now stands in the file. *)
Lemma translation_failure_is_swallowed :
  let w := one_file "home.json" (lit "<h2>NEW_HERO_CAPTION_TRANSLATED</h2>") in
  let out :=
    Home.translation_step service_down "home.json" (lit "French")
      (lit "Exclusive Holiday Bundles", [lit "NEW_HERO_CAPTION_TRANSLATED"])
      w in
  In (lit "Exclusive Holiday Bundles", [lit "NEW_HERO_CAPTION_TRANSLATED"])
    Home.translations
  /\ fst out = Ok tt
  /\ length (api_log (snd out)) = 1
  /\ client_calls (snd out) = 0
  /\ file_text (snd out) "home.json"
     = Some (lit "<h2>Exclusive Holiday Bundles</h2>").
Proof.
  vm_compute. repeat split. left. reflexivity.
Qed.

(** C7, as the scripts have it.  [translate_text] sends its request once,
    directly to the completion call: not through [prompt_gpt], and with no
    retry.  When the call answers, the answer is returned stripped and with
    its double quotes removed.  When the call fails, the exception stays
    inside [translate_text], which returns the source text it was given; the
    translation step then substitutes that text and the run goes on.  The
    product script has the same function. *)
Theorem translate_text_one_call_no_raise (complete : service)
    (text target_language : str) (w : world) :
  single_guarded_call complete (Home.translate_request text target_language)
    (fun t => replace [dquote] [] (strip t)) text w
    (Home.translate_text complete text target_language w)
  /\ single_guarded_call complete
       (Home.translate_request text target_language)
       (fun t => replace [dquote] [] (strip t)) text w
       (Product.translate_text complete text target_language w)
  /\ (forall (path : string) (placeholders : list str),
        Home.translation_step complete path target_language
          (text, placeholders) w
        = match Home.translate_text complete text target_language w with
          | (Ok translated, w') =>
              for_each placeholders
                (fun p => Home.replace_in_file path p (VStr translated)) w'
          | (Raise e, w') => (Raise e, w')
          end)
  /\ (forall (path : string) (placeholder : str),
        Product.translation_step complete path target_language
          (text, placeholder) w
        = match Product.translate_text complete text target_language w with
          | (Ok translated, w') =>
              Product.replace_in_file path placeholder (VStr translated) w'
          | (Raise e, w') => (Raise e, w')
          end).
Proof.
  repeat split; try apply guarded_call_single.
Qed.

(** ** Facts about text *)

Lemma eqb_eq (a b : char) : eqb a b = true <-> a = b.
Proof. apply N.eqb_eq. Qed.

Lemma eqb_refl (a : char) : eqb a a = true.
Proof. apply N.eqb_refl. Qed.

Lemma startswith_app (p t : str) : startswith p (p ++ t) = true.
Proof.
  induction p as [|a p IH]; cbn; [reflexivity|].
  rewrite eqb_refl. exact IH.
Qed.

Lemma startswith_split (p s : str) :
  startswith p s = true -> s = p ++ drop (length p) s.
Proof.
  revert s. induction p as [|a p IH]; intros s H; cbn in *.
  - reflexivity.
  - destruct s as [|b s]; [discriminate|].
    apply andb_true_iff in H as [Hab Hp].
    apply eqb_eq in Hab. subst b. cbn. f_equal. apply IH, Hp.
Qed.

Lemma startswith_length (p s : str) :
  startswith p s = true -> length p <= length s.
Proof.
  intros H. rewrite (startswith_split p s H), length_app. lia.
Qed.

Lemma contains_head (p s : str) :
  contains p s = false -> startswith p s = false.
Proof.
  destruct s; cbn; intros H; apply orb_false_iff in H; tauto.
Qed.

Lemma contains_tail (p : str) (c : char) (s : str) :
  contains p (c :: s) = false -> contains p s = false.
Proof.
  cbn [contains]. intros H. apply orb_false_iff in H. tauto.
Qed.

Lemma contains_cons (p : str) (c : char) (s : str) :
  contains p (c :: s) = startswith p (c :: s) || contains p s.
Proof. reflexivity. Qed.

(** The rounds given to [replace_from] do not matter once they cover the
    text. *)
Lemma replace_from_enough (old new : str) (n m : nat) (s : str) :
  old <> [] -> length s <= n -> length s <= m ->
  replace_from n old new s = replace_from m old new s.
Proof.
  intros Hold. revert m s.
  induction n as [|n IH]; intros m s Hn Hm.
  - destruct s; [|cbn in Hn; lia].
    destruct m; cbn; [reflexivity|].
    destruct old; [congruence|reflexivity].
  - destruct m as [|m].
    + destruct s; [|cbn in Hm; lia]. cbn.
      destruct old; [congruence|reflexivity].
    + cbn. destruct (startswith old s) eqn:E.
      * f_equal. pose proof (startswith_length _ _ E).
        destruct old as [|a old]; [congruence|]. cbn [length] in *.
        apply IH; rewrite length_drop; lia.
      * destruct s as [|c r]; [reflexivity|]. f_equal.
        cbn in Hn, Hm. apply IH; lia.
Qed.

Lemma replace_unfold (old new s : str) :
  old <> [] -> replace old new s = replace_from (length s) old new s.
Proof. destruct old; [congruence|reflexivity]. Qed.

(** The three equations of [replace] for a non-empty [old]. *)
Lemma replace_nil (old new : str) : old <> [] -> replace old new [] = [].
Proof. destruct old; [congruence|reflexivity]. Qed.

Lemma replace_match (old new t : str) :
  old <> [] -> replace old new (old ++ t) = new ++ replace old new t.
Proof.
  intros Hold. rewrite !replace_unfold by assumption.
  assert (Hlen : 0 < length old) by (destruct old; [congruence|cbn; lia]).
  assert (length (old ++ t) = S (length (old ++ t) - 1)) as ->.
  { rewrite length_app. lia. }
  cbn [replace_from]. rewrite startswith_app, drop_app_length.
  f_equal. apply replace_from_enough; [assumption| |lia].
  rewrite length_app. lia.
Qed.

Lemma replace_step (old new : str) (c : char) (r : str) :
  old <> [] -> startswith old (c :: r) = false ->
  replace old new (c :: r) = c :: replace old new r.
Proof.
  intros Hold E. rewrite !replace_unfold by assumption.
  cbn [length replace_from]. rewrite E. reflexivity.
Qed.

(** Induction on a text along the scan of [replace]: either the text is
    empty, or it starts with [old], or its first character is copied. *)
Lemma replace_scan_ind (old : str) (Hold : old <> []) (P : str -> Prop) :
  P [] ->
  (forall t, P t -> P (old ++ t)) ->
  (forall c r, startswith old (c :: r) = false -> P r -> P (c :: r)) ->
  forall s, P s.
Proof.
  intros Hnil Hmatch Hstep s.
  remember (length s) as n eqn:Hn. revert s Hn.
  induction n as [n IH] using lt_wf_ind. intros s Hn.
  destruct s as [|c r]; [exact Hnil|].
  destruct (startswith old (c :: r)) eqn:E.
  - rewrite (startswith_split _ _ E). apply Hmatch.
    apply (IH (length (drop (length old) (c :: r)))); [|reflexivity].
    subst n. rewrite length_drop. destruct old; [congruence|]. cbn. lia.
  - apply Hstep; [exact E|]. apply (IH (length r)); [|reflexivity].
    subst n. cbn. lia.
Qed.

Lemma replace_absent (old new s : str) :
  contains old s = false -> replace old new s = s.
Proof.
  intros H.
  assert (Hold : old <> []).
  { intros ->. destruct s; discriminate. }
  induction s as [|c r IH].
  - apply replace_nil, Hold.
  - rewrite replace_step; [|exact Hold|apply contains_head, H].
    f_equal. apply IH. exact (contains_tail _ _ _ H).
Qed.

(** No occurrence of [t] starts in the copy of [c] at the head of [c ++ v]
    when the first character of [t] is not in [c]. *)
Lemma startswith_nil_r (p : str) : startswith p [] = true -> p = [].
Proof. destruct p; [reflexivity|discriminate]. Qed.

Lemma has_char_false (x : char) (s : str) :
  has_char x s = false <-> forall y, In y s -> x <> y.
Proof.
  unfold has_char. induction s as [|a s IH]; cbn.
  - split; [intros _ y []|reflexivity].
  - rewrite orb_false_iff, IH. split.
    + intros [Ha Hs] y [<- | Hy].
      * intros ->. rewrite eqb_refl in Ha. discriminate.
      * apply Hs, Hy.
    + intros H. split.
      * destruct (eqb x a) eqn:E; [|reflexivity].
        apply eqb_eq in E. exfalso. apply (H a); [left; reflexivity|exact E].
      * intros y Hy. apply H. right. exact Hy.
Qed.

Lemma contains_after_foreign (t c v : str) (t0 : char) (t' : str) :
  t = t0 :: t' -> has_char t0 c = false ->
  contains t (c ++ v) = contains t v.
Proof.
  intros -> Hc. induction c as [|a c IH]; [reflexivity|].
  cbn in Hc. apply orb_false_iff in Hc as [Ha Hc].
  cbn [app]. rewrite contains_cons. cbn [startswith].
  rewrite Ha. cbn. apply IH, Hc.
Qed.

(** ** Line ends and encodings *)

Lemma startswith_app_l (p s t : str) :
  startswith p s = true -> startswith p (s ++ t) = true.
Proof.
  revert s. induction p as [|a p IH]; intros s H; [reflexivity|].
  destruct s as [|b s]; [discriminate|]. cbn in *.
  apply andb_true_iff in H as [Hab Hp]. rewrite Hab. cbn. apply IH, Hp.
Qed.

Lemma replace_Forall (P : char -> Prop) (old new s : str) :
  Forall P s -> Forall P new -> Forall P (replace old new s).
Proof.
  intros Hs Hn. destruct old as [|o old'].
  - cbn. apply Forall_app. split; [exact Hn|].
    induction Hs as [|c r Hc Hr IH]; cbn; [constructor|].
    constructor; [exact Hc|]. apply Forall_app. split; assumption.
  - assert (Hold : o :: old' <> []) by discriminate.
    revert Hs.
    induction s as [|t IHt|c r E IHr]
      using (replace_scan_ind (o :: old') Hold); intros Hs.
    + rewrite replace_nil by assumption. constructor.
    + rewrite replace_match by assumption.
      apply Forall_app in Hs as [_ Ht].
      apply Forall_app. split; [exact Hn|apply IHt, Ht].
    + rewrite replace_step by assumption.
      apply Forall_cons in Hs as [Hc Hr].
      constructor; [exact Hc|apply IHr, Hr].
Qed.

Lemma utf8_text_Forall (s : str) :
  utf8_text s = true <-> Forall (fun c => utf8_char c = true) s.
Proof.
  unfold utf8_text. rewrite forallb_forall, List.Forall_forall. reflexivity.
Qed.

Lemma has_char_Forall (x : char) (s : str) :
  has_char x s = false <-> Forall (fun y => x <> y) s.
Proof. rewrite has_char_false, List.Forall_forall. reflexivity. Qed.

Lemma utf8_text_app (a b : str) :
  utf8_text (a ++ b) = utf8_text a && utf8_text b.
Proof. apply forallb_app. Qed.

(** A replacement by text that UTF-8 encodes, in such a text, gives such a
    text. *)
Lemma utf8_replace (old new s : str) :
  utf8_text s = true -> utf8_text new = true ->
  utf8_text (replace old new s) = true.
Proof.
  rewrite !utf8_text_Forall. apply replace_Forall.
Qed.

Lemma no_cr_replace (old new s : str) :
  has_char cr s = false -> has_char cr new = false ->
  has_char cr (replace old new s) = false.
Proof.
  rewrite !has_char_Forall. apply replace_Forall.
Qed.

(** Induction on a text along the reading of its line ends. *)
Lemma universal_newlines_ind (P : str -> Prop) :
  P [] ->
  P [cr] ->
  (forall r, P r -> P (cr :: lf :: r)) ->
  (forall d r, eqb d lf = false -> P (d :: r) -> P (cr :: d :: r)) ->
  (forall c r, eqb c cr = false -> P r -> P (c :: r)) ->
  forall s, P s.
Proof.
  intros Hnil Hcr Hcrlf Hcrd Hc s.
  remember (length s) as n eqn:Hn. revert s Hn.
  induction n as [n IH] using lt_wf_ind. intros s Hn.
  destruct s as [|c r]; [exact Hnil|].
  destruct (eqb c cr) eqn:Ec.
  - apply eqb_eq in Ec. subst c.
    destruct r as [|d r]; [exact Hcr|].
    destruct (eqb d lf) eqn:Ed.
    + apply eqb_eq in Ed. subst d. apply Hcrlf.
      apply (IH (length r)); [subst n; cbn; lia|reflexivity].
    + apply Hcrd; [exact Ed|].
      apply (IH (length (d :: r))); [subst n; cbn; lia|reflexivity].
  - apply Hc; [exact Ec|].
    apply (IH (length r)); [subst n; cbn; lia|reflexivity].
Qed.

Lemma universal_newlines_crlf (r : str) :
  universal_newlines (cr :: lf :: r) = lf :: universal_newlines r.
Proof. reflexivity. Qed.

Lemma universal_newlines_cr (d : char) (r : str) :
  eqb d lf = false ->
  universal_newlines (cr :: d :: r) = lf :: universal_newlines (d :: r).
Proof.
  intros Ed. cbn [universal_newlines].
  change (eqb cr cr) with true. cbv iota. rewrite Ed. reflexivity.
Qed.

Lemma universal_newlines_other (c : char) (r : str) :
  eqb c cr = false ->
  universal_newlines (c :: r) = c :: universal_newlines r.
Proof. intros Ec. cbn [universal_newlines]. rewrite Ec. reflexivity. Qed.

Lemma universal_newlines_Forall (P : char -> Prop) (s : str) :
  P lf -> Forall P s -> Forall P (universal_newlines s).
Proof.
  intros Hlf.
  induction s as [| |r IH|d r Ed IH|c r Ec IH] using universal_newlines_ind;
    intros Hs.
  - constructor.
  - repeat constructor. exact Hlf.
  - rewrite universal_newlines_crlf.
    apply Forall_cons in Hs as [_ Hs]. apply Forall_cons in Hs as [_ Hs].
    constructor; [exact Hlf|apply IH, Hs].
  - rewrite universal_newlines_cr by assumption.
    apply Forall_cons in Hs as [_ Hs].
    constructor; [exact Hlf|apply IH, Hs].
  - rewrite universal_newlines_other by assumption.
    apply Forall_cons in Hs as [Hc Hs].
    constructor; [exact Hc|apply IH, Hs].
Qed.

(** Reading keeps a text within UTF-8. *)
Lemma utf8_universal_newlines (s : str) :
  utf8_text s = true -> utf8_text (universal_newlines s) = true.
Proof.
  rewrite !utf8_text_Forall. apply universal_newlines_Forall. reflexivity.
Qed.

(** A text that was read has no carriage return. *)
Lemma universal_newlines_no_cr (s : str) :
  has_char cr (universal_newlines s) = false.
Proof.
  apply has_char_Forall.
  induction s as [| |r IH|d r Ed IH|c r Ec IH] using universal_newlines_ind.
  - constructor.
  - repeat constructor. discriminate.
  - rewrite universal_newlines_crlf. constructor; [discriminate|exact IH].
  - rewrite universal_newlines_cr by assumption.
    constructor; [discriminate|exact IH].
  - rewrite universal_newlines_other by assumption.
    constructor; [|exact IH].
    intros <-. rewrite eqb_refl in Ec. discriminate.
Qed.

(** A text without carriage return is read as it is. *)
Lemma universal_newlines_fixed (s : str) :
  has_char cr s = false -> universal_newlines s = s.
Proof.
  induction s as [|c r IH]; [reflexivity|].
  unfold has_char. cbn [existsb]. intros H.
  apply orb_false_iff in H as [Hc Hr].
  rewrite universal_newlines_other.
  - f_equal. apply IH, Hr.
  - unfold eqb in *. rewrite N.eqb_sym. exact Hc.
Qed.

Lemma universal_newlines_idem (s : str) :
  universal_newlines (universal_newlines s) = universal_newlines s.
Proof. apply universal_newlines_fixed, universal_newlines_no_cr. Qed.

(** ** When the token cannot come back *)

Lemma startswith_app_short (p a b : str) :
  length p <= length a -> startswith p (a ++ b) = startswith p a.
Proof.
  revert a. induction p as [|x p IH]; intros a H; [reflexivity|].
  destruct a as [|y a]; [cbn in H; lia|].
  cbn [app startswith]. rewrite IH by (cbn in H; lia). reflexivity.
Qed.

Lemma startswith_app_long (p a b : str) :
  length a <= length p -> startswith p (a ++ b) = true ->
  p = a ++ drop (length a) p /\ startswith (drop (length a) p) b = true.
Proof.
  revert p. induction a as [|y a IH]; intros p H E.
  - split; [reflexivity|exact E].
  - destruct p as [|x p]; [cbn in H; lia|].
    cbn [app startswith] in E. apply andb_true_iff in E as [Exy E].
    apply eqb_eq in Exy. subst y.
    destruct (IH p) as [Hp Hd]; [cbn in H; lia|exact E|].
    cbn [length drop app]. split; [f_equal; exact Hp|exact Hd].
Qed.

Lemma startswith_app_same (a p s : str) :
  startswith (a ++ p) (a ++ s) = startswith p s.
Proof.
  induction a as [|x a IH]; [reflexivity|].
  cbn [app startswith]. rewrite eqb_refl. exact IH.
Qed.

Lemma meets_comm (a b : str) : meets a b = meets b a.
Proof. apply orb_comm. Qed.

(** A text that starts [a ++ b] agrees with [a]. *)
Lemma startswith_app_meets (t a b : str) :
  startswith t (a ++ b) = true -> meets a t = true.
Proof.
  unfold meets. revert a. induction t as [|x t IH]; intros a H.
  - apply orb_true_r.
  - destruct a as [|y a]; [reflexivity|].
    cbn [app startswith] in H |- *. apply andb_true_iff in H as [Exy H].
    apply eqb_eq in Exy. subst y. rewrite eqb_refl. cbn [andb].
    apply IH, H.
Qed.

Lemma content_end_meets_false (token c : str) :
  content_end_meets token c = false ->
  forall j, j < length c -> meets (drop j c) token = false.
Proof.
  induction c as [|x c IH]; intros H j Hj; [cbn in Hj; lia|].
  cbn [content_end_meets] in H. apply orb_false_iff in H as [H0 H].
  destruct j as [|j]; [exact H0|].
  cbn [drop]. apply IH; [exact H|cbn in Hj; lia].
Qed.

Lemma token_end_meets_false (token content t : str) :
  token_end_meets token content t = false ->
  forall j, j < length t -> meets (drop j t) content = true ->
    startswith (drop j t) token = true.
Proof.
  induction t as [|x t IH]; intros H j Hj Hm; [cbn in Hj; lia|].
  cbn [token_end_meets] in H. apply orb_false_iff in H as [H0 H].
  destruct j as [|j].
  - cbn [drop] in Hm |- *. rewrite Hm in H0. cbn [andb] in H0.
    apply negb_false_iff in H0. exact H0.
  - cbn [drop] in Hm |- *. apply IH; [exact H|cbn in Hj; lia|exact Hm].
Qed.

(** An occurrence of the token that starts before the result of a
    replacement was there before the replacement, at the same place. *)
Lemma replace_reflects_start (token content : str) :
  token <> [] ->
  token_end_meets token content (tail token) = false ->
  forall s u k, k < length u ->
    startswith token (drop k (u ++ replace token content s)) = true ->
    startswith token (drop k (u ++ s)) = true.
Proof.
  intros Htoken HB.
  induction s as [|t IHt|c r E IHr] using (replace_scan_ind token Htoken);
    intros u k Hk H.
  - rewrite replace_nil in H by assumption. exact H.
  - rewrite replace_match in H by assumption.
    rewrite drop_app_le in H |- * by lia.
    assert (Hu : 0 < length (drop k u)) by (rewrite length_drop; lia).
    set (u' := drop k u) in *.
    destruct (le_lt_dec (length token) (length u')) as [Hle | Hlt].
    + rewrite startswith_app_short in H |- * by exact Hle. exact H.
    + destruct (startswith_app_long token u' _ (Nat.lt_le_incl _ _ Hlt) H)
        as [Hsplit Hw].
      set (m := length u') in *.
      apply startswith_app_meets in Hw. rewrite meets_comm in Hw.
      assert (Hdrop : drop m token = drop (m - 1) (tail token)).
      { destruct token as [|x token]; [congruence|].
        cbn [tail]. replace m with (S (m - 1)) at 1 by lia. reflexivity. }
      rewrite Hdrop in Hw.
      apply (token_end_meets_false _ _ _ HB) in Hw.
      * rewrite <- Hdrop in Hw. rewrite Hsplit at 1.
        rewrite startswith_app_same. apply startswith_app_l, Hw.
      * destruct token as [|x token]; [congruence|]. cbn [tail length] in *.
        lia.
  - rewrite replace_step in H by assumption.
    rewrite (cons_middle c u), app_assoc in H |- *.
    apply IHr; [rewrite length_app; cbn; lia|exact H].
Qed.

Lemma contains_app_false (t a b : str) :
  (forall j, j < length a -> startswith t (drop j a ++ b) = false) ->
  contains t b = false -> contains t (a ++ b) = false.
Proof.
  intros Ha Hb. induction a as [|x a IH]; [exact Hb|].
  cbn [app]. rewrite contains_cons.
  assert (H0 : startswith t (drop 0 (x :: a) ++ b) = false)
    by (apply Ha; cbn; lia).
  cbn [drop app] in H0. rewrite H0. cbn [orb].
  apply IH. intros j Hj. apply (Ha (S j)). cbn. lia.
Qed.

(** When the content cannot rejoin the token, no occurrence of the token is
    left after the replacement. *)
Lemma replace_leaves_no_token (token content : str) :
  token <> [] -> rejoins token content = false ->
  forall s, contains token (replace token content s) = false.
Proof.
  intros Htoken H. unfold rejoins in H. apply orb_false_iff in H as [HA HB].
  induction s as [|t IHt|c r E IHr] using (replace_scan_ind token Htoken).
  - rewrite replace_nil by assumption. destruct token; [congruence|reflexivity].
  - rewrite replace_match by assumption.
    apply contains_app_false; [|exact IHt].
    intros j Hj.
    destruct (startswith token (drop j content ++ replace token content t))
      eqn:Es; [|reflexivity].
    apply startswith_app_meets in Es.
    rewrite (content_end_meets_false _ _ HA j Hj) in Es. discriminate.
  - rewrite replace_step by assumption.
    rewrite contains_cons, IHr, orb_false_r.
    destruct (startswith token (c :: replace token content r)) eqn:Es;
      [|reflexivity].
    pose proof (replace_reflects_start token content Htoken HB r [c] 0) as Q.
    cbn [length app drop] in Q. rewrite Q in E; [discriminate| lia |exact Es].
Qed.

(** ** The substitution in the target file *)

Lemma store_text_same (w : world) (path : string) (f : file) :
  files w !! path = Some f -> store_text w path f (contents f) = w.
Proof.
  intros H. destruct w as [l n fs], f as [d r x]. unfold store_text. cbn in *.
  f_equal. apply insert_id. exact H.
Qed.

(** On a file that can be read and written, the version of the home and
    footer scripts writes the text that it read, with the token replaced;
    when UTF-8 cannot carry that text the file is left empty and the
    exception of [f.write] leaves the function. *)
Lemma home_replace_in_file_opened (path : string) (token content : str)
    (w : world) (f : file) :
  files w !! path = Some f -> readable f = true -> writable f = true ->
  Home.replace_in_file path token (VStr content) w
  = if utf8_text (replace token content (universal_newlines (contents f)))
    then (Ok tt,
          store_text w path f
            (replace token content (universal_newlines (contents f))))
    else (Raise UnicodeEncodeError, store_text w path f []).
Proof.
  intros Hf Hr Hw.
  unfold Home.replace_in_file, bind, read_text, lift, write_text, replace_with.
  rewrite Hf, Hr. cbv beta iota. rewrite Hf, Hw.
  unfold store_text. rewrite Hw.
  destruct (utf8_text _); reflexivity.
Qed.

(** The version of the product script writes only when the text holds the
    token, and returns normally whatever happens. *)
Lemma product_replace_in_file_opened (path : string) (token content : str)
    (w : world) (f : file) :
  files w !! path = Some f -> readable f = true -> writable f = true ->
  Product.replace_in_file path token (VStr content) w
  = (Ok tt,
     if contains token (universal_newlines (contents f))
     then
       if utf8_text (replace token content (universal_newlines (contents f)))
       then store_text w path f
              (replace token content (universal_newlines (contents f)))
       else store_text w path f []
     else w).
Proof.
  intros Hf Hr Hw.
  unfold Product.replace_in_file, try_except, bind, read_text, lift,
    write_text, replace_with, ret.
  rewrite Hf, Hr. cbv beta iota.
  destruct (contains token (universal_newlines (contents f)));
    [|reflexivity].
  cbv beta iota. rewrite Hf, Hw.
  unfold store_text. rewrite Hw.
  destruct (utf8_text _); reflexivity.
Qed.

Lemma contains_short (p s : str) :
  length s < length p -> contains p s = false.
Proof.
  intros H. induction s as [|c r IH].
  - destruct p; [cbn in H; lia|reflexivity].
  - rewrite contains_cons. rewrite IH by (cbn in H; lia).
    destruct (startswith p (c :: r)) eqn:E; [|reflexivity].
    apply startswith_length in E. lia.
Qed.

Lemma removelast_length (p : str) :
  p <> [] -> length (removelast p) < length p.
Proof.
  intros H. rewrite (app_removelast_last 0%N H) at 2.
  rewrite length_app. cbn. unfold str, char. lia.
Qed.

(** [replace] computes what the specification describes. *)
Lemma replace_is_Replaced (old new s : str) :
  old <> [] -> Replaced old new s (replace old new s).
Proof.
  intros Hold.
  induction s as [|t IHt|c r E IHr] using (replace_scan_ind old Hold).
  - rewrite replace_nil by assumption. apply Replaced_none.
    destruct old; [congruence|reflexivity].
  - rewrite replace_match by assumption.
    apply (Replaced_first old new [] t); [|exact IHt].
    apply contains_short. cbn. apply removelast_length, Hold.
  - rewrite replace_step by assumption.
    remember (replace old new r) as r' eqn:Er'.
    destruct IHr as [s Hs | a b b' Ha Hb].
    + apply Replaced_none.
      rewrite contains_cons, E, Hs. reflexivity.
    + apply (Replaced_first old new (c :: a) b b'); [|exact Hb].
      cbn [app]. rewrite contains_cons, Ha, orb_false_r.
      destruct (startswith old (c :: a ++ removelast old)) eqn:E3;
        [|reflexivity].
      rewrite (app_removelast_last 0%N Hold) in E at 2.
      rewrite <- !app_assoc in E.
      rewrite (app_assoc a), app_comm_cons in E.
      rewrite (startswith_app_l _ _ _ E3) in E. discriminate.
Qed.

(** Three files on which C2 as it is stated fails.  In the first, of three
    characters, the replacement of [ab] by [a] brings the token back: the
    characters left and right of the replaced occurrence close up into a new
    one, and both versions of [replace_in_file] return normally and leave
    [ab] in the file.  In the second the line ends with a carriage return
    and a line feed: the file is read as text, and what is written is not
    the prior content with the token replaced, the carriage return is gone.
    In the third the content holds a lone surrogate: the version of the
    product script returns normally and the file is empty. *)
Lemma substitution_can_leave_the_token :
  let w := one_file "page.json" (lit "abb") in
  let home := Home.replace_in_file "page.json" (lit "ab") (VStr (lit "a")) w in
  let product :=
    Product.replace_in_file "page.json" (lit "ab") (VStr (lit "a")) w in
  let dos := one_file "page.json" (lit "<p>" ++ [cr; lf] ++ lit "TOKEN") in
  let home_dos :=
    Home.replace_in_file "page.json" (lit "TOKEN") (VStr (lit "Hi")) dos in
  let page := one_file "page.json" (lit "<p>TOKEN</p>") in
  let product_page :=
    Product.replace_in_file "page.json" (lit "TOKEN") (VStr [55357%N])
      page in
  (fst home = Ok tt
   /\ file_text (snd home) "page.json" = Some (lit "ab")
   /\ fst product = Ok tt
   /\ file_text (snd product) "page.json" = Some (lit "ab")
   /\ contains (lit "ab") (lit "ab") = true)
  /\ (fst home_dos = Ok tt
      /\ file_text (snd home_dos) "page.json" = Some (lit "<p>" ++ [lf] ++ lit "Hi")
      /\ replace (lit "TOKEN") (lit "Hi") (lit "<p>" ++ [cr; lf] ++ lit "TOKEN")
         = lit "<p>" ++ [cr; lf] ++ lit "Hi")
  /\ (fst product_page = Ok tt
      /\ file_text (snd product_page) "page.json" = Some []).
Proof.
  vm_compute. repeat split.
Qed.

(** C2, as the scripts have it.  The target document can be read and
    written and holds text, and the content is text that UTF-8 encodes.
    Then [replace_in_file] returns normally.  The file holds the text that
    was read, which is the prior content with the line ends [\r\n] and [\r]
    read as [\n], with every occurrence of the token, taken from the left and
    not overlapping, replaced by the content; the version of the product
    script leaves the file untouched when that text does not hold the token.
    No occurrence of the token is left provided that the token is not empty
    and the content cannot rejoin it, see [rejoins].  A content without
    carriage return is read back as it was written. *)
Theorem replace_in_file_substitutes (path : string) (token content : str)
    (w : world) (f : file) :
  target_document w path f ->
  utf8_text (contents f) = true -> utf8_text content = true ->
  let prior := universal_newlines (contents f) in
  let data := replace token content prior in
  Home.replace_in_file path token (VStr content) w
    = (Ok tt, store_text w path f data)
  /\ Product.replace_in_file path token (VStr content) w
    = (Ok tt, if contains token prior then store_text w path f data else w)
  /\ file_text (store_text w path f data) path = Some data
  /\ (contains token prior = false -> data = prior)
  /\ (token <> [] -> Replaced token content prior data)
  /\ (token <> [] -> rejoins token content = false ->
      contains token data = false)
  /\ (has_char cr content = false -> universal_newlines data = data).
Proof.
  intros (Hf & Hr & Hw) Hutf Hcontent prior data.
  assert (Hdata : utf8_text data = true).
  { apply utf8_replace; [apply utf8_universal_newlines, Hutf|exact Hcontent]. }
  split; [|split; [|split; [|split; [|split; [|split]]]]].
  - rewrite (home_replace_in_file_opened _ _ _ _ _ Hf Hr Hw).
    fold prior. fold data. rewrite Hdata. reflexivity.
  - rewrite (product_replace_in_file_opened _ _ _ _ _ Hf Hr Hw).
    fold prior. fold data. rewrite Hdata. reflexivity.
  - unfold file_text, store_text. cbn. rewrite lookup_insert_eq. reflexivity.
  - intros Habs. apply replace_absent, Habs.
  - intros Ht. apply replace_is_Replaced, Ht.
  - intros Ht Hre. apply replace_leaves_no_token; assumption.
  - intros Hcr. apply universal_newlines_fixed, no_cr_replace;
      [apply universal_newlines_no_cr|exact Hcr].
Qed.

Lemma replace_in_file_substitutes_witness :
  let w :=
    one_file "home.json" (lit "<h2>NEW_NEWSLETTER_HEADING_GENERATED</h2>") in
  Home.replace_in_file "home.json" (lit "NEW_NEWSLETTER_HEADING_GENERATED")
    (VStr (lit "Titre")) w
  = (Ok tt, one_file "home.json" (lit "<h2>Titre</h2>"))
  /\ contains (lit "NEW_NEWSLETTER_HEADING_GENERATED") (lit "<h2>Titre</h2>")
     = false.
Proof.
  pose proof
    (replace_in_file_substitutes "home.json"
       (lit "NEW_NEWSLETTER_HEADING_GENERATED") (lit "Titre")
       (one_file "home.json" (lit "<h2>NEW_NEWSLETTER_HEADING_GENERATED</h2>"))
       {| contents := lit "<h2>NEW_NEWSLETTER_HEADING_GENERATED</h2>";
          readable := true; writable := true |}
       (conj (lookup_singleton_eq _ _) (conj eq_refl eq_refl))
       eq_refl eq_refl)
    as (H1 & _ & _ & _ & _ & H6 & _).
  split.
  - rewrite H1. vm_compute. reflexivity.
  - apply H6; [discriminate|reflexivity].
Defined.

(** The labels of the three pages and their placeholders: but for five
    pairs, whose label ends with the first letter of the placeholder or
    starts with its last one, a label cannot rejoin its placeholder. *)
Lemma labels_seldom_rejoin :
  let pairs table :=
    flat_map (fun row : str * list str =>
                List.map (fun p => (fst row, p)) (snd row)) table in
  let rejoining l :=
    List.filter (fun pair : str * str => rejoins (snd pair) (fst pair)) l in
  rejoining (pairs Home.translations)
  = [(lit "FEATURED IN", lit "NEW_FEATURED_IN_TRANSLATED")]
  /\ rejoining (pairs Footer.translations) = []
  /\ List.map fst (rejoining Product.translations)
     = [lit "Dec 2023"; lit "Does this really work?";
        lit "Do you provide tracking information?";
        lit "Drone Tech for the Best Flights Yet"]
  /\ length (pairs Home.translations) = 28
  /\ length Product.translations = 73.
Proof.
  vm_compute. repeat split.
Qed.

(** Two files without the token on which C8 as it is stated fails, for the
    version of the home and footer scripts.  The first has a line that ends
    with a carriage return: the call returns normally, and the content of
    the file has changed.  The second cannot be written: the call raises. *)
Lemma absent_token_can_change_the_file :
  let token := lit "NEW_TITLE_GENERATED" in
  let mac := one_file "page.json" (lit "<h1>" ++ [cr] ++ lit "</h1>") in
  let locked := read_only_file "page.json" (lit "<h1></h1>") in
  contains token (lit "<h1>" ++ [cr] ++ lit "</h1>") = false
  /\ Home.replace_in_file "page.json" token (VStr (lit "Titre")) mac
     = (Ok tt, one_file "page.json" (lit "<h1>" ++ [lf] ++ lit "</h1>"))
  /\ mac <> one_file "page.json" (lit "<h1>" ++ [lf] ++ lit "</h1>")
  /\ contains token (lit "<h1></h1>") = false
  /\ Home.replace_in_file "page.json" token (VStr (lit "Titre")) locked
     = (Raise (OSError "page.json"), locked).
Proof.
  split; [reflexivity|]. split; [vm_compute; reflexivity|].
  split; [|split; [reflexivity|vm_compute; reflexivity]].
  intros H. apply (f_equal (fun w => file_text w "page.json")) in H.
  vm_compute in H. discriminate.
Qed.

(** C8, as the scripts have it.  The text of the file, as it is read, does
    not hold the token.  The version of the product script then returns
    normally and leaves the world, and with it the file, as it was, whether
    or not the file can be opened, so that the statements after it run from
    the same state.  The version of the home and footer scripts, on a file
    that holds text and can be read and written, returns normally and writes
    back the text that it read: the file then holds its prior content with
    the line ends [\r\n] and [\r] turned into [\n], a file without carriage
    return is as it was, and the statements after the call run from that
    state. *)
Theorem absent_token_changes_nothing (path : string) (token content : str)
    (w : world) (f : file) :
  files w !! path = Some f ->
  contains token (universal_newlines (contents f)) = false ->
  let text := universal_newlines (contents f) in
  Product.replace_in_file path token (VStr content) w = (Ok tt, w)
  /\ (forall k : M unit,
        (Product.replace_in_file path token (VStr content) ;;; k) w = k w)
  /\ (readable f = true -> writable f = true ->
      utf8_text (contents f) = true ->
      Home.replace_in_file path token (VStr content) w
      = (Ok tt, store_text w path f text)
      /\ text_read (store_text w path f text) path = text_read w path
      /\ (has_char cr (contents f) = false -> store_text w path f text = w)
      /\ (forall k : M unit,
            (Home.replace_in_file path token (VStr content) ;;; k) w
            = k (store_text w path f text))).
Proof.
  intros Hf Habs text.
  assert (HP : Product.replace_in_file path token (VStr content) w
               = (Ok tt, w)).
  { unfold Product.replace_in_file, try_except, bind, read_text, ret.
    rewrite Hf. destruct (readable f); [|reflexivity].
    cbv beta iota. rewrite Habs. reflexivity. }
  split; [exact HP|]. split.
  { intros k. unfold bind. rewrite HP. reflexivity. }
  intros Hr Hw Hutf.
  assert (HH : Home.replace_in_file path token (VStr content) w
               = (Ok tt, store_text w path f text)).
  { rewrite (home_replace_in_file_opened _ _ _ _ _ Hf Hr Hw).
    rewrite (replace_absent _ _ _ Habs).
    rewrite (utf8_universal_newlines _ Hutf). reflexivity. }
  split; [exact HH|]. split; [|split].
  - unfold text_read, file_text, store_text. cbn.
    rewrite lookup_insert_eq, Hf. cbn. f_equal.
    apply universal_newlines_idem.
  - intros Hcr. unfold text. rewrite (universal_newlines_fixed _ Hcr).
    apply store_text_same, Hf.
  - intros k. unfold bind. rewrite HH. reflexivity.
Qed.

Lemma absent_token_changes_nothing_witness :
  let w := one_file "page.json" (lit "<h1>Bienvenue</h1>") in
  contains (lit "NEW_TITLE_GENERATED") (lit "<h1>Bienvenue</h1>") = false
  /\ Home.replace_in_file "page.json" (lit "NEW_TITLE_GENERATED")
       (VStr (lit "Titre")) w = (Ok tt, w)
  /\ Product.replace_in_file "page.json" (lit "NEW_TITLE_GENERATED")
       (VStr (lit "Titre")) w = (Ok tt, w).
Proof.
  pose proof
    (absent_token_changes_nothing "page.json" (lit "NEW_TITLE_GENERATED")
       (lit "Titre") (one_file "page.json" (lit "<h1>Bienvenue</h1>"))
       {| contents := lit "<h1>Bienvenue</h1>";
          readable := true; writable := true |}
       (lookup_singleton_eq _ _) eq_refl)
    as (H1 & _ & H3).
  destruct (H3 eq_refl eq_refl eq_refl) as (H4 & _ & H5 & _).
  split; [reflexivity|]. split; [|exact H1].
  rewrite H4. rewrite (H5 eq_refl). reflexivity.
Defined.

(** On the product page a file that is missing, and one that cannot be
    written, raise nothing: [replace_in_file] returns normally, the token is
    still in the read-only file, and the translation step that called it
    returns normally too. *)
Lemma product_substitution_swallows_io_error :
  let w := read_only_file "product.json" (lit "<p>NEW_TEXT_GENERATED</p>") in
  Product.replace_in_file "product.json" (lit "NEW_TEXT_GENERATED")
    (VStr (lit "Bonjour")) no_files = (Ok tt, no_files)
  /\ Product.replace_in_file "product.json" (lit "NEW_TEXT_GENERATED")
       (VStr (lit "Bonjour")) w = (Ok tt, w)
  /\ can_open no_files "product.json" = false
  /\ can_open w "product.json" = false
  /\ fst (Product.translation_step (service_saying (lit "Bonjour"))
            "product.json" (lit "French")
            (lit "Hello", lit "NEW_TEXT_GENERATED") w) = Ok tt.
Proof.
  vm_compute. repeat split.
Qed.

Lemma home_replace_in_file_unopenable (path : string) (token content : str)
    (w : world) :
  can_open w path = false ->
  Home.replace_in_file path token (VStr content) w = (Raise (OSError path), w).
Proof.
  unfold can_open, Home.replace_in_file, bind, read_text, lift, write_text,
    replace_with.
  destruct (files w !! path) as [f|] eqn:Hf; [|reflexivity].
  destruct (readable f); [|reflexivity]. cbn. intros Hw.
  rewrite Hf, Hw. reflexivity.
Qed.

Lemma product_replace_in_file_unopenable (path : string)
    (token content : str) (w : world) :
  can_open w path = false ->
  Product.replace_in_file path token (VStr content) w = (Ok tt, w).
Proof.
  unfold can_open, Product.replace_in_file, try_except, bind, read_text, lift,
    write_text, replace_with, ret.
  destruct (files w !! path) as [f|] eqn:Hf; [|reflexivity].
  destruct (readable f); [|reflexivity]. cbn. intros Hw.
  destruct (contains token (universal_newlines (contents f)));
    [|reflexivity].
  rewrite Hf, Hw. reflexivity.
Qed.

(** The translation phase of the home and footer pages stops at its first
    substitution when the file cannot be opened: one request has been sent,
    for the first label, and the exception of [replace_in_file] leaves the
    phase. *)
Lemma run_translations_unopenable (complete : service) (path : string)
    (language text placeholder : str) (placeholders : list str)
    (table : list (str * list str)) (w : world) :
  can_open w path = false ->
  exists w',
    Home.run_translations complete path language
      ((text, placeholder :: placeholders) :: table) w
    = (Raise (OSError path), w')
    /\ files w' = files w
    /\ length (api_log w') = S (length (api_log w)).
Proof.
  intros Hopen.
  destruct (guarded_call_single complete
              (Home.translate_request text language)
              (fun t => replace [dquote] [] (strip t)) text w)
    as (Hlog & _ & Hfiles & [translated Hres] & _).
  fold (Home.translate_text complete text language) in Hlog, Hfiles, Hres.
  destruct (Home.translate_text complete text language w) as [r w1] eqn:Ht.
  cbn in Hlog, Hfiles, Hres. subst r.
  exists w1. split; [|split].
  - unfold Home.run_translations. cbn [for_each].
    unfold bind at 1. unfold Home.translation_step at 1. cbn [fst snd].
    unfold bind at 1. rewrite Ht. cbn [for_each]. unfold bind at 1.
    rewrite home_replace_in_file_unopenable; [reflexivity|].
    unfold can_open. rewrite Hfiles. exact Hopen.
  - exact Hfiles.
  - rewrite Hlog, length_app. cbn. lia.
Qed.

(** C9, as the scripts have it.  When the target file cannot be read or
    written, [replace_in_file] of the home and footer scripts raises the
    error of [open] and changes nothing; no caller handles it, so the run of
    the page ends with that exception at the first substitution, after the
    single request of the first translation.  In the product script the
    error is caught inside [replace_in_file], which returns normally with
    the file as it was, and the run goes on. *)
Theorem unopenable_file_raises_except_on_product (complete : service)
    (json_loads : str -> result value)
    (render : string -> str -> str -> str -> str -> str)
    (path : string) (token content : str)
    (brand_name product_title product_description language : str)
    (w : world) :
  can_open w path = false ->
  Home.replace_in_file path token (VStr content) w = (Raise (OSError path), w)
  /\ (exists w',
        Home.change_home_page_content complete json_loads render path
          brand_name product_title product_description language w
        = (Raise (OSError path), w')
        /\ files w' = files w
        /\ length (api_log w') = S (length (api_log w)))
  /\ (exists w',
        Footer.change_footer_content complete json_loads render path
          brand_name product_title product_description language w
        = (Raise (OSError path), w')
        /\ files w' = files w
        /\ length (api_log w') = S (length (api_log w)))
  /\ Product.replace_in_file path token (VStr content) w = (Ok tt, w)
  /\ (forall k : M unit,
        (Product.replace_in_file path token (VStr content) ;;; k) w = k w).
Proof.
  intros Hopen. split; [|split; [|split; [|split]]].
  - apply home_replace_in_file_unopenable, Hopen.
  - unfold Home.change_home_page_content, Home.process_translations,
      Home.translations.
    edestruct (run_translations_unopenable complete path language) as
      (w' & Hrun & Hrest); [exact Hopen|].
    exists w'. split; [|exact Hrest].
    unfold bind at 1. rewrite Hrun. reflexivity.
  - unfold Footer.change_footer_content, Footer.process_footer_translations,
      Footer.translations.
    edestruct (run_translations_unopenable complete path language) as
      (w' & Hrun & Hrest); [exact Hopen|].
    exists w'. split; [|exact Hrest].
    unfold bind at 1. rewrite Hrun. reflexivity.
  - apply product_replace_in_file_unopenable, Hopen.
  - intros k. unfold bind.
    rewrite (product_replace_in_file_unopenable _ _ _ _ Hopen). reflexivity.
Qed.

Lemma unopenable_file_raises_except_on_product_witness :
  can_open no_files "home.json" = false
  /\ Home.replace_in_file "home.json" (lit "NEW_HERO_CAPTION_TRANSLATED")
       (VStr (lit "Offres")) no_files
     = (Raise (OSError "home.json"), no_files)
  /\ Product.replace_in_file "home.json" (lit "NEW_HERO_CAPTION_TRANSLATED")
       (VStr (lit "Offres")) no_files
     = (Ok tt, no_files).
Proof.
  pose proof
    (unopenable_file_raises_except_on_product (service_saying (lit "Offres"))
       (fun _ => Raise JSONDecodeError) (fun _ _ _ _ _ => []) "home.json"
       (lit "NEW_HERO_CAPTION_TRANSLATED") (lit "Offres")
       (lit "Acme") (lit "Mouse") (lit "A mouse") (lit "French")
       no_files eq_refl) as (H1 & _ & _ & H4 & _).
  split; [reflexivity|]. split; [exact H1|exact H4].
Defined.

(** ** The format-preserving generator *)

Lemma prompt_gpt_attempts_frame (complete : service) (rq : request)
    (n : nat) (w : world) :
  client_calls (snd (prompt_gpt_attempts complete rq n w)) = client_calls w
  /\ files (snd (prompt_gpt_attempts complete rq n w)) = files w.
Proof.
  revert w. induction n as [|n IH]; intros w; cbn [prompt_gpt_attempts];
    unfold try_except, bind, chat_completions_create, ret, raise;
    destruct (complete (api_log w) rq); cbn; auto.
  destruct (IH {| api_log := api_log w ++ [rq];
                  client_calls := client_calls w;
                  files := files w |}) as [H1 H2].
  cbn in H1, H2. auto.
Qed.

Lemma home_prompt_gpt_counts (complete : service) (prompt : str) (w : world) :
  client_calls (snd (Home.prompt_gpt complete prompt 3 w))
  = S (client_calls w).
Proof.
  unfold Home.prompt_gpt, bind, count_client_call.
  apply (prompt_gpt_attempts_frame complete (Home.prompt_request prompt) _
           {| api_log := api_log w; client_calls := S (client_calls w);
              files := files w |}).
Qed.

Lemma findall_without_lt (n : nat) (prev : option char) (s : str) :
  contains (lit "<") s = false ->
  Re.findall_from n Re.html_tag prev s = [].
Proof.
  revert prev s. induction n as [|n IH]; intros prev s H; [reflexivity|].
  destruct s as [|c r]; [reflexivity|].
  rewrite contains_cons in H. apply orb_false_iff in H as [Hc Hr].
  cbn in Hc. rewrite andb_true_r in Hc.
  cbn [Re.findall_from]. unfold Re.html_tag at 1.
  replace (eqb c lt_sign) with false.
  - apply IH, Hr.
  - symmetry. unfold eqb, lt_sign in *. rewrite N.eqb_sym. exact Hc.
Qed.

Lemma no_html_no_tags (reference : str) :
  Home.wants_html (Some reference) = false -> tag_count reference = 0.
Proof.
  unfold Home.wants_html, tag_count, Re.findall. intros H.
  apply andb_false_iff in H as [H | H].
  - destruct reference; [reflexivity|discriminate].
  - rewrite findall_without_lt by exact H. reflexivity.
Qed.

Lemma validate_html_format_true (t reference : str) :
  Home.validate_html_format t (Some reference) = true ->
  tag_count reference <= tag_count t.
Proof.
  unfold Home.validate_html_format.
  destruct (truthy reference && contains (lit "<") reference) eqn:E.
  - intros H. apply Nat.leb_le in H. exact H.
  - intros _. rewrite (no_html_no_tags reference E). lia.
Qed.

Lemma validate_html_format_false (t reference : str) :
  tag_count t < tag_count reference ->
  Home.validate_html_format t (Some reference) = false
  /\ Home.wants_html (Some reference) = true.
Proof.
  intros H. unfold Home.validate_html_format, Home.wants_html.
  destruct (truthy reference && contains (lit "<") reference) eqn:E.
  - split; [|reflexivity]. apply Nat.leb_gt. exact H.
  - rewrite (no_html_no_tags reference E) in H. lia.
Qed.

Lemma format_attempts_unfold (complete : service)
    (expected_format : option str) (more : nat) (prompt : str) (w : world) :
  Home.format_attempts complete more prompt expected_format w
  = match Home.prompt_gpt complete prompt 3 w with
    | (Ok t, w1) =>
        if Home.validate_html_format t expected_format then (Ok t, w1)
        else match more with
             | O => (Ok t, w1)
             | S n =>
                 Home.format_attempts complete n
                   (prompt ++ Home.format_reminder) expected_format w1
             end
    | (Raise e, w1) => (Raise e, w1)
    end.
Proof.
  destruct more; cbn [Home.format_attempts]; unfold bind at 1;
    destruct (Home.prompt_gpt complete prompt 3 w) as [[t|e] w1];
    try reflexivity;
    destruct (Home.validate_html_format t expected_format); reflexivity.
Qed.

(** The loop makes at most [S more] calls of the client, and a result
    returned before the last of them has passed the validation. *)
Lemma format_attempts_calls (complete : service)
    (expected_format : option str) (more : nat) :
  forall (prompt : str) (w : world),
    let out := Home.format_attempts complete more prompt expected_format w in
    S (client_calls w) <= client_calls (snd out)
    /\ client_calls (snd out) <= client_calls w + S more
    /\ (forall t, fst out = Ok t ->
          client_calls (snd out) < client_calls w + S more ->
          Home.validate_html_format t expected_format = true).
Proof.
  induction more as [|more IH]; intros prompt w out; subst out;
    rewrite format_attempts_unfold;
    pose proof (home_prompt_gpt_counts complete prompt w) as Hc;
    destruct (Home.prompt_gpt complete prompt 3 w) as [[t1|e1] w1];
    cbn [fst snd] in *.
  - destruct (Home.validate_html_format t1 expected_format) eqn:V;
      cbn [fst snd]; rewrite Hc;
      (split; [lia|split; [lia|]]); intros t Ht Hlt; [congruence|lia].
  - rewrite Hc. split; [lia|split; [lia|]]. intros t Ht. discriminate.
  - destruct (Home.validate_html_format t1 expected_format) eqn:V.
    + cbn [fst snd]; rewrite Hc.
      split; [lia|split; [lia|]]. intros t Ht _. congruence.
    + specialize (IH (prompt ++ Home.format_reminder) w1). cbn zeta in IH.
      destruct IH as (H1 & H2 & H3). rewrite Hc in *.
      split; [lia|split; [lia|]]. intros t Ht Hlt. apply H3; [exact Ht|lia].
  - rewrite Hc. split; [lia|split; [lia|]]. intros t Ht. discriminate.
Qed.

(** C5.  For a reference example holding [k] tags,
    [generate_with_format_validation] calls the client at least once and at
    most three times; a result returned before the third call holds at
    least [k] tags, as the pattern counts them; and when the first two
    results hold fewer than [k] tags, whatever the third call of the client
    yields is the outcome, unvalidated: its text is returned even if it
    holds fewer tags, and nothing is raised on account of the validation. *)
Theorem generate_with_format_validation_loop (complete : service)
    (prompt reference : str) (w : world) :
  let k := tag_count reference in
  let out :=
    Home.generate_with_format_validation complete prompt (Some reference) w in
  (S (client_calls w) <= client_calls (snd out)
   /\ client_calls (snd out) <= client_calls w + 3)
  /\ (forall t, fst out = Ok t ->
        client_calls (snd out) < client_calls w + 3 -> k <= tag_count t)
  /\ (forall t1 w1 t2 w2 r3 w3,
        let p1 := prompt ++ Home.format_instruction reference in
        let p2 := p1 ++ Home.format_reminder in
        let p3 := p2 ++ Home.format_reminder in
        Home.prompt_gpt complete p1 3 w = (Ok t1, w1) ->
        tag_count t1 < k ->
        Home.prompt_gpt complete p2 3 w1 = (Ok t2, w2) ->
        tag_count t2 < k ->
        Home.prompt_gpt complete p3 3 w2 = (r3, w3) ->
        out = (r3, w3) /\ client_calls w3 = client_calls w + 3).
Proof.
  intros k out.
  unfold Home.generate_with_format_validation in out.
  set (p := if truthy reference && contains (lit "<") reference
            then prompt ++ Home.format_instruction reference
            else prompt) in out.
  destruct (format_attempts_calls complete (Some reference) 2 p w)
    as (H1 & H2 & H3).
  fold out in H1, H2, H3.
  split; [split; assumption|]. split.
  - intros t Ht Hlt. apply validate_html_format_true. apply H3; assumption.
  - intros t1 w1 t2 w2 r3 w3 p1 p2 p3 E1 K1 E2 K2 E3.
    destruct (validate_html_format_false _ _ K1) as [V1 Hw].
    destruct (validate_html_format_false _ _ K2) as [V2 _].
    assert (Hp : p = p1).
    { subst p p1. unfold Home.wants_html in Hw. rewrite Hw. reflexivity. }
    split.
    + subst out. rewrite Hp, format_attempts_unfold, E1, V1.
      rewrite format_attempts_unfold. fold p2. rewrite E2, V2.
      rewrite format_attempts_unfold. fold p3. rewrite E3.
      destruct r3 as [t3|e3]; [|reflexivity].
      destruct (Home.validate_html_format t3 (Some reference)); reflexivity.
    + pose proof (home_prompt_gpt_counts complete p1 w) as C1.
      pose proof (home_prompt_gpt_counts complete p2 w1) as C2.
      pose proof (home_prompt_gpt_counts complete p3 w2) as C3.
      rewrite E1 in C1. rewrite E2 in C2. rewrite E3 in C3.
      cbn [snd] in *. lia.
Qed.

Lemma generate_with_format_validation_loop_witness :
  let out :=
    Home.generate_with_format_validation (service_saying (lit "plain"))
      (lit "Write a heading.") (Some (lit "<p>Text</p>")) no_files in
  tag_count (lit "plain") < tag_count (lit "<p>Text</p>")
  /\ fst out = Ok (lit "plain")
  /\ client_calls (snd out) = 3.
Proof.
  destruct (generate_with_format_validation_loop
              (service_saying (lit "plain")) (lit "Write a heading.")
              (lit "<p>Text</p>") no_files) as (_ & _ & H3).
  assert (K : tag_count (lit "plain") < tag_count (lit "<p>Text</p>"))
    by (vm_compute; lia).
  edestruct H3 as [Hout Hc].
  - vm_compute. reflexivity.
  - exact K.
  - vm_compute. reflexivity.
  - exact K.
  - vm_compute. reflexivity.
  - split; [exact K|]. cbv zeta. rewrite Hout. split; reflexivity.
Defined.

Lemma home_generate_single_call (complete : service) (prompt : str)
    (expected_format : option str) (w : world) :
  Home.wants_html expected_format = false ->
  Home.generate_with_format_validation complete prompt expected_format w
  = Home.prompt_gpt complete prompt 3 w.
Proof.
  intros H. unfold Home.generate_with_format_validation.
  assert (V : forall t, Home.validate_html_format t expected_format = true).
  { intros t. unfold Home.validate_html_format, Home.wants_html in *.
    destruct expected_format as [f|]; [|reflexivity]. rewrite H. reflexivity. }
  assert (Hp : match expected_format with
               | Some f =>
                   if truthy f && contains (lit "<") f
                   then prompt ++ Home.format_instruction f
                   else prompt
               | None => prompt
               end = prompt).
  { unfold Home.wants_html in H.
    destruct expected_format as [f|]; [|reflexivity]. rewrite H. reflexivity. }
  rewrite Hp, format_attempts_unfold.
  destruct (Home.prompt_gpt complete prompt 3 w) as [[t|e] w1];
    [|reflexivity].
  rewrite V. reflexivity.
Qed.

Lemma product_generate_single_call (complete : service) (prompt : str)
    (expected_format : option str) (max_tokens : N) (w : world) :
  Home.wants_html expected_format = false ->
  Product.generate_with_format_validation complete prompt expected_format
    max_tokens w
  = Product.prompt_gpt complete prompt 3 max_tokens w.
Proof.
  intros H. unfold Product.generate_with_format_validation.
  assert (V : forall t, Product.validate_html_format t expected_format = true).
  { intros t. unfold Product.validate_html_format, Home.wants_html in *.
    destruct expected_format as [f|]; [|reflexivity]. rewrite H. reflexivity. }
  assert (Hp : match expected_format with
               | Some f =>
                   if truthy f && contains (lit "<") f
                   then prompt ++ Home.format_instruction f
                   else prompt
               | None => prompt
               end = prompt).
  { unfold Home.wants_html in H.
    destruct expected_format as [f|]; [|reflexivity]. rewrite H. reflexivity. }
  rewrite Hp. cbn [Product.format_attempts]. unfold bind at 1.
  destruct (Product.prompt_gpt complete prompt 3 max_tokens w) as [[t|e] w1];
    [|reflexivity].
  rewrite V. reflexivity.
Qed.

(** C10.  When the reference is [None], or empty, or holds no [<],
    [generate_with_format_validation] is one call of [prompt_gpt] on the
    prompt as it was given: nothing is appended to the prompt, the client is
    called once, and what it yields is the outcome, unvalidated.  The video
    heading of the home page is generated against the reference
    [**Transform** Your Experience], which holds no [<], so that its first
    output is accepted whatever it is. *)
Theorem generate_without_html_reference (complete : service) (prompt : str)
    (expected_format : option str) (max_tokens : N) (w : world) :
  Home.wants_html expected_format = false ->
  Home.generate_with_format_validation complete prompt expected_format w
    = Home.prompt_gpt complete prompt 3 w
  /\ client_calls
       (snd (Home.generate_with_format_validation complete prompt
               expected_format w))
     = S (client_calls w)
  /\ Product.generate_with_format_validation complete prompt expected_format
       max_tokens w
     = Product.prompt_gpt complete prompt 3 max_tokens w
  /\ Home.wants_html (Some (lit "**Transform** Your Experience")) = false
  /\ In (Home.TextUnit "generate_video_heading_prompt"
           (Validated (lit "**Transform** Your Experience"))
           (lit "NEW_VIDEO_HEADING_GENERATED"))
        Home.content_units
  /\ Home.generate complete (Validated (lit "**Transform** Your Experience"))
       prompt w
     = Home.prompt_gpt complete prompt 3 w.
Proof.
  intros H. split; [|split; [|split; [|split; [|split]]]].
  - apply home_generate_single_call, H.
  - rewrite (home_generate_single_call _ _ _ _ H).
    apply home_prompt_gpt_counts.
  - apply product_generate_single_call, H.
  - reflexivity.
  - unfold Home.content_units. do 8 right. left. reflexivity.
  - unfold Home.generate. apply home_generate_single_call. reflexivity.
Qed.

Lemma generate_without_html_reference_witness :
  Home.wants_html (Some (lit "**Transform** Your Experience")) = false
  /\ Home.generate_with_format_validation (service_saying (lit "anything"))
       (lit "Write a heading.")
       (Some (lit "**Transform** Your Experience")) no_files
     = Home.prompt_gpt (service_saying (lit "anything"))
         (lit "Write a heading.") 3 no_files.
Proof.
  split; [reflexivity|].
  exact (proj1 (generate_without_html_reference
                  (service_saying (lit "anything")) (lit "Write a heading.")
                  (Some (lit "**Transform** Your Experience")) 300%N no_files
                  eq_refl)).
Defined.

(** ** The two-strike recovery of the product page *)

Lemma printed_true (console : str -> option exn) (text : str) :
  printed console text = true -> console text = None.
Proof. unfold printed. destruct (console text); [discriminate|reflexivity]. Qed.

(** When its messages are printed, a call of the recovery step is one
    request, and the text handed back is [recovered]. *)
Lemma repair_when_printed (complete : service) (console : str -> option exn)
    (broken_json context : str) (keys : option (list str)) (w : world) :
  let rq := Product.fix_request broken_json context keys in
  repair_printed console broken_json context (complete (api_log w) rq) = true ->
  repair complete console broken_json context keys w
  = (recovered broken_json (complete (api_log w) rq), sent w rq).
Proof.
  intros rq H. unfold repair_printed in H.
  apply andb_true_iff in H as [H1 H2].
  unfold repair, recovered. fold rq.
  rewrite (printed_true _ _ H1).
  destruct (complete (api_log w) rq) as [t|e]; [|reflexivity].
  cbv zeta. rewrite (printed_true _ _ H2). reflexivity.
Qed.

Lemma parse_or_recover_outcome (complete : service)
    (json_loads : str -> result value) (console : str -> option exn)
    (g : Product.unit_group) (result : str) (w : world) :
  Product.parse_or_recover complete json_loads console g result w
  = recovery_outcome complete json_loads console g result w.
Proof.
  unfold Product.parse_or_recover, recovery_outcome, Product.loads, lift.
  unfold try_except at 1.
  destruct (json_loads (Product.clean_json_response result)) as [v|e0];
    [reflexivity|].
  unfold bind at 1. unfold py_print at 1.
  destruct (console (Product.parse_failure_message g result)) as [e|];
    [reflexivity|].
  unfold try_except at 1. unfold bind at 1.
  rewrite product_fix_json_with_gpt_eq.
  destruct (json_loads (fst (repair _ _ _ _ _ _))) as [v|e1]; [reflexivity|].
  unfold try_except at 1. unfold bind at 1.
  rewrite product_fix_json_with_gpt_eq.
  destruct (json_loads (fst (repair _ _ _ _ _ _))) as [v|e2]; reflexivity.
Qed.

Lemma for_each_app {A} (l1 l2 : list A) (body : A -> M unit) (w : world) :
  for_each (l1 ++ l2) body w
  = match for_each l1 body w with
    | (Ok _, w1) => for_each l2 body w1
    | (Raise e, w1) => (Raise e, w1)
    end.
Proof.
  revert w. induction l1 as [|a l1 IH]; intros w; [reflexivity|].
  cbn [app for_each]. unfold bind.
  destruct (body a w) as [[[]|e] w1]; [apply IH|reflexivity].
Qed.

(** C4, where the product script departs from it.  The console has the
    encoding UTF-8 and the text generated for the first group, the
    announcements, holds a lone surrogate and does not parse.  The handler
    prints the start of that text before it calls the recovery step; the
    print raises, and its exception ends the run: the one request in the log
    is that of the generation, the recovery step was never called, and the
    exception is not that of the group.  On a console that prints the text,
    the same run sends the two recovery requests and ends with the exception
    of the group. *)
Theorem unprintable_result_skips_recovery :
  let run console :=
    Product.process_product_generated_content surrogate_service toy_loads
      console toy_render "product.json" (lit "Acme") (lit "Mouse")
      (lit "A mouse") (lit "French") toy_page in
  toy_loads (Product.clean_json_response surrogate_answer)
  = Raise JSONDecodeError
  /\ fst (run utf8_console) = Raise UnicodeEncodeError
  /\ api_log (snd (run utf8_console))
     = [Product.prompt_request
          (lit "generate_announcements_prompt"
           ++ Home.format_instruction (lit "<h1>Text</h1>")) 500]
  /\ files (snd (run utf8_console)) = files toy_page
  /\ fst (run any_console)
     = Raise (Exception
                (lit "Failed to generate valid announcements JSON after retries."))
  /\ length (api_log (snd (run any_console))) = 3.
Proof.
  vm_compute. repeat split.
Qed.

(** ** The response sanitiser *)

(** Six backticks: the pattern for the closing fence finds its match at the
    last three, the first three stay, and a second pass removes them.  The
    same happens with a text followed by two fences. *)
Lemma sanitizer_is_not_idempotent :
  Home.clean_json_response (lit "``````") = lit "```"
  /\ Home.clean_json_response (lit "```") = []
  /\ Home.clean_json_response (Home.clean_json_response (lit "``````"))
     <> Home.clean_json_response (lit "``````")
  /\ Product.clean_json_response
       (Product.clean_json_response (lit "``````"))
     <> Product.clean_json_response (lit "``````")
  /\ Home.clean_json_response (lit "{}``` ```") = lit "{}```"
  /\ Home.clean_json_response (Home.clean_json_response (lit "{}``` ```"))
     = lit "{}".
Proof.
  repeat split; try (vm_compute; reflexivity); vm_compute; discriminate.
Qed.

(** *** White space at the ends *)

Lemma lstrip_idempotent (s : str) : lstrip (lstrip s) = lstrip s.
Proof.
  induction s as [|c r IH]; [reflexivity|]. cbn.
  destruct (isspace c) eqn:E; [exact IH|]. cbn. rewrite E. reflexivity.
Qed.

Lemma lstrip_snoc (a : str) (c : char) :
  isspace c = false -> lstrip (a ++ [c]) = lstrip a ++ [c].
Proof.
  intros Hc. induction a as [|x a IH]; cbn.
  - rewrite Hc. reflexivity.
  - destruct (isspace x); [exact IH|reflexivity].
Qed.

Lemma lstrip_split (s : str) :
  exists ws, s = ws ++ lstrip s /\ forallb isspace ws = true.
Proof.
  induction s as [|c r (ws & E & H)]; [exists []; auto|]. cbn.
  destruct (isspace c) eqn:Ec.
  - exists (c :: ws). cbn. rewrite Ec, H. split; [f_equal; exact E|reflexivity].
  - exists []. auto.
Qed.

Lemma rstrip_split (s : str) :
  exists ws, s = rstrip s ++ ws /\ forallb isspace ws = true.
Proof.
  destruct (lstrip_split (rev s)) as (ws & E & H).
  exists (rev ws). split.
  - unfold rstrip. rewrite <- rev_app_distr, <- E, rev_involutive.
    reflexivity.
  - rewrite forallb_forall in *. intros x Hx. apply H.
    apply in_rev. exact Hx.
Qed.

Lemma rstrip_idempotent (s : str) : rstrip (rstrip s) = rstrip s.
Proof.
  unfold rstrip. rewrite rev_involutive, lstrip_idempotent. reflexivity.
Qed.

Lemma lstrip_rstrip_lstrip (s : str) :
  lstrip (rstrip (lstrip s)) = rstrip (lstrip s).
Proof.
  assert (H : lstrip s = [] \/
              exists c r, lstrip s = c :: r /\ isspace c = false).
  { induction s as [|c r IH]; [left; reflexivity|]. cbn.
    destruct (isspace c) eqn:E; [exact IH|]. right. eauto. }
  destruct H as [-> | (c & r & -> & Hc)]; [reflexivity|].
  unfold rstrip. cbn [rev]. rewrite (lstrip_snoc _ _ Hc), rev_app_distr.
  cbn. rewrite Hc. reflexivity.
Qed.

Lemma strip_fixed (s : str) : strip (strip s) = strip s.
Proof.
  unfold strip. rewrite lstrip_rstrip_lstrip. apply rstrip_idempotent.
Qed.

(** *** Patterns that find nothing *)

Lemma contains_drop (p s : str) (k : nat) :
  contains p s = false -> startswith p (drop k s) = false.
Proof.
  revert k. induction s as [|c r IH]; intros k H.
  - rewrite drop_nil. apply contains_head, H.
  - destruct k as [|k]; [apply contains_head, H|].
    cbn [drop]. apply IH. exact (contains_tail _ _ _ H).
Qed.

Lemma startswith_longer (p q s : str) :
  startswith p s = false -> startswith (p ++ q) s = false.
Proof.
  revert s. induction p as [|a p IH]; intros s H; [discriminate|].
  destruct s as [|b s]; [reflexivity|]. cbn in *.
  destruct (eqb a b); [apply IH, H|reflexivity].
Qed.

Lemma sub_from_no_match (m : Re.matcher) (repl : str) (n : nat) :
  forall (s : str) (prev : option char),
    (forall k p, m p (drop k s) = None) ->
    Re.sub_from n m repl prev s = s.
Proof.
  induction n as [|n IH]; intros s prev H; [reflexivity|].
  destruct s as [|c r]; [reflexivity|].
  pose proof (H 0 prev) as H0. cbn in H0.
  cbn [Re.sub_from]. rewrite H0. f_equal. apply IH.
  intros k p. exact (H (S k) p).
Qed.

Lemma fence_json_finds_nothing (s : str) :
  contains fence s = false -> Re.sub Re.fence_json [] s = s.
Proof.
  intros H. apply sub_from_no_match. intros k p. unfold Re.fence_json.
  change (lit "```json") with (fence ++ lit "json").
  rewrite (startswith_longer _ _ _ (contains_drop _ _ k H)). reflexivity.
Qed.

Lemma fence_end_finds_nothing (s : str) :
  contains fence s = false -> Re.sub Re.fence_end [] s = s.
Proof.
  intros H. apply sub_from_no_match. intros k p. unfold Re.fence_end.
  fold fence. rewrite (contains_drop _ _ k H). reflexivity.
Qed.

Lemma replace_same (old s : str) : old <> [] -> replace old old s = s.
Proof.
  intros Hold.
  induction s as [|t IHt|c r E IHr] using (replace_scan_ind old Hold).
  - apply replace_nil, Hold.
  - rewrite replace_match, IHt by assumption. reflexivity.
  - rewrite replace_step, IHr by assumption. reflexivity.
Qed.

(** On a text without fence and without the literal of the fourth line, the
    sanitiser of the home script only strips. *)
Lemma home_clean_is_strip (y : str) :
  contains fence y = false -> contains quote_literal y = false ->
  Home.clean_json_response y = strip y.
Proof.
  intros Hf Hq. unfold Home.clean_json_response.
  rewrite (fence_json_finds_nothing _ Hf), (fence_end_finds_nothing _ Hf).
  rewrite !replace_same by discriminate.
  rewrite (replace_absent _ _ _ Hq). reflexivity.
Qed.

(** *** The apostrophes of the product script *)

Lemma unescaped_quote_eq (prev : option char) (c : char) (r : str) :
  Re.unescaped_quote prev (c :: r)
  = if eqb c squote && negb (guarded prev) && Nat.even (quotes r)
    then Some 1 else None.
Proof. reflexivity. Qed.

Lemma quotes_cons (c : char) (r : str) :
  quotes (c :: r) = if eqb c squote then S (quotes r) else quotes r.
Proof.
  unfold quotes. cbn [count_occ]. unfold eqb.
  destruct (N.eq_dec c squote) as [->|Hne].
  - rewrite N.eqb_refl. reflexivity.
  - apply N.eqb_neq in Hne. rewrite Hne. reflexivity.
Qed.

Lemma quotes_app (a b : str) : quotes (a ++ b) = quotes a + quotes b.
Proof. apply count_occ_app. Qed.

Lemma escape_cons (prev : option char) (c : char) (r : str) :
  escape prev (c :: r)
  = match Re.unescaped_quote prev (c :: r) with
    | Some _ => backslash :: squote :: escape (Some c) r
    | None => c :: escape (Some c) r
    end.
Proof.
  unfold escape. cbn [length Re.sub_from]. rewrite unescaped_quote_eq.
  destruct (eqb c squote && negb (guarded prev) && Nat.even (quotes r));
    reflexivity.
Qed.

Lemma unescaped_quote_is_quote (prev : option char) (c : char) (r : str)
    (k : nat) :
  Re.unescaped_quote prev (c :: r) = Some k -> c = squote.
Proof.
  rewrite unescaped_quote_eq.
  destruct (eqb c squote) eqn:E; [|discriminate].
  intros _. apply eqb_eq, E.
Qed.

Lemma quotes_escape (s : str) :
  forall prev, quotes (escape prev s) = quotes s.
Proof.
  induction s as [|c r IH]; intros prev; [reflexivity|].
  rewrite escape_cons.
  destruct (Re.unescaped_quote prev (c :: r)) as [k|] eqn:U.
  - apply unescaped_quote_is_quote in U. subst c.
    rewrite !quotes_cons. cbn. rewrite IH. reflexivity.
  - rewrite !quotes_cons, IH. reflexivity.
Qed.

Lemma settled_escape (s : str) :
  forall prev, settled prev (escape prev s) = true.
Proof.
  induction s as [|c r IH]; intros prev; [reflexivity|].
  rewrite escape_cons.
  destruct (Re.unescaped_quote prev (c :: r)) as [k|] eqn:U.
  - apply unescaped_quote_is_quote in U. subst c.
    cbn [settled]. rewrite !unescaped_quote_eq. cbn. apply IH.
  - cbn [settled]. rewrite unescaped_quote_eq, quotes_escape.
    rewrite <- unescaped_quote_eq, U. apply IH.
Qed.

Lemma settled_fixed (n : nat) :
  forall (s : str) (prev : option char),
    settled prev s = true ->
    Re.sub_from n Re.unescaped_quote [backslash; squote] prev s = s.
Proof.
  induction n as [|n IH]; intros s prev H; [reflexivity|].
  destruct s as [|c r]; [reflexivity|].
  cbn [settled] in H. cbn [Re.sub_from].
  destruct (Re.unescaped_quote prev (c :: r)); [discriminate|].
  f_equal. apply IH, H.
Qed.

Lemma settled_prev (p1 p2 : option char) (s : str) :
  guarded p1 = guarded p2 -> settled p1 s = settled p2 s.
Proof.
  intros H. destruct s as [|c r]; [reflexivity|].
  cbn [settled]. rewrite !unescaped_quote_eq, H. reflexivity.
Qed.

Lemma settled_cons (prev : option char) (c : char) (r : str) :
  settled prev (c :: r) = true <->
  eqb c squote && negb (guarded prev) && Nat.even (quotes r) = false
  /\ settled (Some c) r = true.
Proof.
  cbn [settled]. rewrite unescaped_quote_eq.
  destruct (eqb c squote && negb (guarded prev) && Nat.even (quotes r)).
  - split; [discriminate|intros [? _]; discriminate].
  - tauto.
Qed.

Lemma isspace_not_quote (ws : str) :
  forallb isspace ws = true -> quotes ws = 0.
Proof.
  induction ws as [|c r IH]; [reflexivity|]. cbn [forallb].
  intros H. apply andb_true_iff in H as [Hc Hr].
  rewrite quotes_cons, (IH Hr).
  destruct (eqb c squote) eqn:E; [|reflexivity].
  apply eqb_eq in E. subst c. discriminate.
Qed.

Lemma isspace_not_backslash (c : char) :
  isspace c = true -> guarded (Some c) = false.
Proof.
  intros H. cbn. destruct (eqb c backslash) eqn:E; [|reflexivity].
  apply eqb_eq in E. subst c. discriminate.
Qed.

Lemma settled_lstrip (s : str) :
  settled None s = true -> settled None (lstrip s) = true.
Proof.
  induction s as [|c r IH]; [reflexivity|]. intros H. cbn [lstrip].
  destruct (isspace c) eqn:E; [|exact H].
  apply IH. apply settled_cons in H as [_ H].
  rewrite (settled_prev None (Some c)); [exact H|].
  symmetry. apply isspace_not_backslash, E.
Qed.

Lemma settled_without_tail (a ws : str) :
  quotes ws = 0 ->
  forall prev, settled prev (a ++ ws) = true -> settled prev a = true.
Proof.
  intros Hws. induction a as [|c r IH]; intros prev H; [reflexivity|].
  cbn [app] in H. apply settled_cons in H as [H1 H2].
  apply settled_cons. split; [|apply IH, H2].
  rewrite quotes_app, Hws, Nat.add_0_r in H1. exact H1.
Qed.

Lemma settled_strip (s : str) :
  settled None s = true -> settled None (strip s) = true.
Proof.
  intros H. apply settled_lstrip in H. unfold strip.
  destruct (rstrip_split (lstrip s)) as (ws & E & Hws).
  rewrite E in H.
  exact (settled_without_tail _ ws (isspace_not_quote _ Hws) None H).
Qed.

Lemma quote_literal_not_nil : quote_literal <> [].
Proof. discriminate. Qed.

Lemma quotes_replace_literal (s : str) :
  quotes (replace quote_literal (lit "'") s) = quotes s.
Proof.
  induction s as [|t IHt|c r E IHr]
    using (replace_scan_ind quote_literal quote_literal_not_nil).
  - rewrite replace_nil by discriminate. reflexivity.
  - rewrite replace_match by discriminate.
    rewrite !quotes_app, IHt. reflexivity.
  - rewrite replace_step by (discriminate || assumption).
    rewrite !quotes_cons, IHr. reflexivity.
Qed.

Lemma settled_after (a b : str) :
  forall prev,
    settled prev (a ++ b) = true ->
    settled (match last a with Some c => Some c | None => prev end) b = true.
Proof.
  induction a as [|c a IH]; intros prev H; [exact H|].
  cbn [app] in H. apply settled_cons in H as [_ H].
  apply IH in H. destruct a as [|d a]; [exact H|].
  rewrite last_cons_cons. destruct (last (d :: a)) eqn:El; [exact H|].
  apply last_None in El. discriminate.
Qed.

(** After the literal, the text is read after a parenthesis, and the
    apostrophe of the literal, which no backslash precedes, is settled only
    if an odd number of apostrophes follows the literal. *)
Lemma settled_literal (prev : option char) (t : str) :
  settled prev (quote_literal ++ t) = true ->
  Nat.even (quotes t) = false /\ settled (Some 40%N) t = true.
Proof.
  intros H.
  change (quote_literal ++ t)
    with ((lit ", " ++ [dquote])
            ++ squote :: ([dquote] ++ lit ").replace(") ++ t) in H.
  apply settled_after in H.
  change (last (lit ", " ++ [dquote])) with (Some dquote) in H.
  apply settled_cons in H as [Hq H].
  apply settled_after in H.
  change (last ([dquote] ++ lit ").replace(")) with (Some 40%N) in H.
  split; [|exact H].
  rewrite quotes_app in Hq.
  change (quotes ([dquote] ++ lit ").replace(")) with 0 in Hq.
  exact Hq.
Qed.

Lemma settled_replace_literal (s : str) :
  forall prev,
    settled prev s = true ->
    settled prev (replace quote_literal (lit "'") s) = true.
Proof.
  induction s as [|t IHt|c r E IHr]
    using (replace_scan_ind quote_literal quote_literal_not_nil);
    intros prev H.
  - rewrite replace_nil by discriminate. reflexivity.
  - rewrite replace_match by discriminate.
    change (lit "'" ++ replace quote_literal (lit "'") t)
      with (squote :: replace quote_literal (lit "'") t).
    apply settled_literal in H as [Hq Ht].
    apply settled_cons. split.
    + rewrite quotes_replace_literal, Hq. apply andb_false_r.
    + rewrite (settled_prev (Some squote) (Some 40%N)) by reflexivity.
      apply IHt, Ht.
  - rewrite replace_step by (discriminate || assumption).
    apply settled_cons in H as [H1 H2]. apply settled_cons. split.
    + rewrite quotes_replace_literal. exact H1.
    + apply IHr, H2.
Qed.

Lemma product_clean_settled (x : str) :
  settled None (Product.clean_json_response x) = true.
Proof.
  unfold Product.clean_json_response.
  apply settled_strip, settled_replace_literal.
  apply (settled_escape _ None).
Qed.

(** On a settled text without fence and without the literal, the sanitiser
    of the product script only strips. *)
Lemma product_clean_is_strip (y : str) :
  contains fence y = false -> contains quote_literal y = false ->
  settled None y = true ->
  Product.clean_json_response y = strip y.
Proof.
  intros Hf Hq Hs. unfold Product.clean_json_response.
  rewrite (fence_json_finds_nothing _ Hf), (fence_end_finds_nothing _ Hf).
  rewrite !replace_same by discriminate.
  unfold Re.sub at 1. rewrite (settled_fixed _ _ _ Hs).
  rewrite (replace_absent _ _ _ Hq). reflexivity.
Qed.

(** C1, as the scripts have it.  A second pass of [clean_json_response]
    changes nothing whenever the first pass has left neither a fence of
    three backticks nor the literal of the fourth line in the text.  This
    holds for the sanitiser of the home and footer scripts and for that of
    the product script, which escapes apostrophes as well. *)
Theorem sanitizer_idempotent_without_fence (x : str) :
  (contains fence (Home.clean_json_response x) = false ->
   contains quote_literal (Home.clean_json_response x) = false ->
   Home.clean_json_response (Home.clean_json_response x)
   = Home.clean_json_response x)
  /\ (contains fence (Product.clean_json_response x) = false ->
      contains quote_literal (Product.clean_json_response x) = false ->
      Product.clean_json_response (Product.clean_json_response x)
      = Product.clean_json_response x).
Proof.
  split; intros Hf Hq.
  - rewrite (home_clean_is_strip _ Hf Hq).
    unfold Home.clean_json_response. apply strip_fixed.
  - rewrite (product_clean_is_strip _ Hf Hq (product_clean_settled x)).
    unfold Product.clean_json_response. apply strip_fixed.
Qed.

Lemma sanitizer_idempotent_without_fence_witness :
  Home.clean_json_response fenced_answer = lit "{'title': 'l\'offre'}"
  /\ Home.clean_json_response (Home.clean_json_response fenced_answer)
     = Home.clean_json_response fenced_answer
  /\ Product.clean_json_response (Product.clean_json_response fenced_answer)
     = Product.clean_json_response fenced_answer.
Proof.
  destruct (sanitizer_idempotent_without_fence fenced_answer) as [H P].
  split; [reflexivity|]. split.
  - apply H; reflexivity.
  - apply P; reflexivity.
Defined.

(** * Further properties of the scripts *)

(** ** The client with any retry count *)

Lemma prompt_gpt_attempts_bounded (complete : service) (rq : request)
    (k : nat) :
  forall w : world,
    bounded_attempts complete rq (S k) w (prompt_gpt_attempts complete rq k w).
Proof.
  induction k as [|k IH]; intros w; unfold bounded_attempts;
    cbn [prompt_gpt_attempts];
    unfold try_except, bind, chat_completions_create, ret, raise;
    assert (A0 : api_log w ++ repeat rq 0 = api_log w) by apply app_nil_r;
    destruct (complete (api_log w) rq) as [t0|e0] eqn:E0; cbn [fst snd].
  - exists 1. change (1 - 1) with 0. rewrite A0, E0.
    split; [lia|]. split; [reflexivity|]. split; [reflexivity|].
    split; [intros i Hi; lia|]. split; [reflexivity|].
    intros t [= <-]. apply strip_fixed.
  - exists 1. change (1 - 1) with 0. rewrite A0, E0.
    split; [lia|]. split; [reflexivity|]. split; [reflexivity|].
    split; [intros i Hi; lia|]. split; [auto|]. intros t Ht. discriminate.
  - exists 1. change (1 - 1) with 0. rewrite A0, E0.
    split; [lia|]. split; [reflexivity|]. split; [reflexivity|].
    split; [intros i Hi; lia|]. split; [reflexivity|].
    intros t [= <-]. apply strip_fixed.
  - specialize (IH (sent w rq)).
    destruct IH as (n & Hn & Hlog & Hfiles & Hearly & Hlast & Hstrip).
    assert (shift : forall i,
              api_log (sent w rq) ++ repeat rq i
              = api_log w ++ repeat rq (S i)).
    { intros i. cbn. rewrite <- app_assoc. reflexivity. }
    change {| api_log := api_log w ++ [rq];
              client_calls := client_calls w;
              files := files w |} with (sent w rq).
    exists (S n). split; [lia|]. split; [rewrite Hlog; apply shift|].
    split; [exact Hfiles|]. split; [|split; [|exact Hstrip]].
    + intros i Hi. destruct i as [|i].
      * rewrite A0. eauto.
      * rewrite <- shift. apply Hearly. lia.
    + replace (S n - 1) with (S (n - 1)) by lia. rewrite <- shift.
      destruct (complete (api_log (sent w rq) ++ repeat rq (n - 1)) rq);
        [exact Hlast|].
      destruct Hlast as [-> Hr]. auto.
Qed.

(** X1.  Whatever positive retry count [prompt_gpt] is given, it makes at
    least one attempt and at most that many, all with the same request; the
    attempts before the last one failed; it returns the stripped text of the
    first attempt that answers, or raises the exception of the last allowed
    attempt when none does; it leaves the files alone; and a text that it
    returns has no white space at either end. *)
Theorem prompt_gpt_any_retry_count (complete : service) (prompt : str)
    (max_retries : positive) (max_tokens : N) (w : world) :
  bounded_attempts complete (Home.prompt_request prompt)
    (Pos.to_nat max_retries) w
    (Home.prompt_gpt complete prompt max_retries w)
  /\ bounded_attempts complete (Product.prompt_request prompt max_tokens)
       (Pos.to_nat max_retries) w
       (Product.prompt_gpt complete prompt max_retries max_tokens w).
Proof.
  assert (Hk : Pos.to_nat max_retries = S (Pos.to_nat max_retries - 1))
    by lia.
  split; rewrite Hk at 1;
    unfold Home.prompt_gpt, Product.prompt_gpt, bind, count_client_call.
  - apply (prompt_gpt_attempts_bounded complete (Home.prompt_request prompt)
             _ {| api_log := api_log w; client_calls := S (client_calls w);
                  files := files w |}).
  - apply (prompt_gpt_attempts_bounded complete
             (Product.prompt_request prompt max_tokens)
             _ {| api_log := api_log w; client_calls := S (client_calls w);
                  files := files w |}).
Qed.

(** ** What the format-preserving generator sends *)

Lemma startswith_refl (p : str) : startswith p p = true.
Proof.
  rewrite <- (app_nil_r p) at 2. apply startswith_app.
Qed.

Lemma home_prompt_gpt_sends (complete : service) (prompt0 prompt : str)
    (w : world) :
  startswith prompt0 prompt = true ->
  sends_within prompt0 1 3 w (Home.prompt_gpt complete prompt 3 w).
Proof.
  intros Hp.
  destruct (prompt_gpt_attempts_bounded complete (Home.prompt_request prompt)
              2 {| api_log := api_log w; client_calls := S (client_calls w);
                   files := files w |})
    as (n & Hn & Hlog & Hfiles & _).
  exists (repeat (Home.prompt_request prompt) n).
  split; [exact Hlog|]. split; [rewrite repeat_length; lia|].
  split; [|exact Hfiles].
  apply Forall_forall. intros rq Hrq. apply list_elem_of_In in Hrq.
  apply repeat_spec in Hrq. subst rq. split; [exact Hp|reflexivity].
Qed.

Lemma product_prompt_gpt_sends (complete : service) (prompt0 prompt : str)
    (max_tokens : N) (w : world) :
  startswith prompt0 prompt = true ->
  sends_within prompt0 1 3 w
    (Product.prompt_gpt complete prompt 3 max_tokens w).
Proof.
  intros Hp.
  destruct (prompt_gpt_attempts_bounded complete
              (Product.prompt_request prompt max_tokens)
              2 {| api_log := api_log w; client_calls := S (client_calls w);
                   files := files w |})
    as (n & Hn & Hlog & Hfiles & _).
  exists (repeat (Product.prompt_request prompt max_tokens) n).
  split; [exact Hlog|]. split; [rewrite repeat_length; lia|].
  split; [|exact Hfiles].
  apply Forall_forall. intros rq Hrq. apply list_elem_of_In in Hrq.
  apply repeat_spec in Hrq. subst rq. split; [exact Hp|reflexivity].
Qed.

(** Two runs in a row send what each sends. *)
Lemma sends_within_then (prompt0 : str) (lo1 hi1 lo2 hi2 : nat)
    (w w1 : world) (r1 : result str) (out : result str * world) :
  sends_within prompt0 lo1 hi1 w (r1, w1) ->
  sends_within prompt0 lo2 hi2 w1 out ->
  sends_within prompt0 (lo1 + lo2) (hi1 + hi2) w out.
Proof.
  intros (n1 & L1 & B1 & F1 & S1) (n2 & L2 & B2 & F2 & S2). cbn in L1, S1.
  exists (n1 ++ n2). split; [rewrite L2, L1, app_assoc; reflexivity|].
  split; [rewrite length_app; lia|]. split; [apply Forall_app; auto|].
  rewrite S2, S1. reflexivity.
Qed.

Lemma sends_within_weaken (prompt0 : str) (lo hi lo' hi' : nat) (w : world)
    (out : result str * world) :
  lo' <= lo -> hi <= hi' ->
  sends_within prompt0 lo hi w out -> sends_within prompt0 lo' hi' w out.
Proof.
  intros Hlo Hhi (n & L & B & F & S). exists n. repeat split; auto; lia.
Qed.

Lemma home_format_attempts_sends (complete : service)
    (expected_format : option str) (prompt0 : str) (more : nat) :
  forall (prompt : str) (w : world),
    startswith prompt0 prompt = true ->
    sends_within prompt0 1 (3 * S more) w
      (Home.format_attempts complete more prompt expected_format w).
Proof.
  induction more as [|more IH]; intros prompt w Hp;
    rewrite format_attempts_unfold;
    pose proof (home_prompt_gpt_sends complete prompt0 prompt w Hp) as H1;
    destruct (Home.prompt_gpt complete prompt 3 w) as [[t|e] w1];
    try (apply (sends_within_weaken prompt0 1 3); [lia|lia|exact H1]);
    destruct (Home.validate_html_format t expected_format);
    try (apply (sends_within_weaken prompt0 1 3); [lia|lia|exact H1]).
  apply (sends_within_weaken prompt0 (1 + 1) (3 + 3 * S more)); [lia|lia|].
  apply (sends_within_then prompt0 1 3 1 (3 * S more) w w1 (Ok t));
    [exact H1|].
  apply IH. apply startswith_app_l, Hp.
Qed.

Lemma product_format_attempts_unfold (complete : service)
    (expected_format : option str) (max_tokens : N) (more : nat)
    (prompt : str) (w : world) :
  Product.format_attempts complete more prompt expected_format max_tokens w
  = match Product.prompt_gpt complete prompt 3 max_tokens w with
    | (Ok t, w1) =>
        if Product.validate_html_format t expected_format then (Ok t, w1)
        else match more with
             | O => (Ok t, w1)
             | S n =>
                 Product.format_attempts complete n
                   (prompt ++ Home.format_reminder) expected_format
                   max_tokens w1
             end
    | (Raise e, w1) => (Raise e, w1)
    end.
Proof.
  destruct more; cbn [Product.format_attempts]; unfold bind at 1;
    destruct (Product.prompt_gpt complete prompt 3 max_tokens w)
      as [[t|e] w1];
    try reflexivity;
    destruct (Product.validate_html_format t expected_format); reflexivity.
Qed.

Lemma product_format_attempts_sends (complete : service)
    (expected_format : option str) (max_tokens : N) (prompt0 : str)
    (more : nat) :
  forall (prompt : str) (w : world),
    startswith prompt0 prompt = true ->
    sends_within prompt0 1 (3 * S more) w
      (Product.format_attempts complete more prompt expected_format
         max_tokens w).
Proof.
  induction more as [|more IH]; intros prompt w Hp;
    rewrite product_format_attempts_unfold;
    pose proof (product_prompt_gpt_sends complete prompt0 prompt max_tokens
                  w Hp) as H1;
    destruct (Product.prompt_gpt complete prompt 3 max_tokens w)
      as [[t|e] w1];
    try (apply (sends_within_weaken prompt0 1 3); [lia|lia|exact H1]);
    destruct (Product.validate_html_format t expected_format);
    try (apply (sends_within_weaken prompt0 1 3); [lia|lia|exact H1]).
  apply (sends_within_weaken prompt0 (1 + 1) (3 + 3 * S more)); [lia|lia|].
  apply (sends_within_then prompt0 1 3 1 (3 * S more) w w1 (Ok t));
    [exact H1|].
  apply IH. apply startswith_app_l, Hp.
Qed.

(** X2.  One call of [generate_with_format_validation] sends at least one
    and at most nine requests (three calls of the client, three attempts
    each); every one of them goes to the model of the scripts with a prompt
    that starts with the prompt of the caller, to which text is only ever
    appended; and the files are left alone.  This holds in the home and
    footer scripts and in the product script. *)
Theorem generate_sends_at_most_nine (complete : service) (prompt : str)
    (expected_format : option str) (max_tokens : N) (w : world) :
  sends_within prompt 1 9 w
    (Home.generate_with_format_validation complete prompt expected_format w)
  /\ sends_within prompt 1 9 w
       (Product.generate_with_format_validation complete prompt
          expected_format max_tokens w).
Proof.
  assert (Hp : forall f : str,
            startswith prompt
              (if truthy f && contains (lit "<") f
               then prompt ++ Home.format_instruction f else prompt) = true).
  { intros f. destruct (truthy f && contains (lit "<") f);
      [apply startswith_app|apply startswith_refl]. }
  split.
  - unfold Home.generate_with_format_validation.
    apply (home_format_attempts_sends complete expected_format prompt 2).
    destruct expected_format as [f|]; [apply Hp|apply startswith_refl].
  - unfold Product.generate_with_format_validation.
    apply (product_format_attempts_sends complete expected_format max_tokens
             prompt 2).
    destruct expected_format as [f|]; [apply Hp|apply startswith_refl].
Qed.

(** ** What the sanitisers keep and remove *)

Lemma sub_from_delete_sublist (m : Re.matcher) (n : nat) :
  forall (prev : option char) (s : str),
    Re.sub_from n m [] prev s `sublist_of` s.
Proof.
  induction n as [|n IH]; intros prev s; [reflexivity|].
  destruct s as [|c r]; [reflexivity|]. cbn [Re.sub_from].
  destruct (m prev (c :: r)) as [[|k]|].
  - apply sublist_skip, IH.
  - cbn [app]. etransitivity; [apply IH|]. apply sublist_drop.
  - apply sublist_skip, IH.
Qed.

Lemma sub_delete_sublist (m : Re.matcher) (s : str) :
  Re.sub m [] s `sublist_of` s.
Proof. apply sub_from_delete_sublist. Qed.

Lemma replace_sublist (old new s : str) :
  old <> [] -> new `sublist_of` old -> replace old new s `sublist_of` s.
Proof.
  intros Hold Hnew.
  induction s as [|t IHt|c r E IHr] using (replace_scan_ind old Hold).
  - rewrite replace_nil by assumption. reflexivity.
  - rewrite replace_match by assumption. apply sublist_app; assumption.
  - rewrite replace_step by assumption. apply sublist_skip, IHr.
Qed.

Lemma lstrip_sublist (s : str) : lstrip s `sublist_of` s.
Proof.
  destruct (lstrip_split s) as (ws & E & _). rewrite E at 2.
  apply sublist_inserts_l. reflexivity.
Qed.

Lemma rstrip_sublist (s : str) : rstrip s `sublist_of` s.
Proof.
  destruct (rstrip_split s) as (ws & E & _). rewrite E at 2.
  apply sublist_inserts_r. reflexivity.
Qed.

Lemma strip_sublist (s : str) : strip s `sublist_of` s.
Proof.
  unfold strip. etransitivity; [apply rstrip_sublist|apply lstrip_sublist].
Qed.

Lemma apostrophe_in_literal : lit "'" `sublist_of` quote_literal.
Proof.
  do 3 apply sublist_cons. apply sublist_skip, sublist_nil_l.
Qed.

(** X3.  The sanitiser of the home and footer scripts only deletes: its
    output is the input with some characters left out, in the same order,
    so it is never longer than the input; and the output has no white space
    at either end. *)
Theorem home_sanitizer_only_deletes (x : str) :
  Home.clean_json_response x `sublist_of` x
  /\ length (Home.clean_json_response x) <= length x
  /\ strip (Home.clean_json_response x) = Home.clean_json_response x.
Proof.
  assert (H : Home.clean_json_response x `sublist_of` x).
  { unfold Home.clean_json_response.
    etransitivity; [apply strip_sublist|].
    etransitivity;
      [apply replace_sublist; [discriminate|apply apostrophe_in_literal]|].
    rewrite !replace_same by discriminate.
    etransitivity; apply sub_delete_sublist. }
  split; [exact H|]. split; [apply sublist_length, H|].
  unfold Home.clean_json_response. apply strip_fixed.
Qed.

Lemma fence_html_finds_nothing (s : str) :
  contains fence s = false -> Re.sub Re.fence_html [] s = s.
Proof.
  intros H. apply sub_from_no_match. intros k p. unfold Re.fence_html.
  change (lit "```html") with (fence ++ lit "html").
  rewrite (startswith_longer _ _ _ (contains_drop _ _ k H)). reflexivity.
Qed.

(** X4.  [clean_html_response] only deletes too, its output has no white
    space at either end, and a second pass changes nothing whenever the
    first has left no fence of three backticks. *)
Theorem clean_html_response_deletes_and_settles (x : str) :
  Home.clean_html_response x `sublist_of` x
  /\ strip (Home.clean_html_response x) = Home.clean_html_response x
  /\ (contains fence (Home.clean_html_response x) = false ->
      Home.clean_html_response (Home.clean_html_response x)
      = Home.clean_html_response x).
Proof.
  split; [|split].
  - unfold Home.clean_html_response.
    etransitivity; [apply strip_sublist|].
    etransitivity; apply sub_delete_sublist.
  - unfold Home.clean_html_response. apply strip_fixed.
  - intros Hf. unfold Home.clean_html_response at 1.
    rewrite (fence_html_finds_nothing _ Hf), (fence_end_finds_nothing _ Hf).
    unfold Home.clean_html_response. apply strip_fixed.
Qed.

Lemma clean_html_response_deletes_and_settles_witness :
  Home.clean_html_response
    (lit "```html" ++ nl ++ lit "<p>Bonjour</p>" ++ nl ++ lit "```")
  = lit "<p>Bonjour</p>"
  /\ Home.clean_html_response (lit "<p>Bonjour</p>") = lit "<p>Bonjour</p>".
Proof.
  split; [reflexivity|].
  destruct (clean_html_response_deletes_and_settles
              (lit "```html" ++ nl ++ lit "<p>Bonjour</p>" ++ nl
               ++ lit "```")) as (_ & _ & H).
  exact (H eq_refl).
Defined.

Lemma quotes_sublist (a b : str) : a `sublist_of` b -> quotes a <= quotes b.
Proof.
  induction 1 as [|c a b _ IH|c a b _ IH]; [reflexivity| |];
    rewrite ?quotes_cons; destruct (eqb c squote); lia.
Qed.

Lemma settled_without_quotes (s : str) :
  quotes s = 0 -> forall prev, settled prev s = true.
Proof.
  induction s as [|c r IH]; intros H prev; [reflexivity|].
  rewrite quotes_cons in H. apply settled_cons.
  destruct (eqb c squote); [discriminate|]. split; [reflexivity|].
  apply IH, H.
Qed.

(** X5.  In the output of the sanitiser of the product script no apostrophe
    is left for its escaping pattern to find: applying the escaping pass to
    the output changes nothing.  The sanitiser adds no apostrophe, and its
    output has no white space at either end. *)
Theorem product_sanitizer_escapes_once (x : str) :
  Re.sub Re.unescaped_quote [backslash; squote] (Product.clean_json_response x)
  = Product.clean_json_response x
  /\ quotes (Product.clean_json_response x) <= quotes x
  /\ strip (Product.clean_json_response x) = Product.clean_json_response x.
Proof.
  split; [|split].
  - apply settled_fixed, product_clean_settled.
  - unfold Product.clean_json_response.
    etransitivity; [apply quotes_sublist, strip_sublist|].
    rewrite quotes_replace_literal.
    rewrite !replace_same by discriminate.
    unfold Re.sub at 1. fold (escape None (Re.sub Re.fence_end []
                                            (Re.sub Re.fence_json [] x))).
    rewrite quotes_escape. apply quotes_sublist.
    etransitivity; apply sub_delete_sublist.
  - unfold Product.clean_json_response. apply strip_fixed.
Qed.

(** X6.  On a text without apostrophe the sanitiser of the product script
    and that of the home and footer scripts give the same result. *)
Theorem sanitizers_agree_without_apostrophe (x : str) :
  quotes x = 0 ->
  Product.clean_json_response x = Home.clean_json_response x.
Proof.
  intros H. unfold Product.clean_json_response, Home.clean_json_response.
  rewrite !replace_same by discriminate.
  set (z := Re.sub Re.fence_end [] (Re.sub Re.fence_json [] x)).
  assert (Hz : quotes z = 0).
  { assert (quotes z <= quotes x); [|lia].
    apply quotes_sublist. etransitivity; apply sub_delete_sublist. }
  unfold Re.sub at 1.
  rewrite (settled_fixed _ _ _ (settled_without_quotes z Hz None)).
  reflexivity.
Qed.

Lemma sanitizers_agree_without_apostrophe_witness :
  quotes (lit "```json {} ```") = 0
  /\ Product.clean_json_response (lit "```json {} ```")
     = Home.clean_json_response (lit "```json {} ```").
Proof.
  split; [reflexivity|].
  apply sanitizers_agree_without_apostrophe. reflexivity.
Defined.

(** ** A fenced answer is unwrapped *)

Lemma has_char_no_start (c : char) (p s : str) :
  has_char c s = false -> contains (c :: p) s = false.
Proof.
  induction s as [|a s IH]; intros H; [reflexivity|].
  cbn in H. apply orb_false_iff in H as [Ha Hs].
  rewrite contains_cons, (IH Hs). cbn [startswith]. rewrite Ha. reflexivity.
Qed.

Lemma has_char_sublist (c : char) (a b : str) :
  a `sublist_of` b -> has_char c b = false -> has_char c a = false.
Proof.
  unfold has_char. induction 1 as [|x a b _ IH|x a b _ IH]; cbn; intros H;
    [reflexivity| |]; apply orb_false_iff in H as [Hx Hb].
  - rewrite Hx. cbn. apply IH, Hb.
  - apply IH, Hb.
Qed.

Lemma drop_span_isspace (s : str) :
  drop (Re.span_len isspace s) s = lstrip s.
Proof.
  induction s as [|c r IH]; [reflexivity|]. cbn.
  destruct (isspace c); [exact IH|reflexivity].
Qed.

Lemma lstrip_before_nonspace (a : str) (c : char) (b : str) :
  isspace c = false -> lstrip (a ++ c :: b) = lstrip a ++ c :: b.
Proof.
  intros Hc. induction a as [|x a IH]; cbn.
  - rewrite Hc. reflexivity.
  - destruct (isspace x); [exact IH|reflexivity].
Qed.

Lemma lstrip_after_space (ws s : str) :
  forallb isspace ws = true -> lstrip (ws ++ s) = lstrip s.
Proof.
  induction ws as [|c ws IH]; [reflexivity|]. cbn. intros H.
  apply andb_true_iff in H as [Hc Hws]. rewrite Hc. apply IH, Hws.
Qed.

Lemma strip_after_space (ws s : str) :
  forallb isspace ws = true -> strip (ws ++ s) = strip s.
Proof.
  intros H. unfold strip. rewrite (lstrip_after_space _ _ H). reflexivity.
Qed.

Lemma sub_from_nil (m : Re.matcher) (repl : str) (n : nat)
    (prev : option char) :
  Re.sub_from n m repl prev [] = [].
Proof. destruct n; reflexivity. Qed.

(** The pattern of the closing fence, on a text without backtick followed
    by a fence, removes the fence. *)
Lemma fence_end_removes_fence (a : str) :
  has_char backtick a = false ->
  forall (n : nat) (prev : option char),
    Re.sub_from (length a + S n) Re.fence_end [] prev (a ++ fence) = a.
Proof.
  intros Ha. induction a as [|c a IH]; intros n prev.
  - cbn [length app Nat.add Re.sub_from fence lit].
    cbn. apply sub_from_nil.
  - cbn in Ha. apply orb_false_iff in Ha as [Hc Ha].
    cbn [length app Nat.add Re.sub_from].
    unfold Re.fence_end at 1. cbn [lit startswith list_ascii_of_string List.map].
    replace (eqb (N_of_ascii "`") c) with false
      by (symmetry; exact Hc).
    cbn [andb]. f_equal. apply IH, Ha.
Qed.

(** A replacement steps over characters that cannot start the text it looks
    for. *)
Lemma replace_after_foreign (old new ws s : str) (o0 : char) (o' : str) :
  old = o0 :: o' -> has_char o0 ws = false ->
  replace old new (ws ++ s) = ws ++ replace old new s.
Proof.
  intros Eo Hws. assert (Hold : old <> []) by (subst old; discriminate).
  induction ws as [|c ws IH]; [reflexivity|].
  cbn in Hws. apply orb_false_iff in Hws as [Hc Hws].
  cbn [app]. rewrite replace_step; [f_equal; apply IH, Hws|exact Hold|].
  subst old. cbn [startswith]. rewrite Hc. reflexivity.
Qed.

Lemma isspace_has_no (c : char) (ws : str) :
  isspace c = false -> forallb isspace ws = true -> has_char c ws = false.
Proof.
  intros Hc. unfold has_char. induction ws as [|x ws IH]; [reflexivity|].
  cbn. intros H. apply andb_true_iff in H as [Hx Hws].
  rewrite (IH Hws), orb_false_r.
  destruct (eqb c x) eqn:E; [|reflexivity].
  apply eqb_eq in E. subst x. congruence.
Qed.

Lemma escape_prev (p1 p2 : option char) (s : str) :
  guarded p1 = guarded p2 -> escape p1 s = escape p2 s.
Proof.
  intros H. destruct s as [|c r]; [reflexivity|].
  rewrite !escape_cons, !unescaped_quote_eq, H. reflexivity.
Qed.

Lemma escape_after_space (ws s : str) :
  forallb isspace ws = true ->
  forall prev, guarded prev = false ->
    escape prev (ws ++ s) = ws ++ escape None s.
Proof.
  induction ws as [|c ws IH]; intros H prev Hp.
  - apply escape_prev. exact Hp.
  - cbn in H. apply andb_true_iff in H as [Hc Hws].
    cbn [app]. rewrite escape_cons, unescaped_quote_eq.
    replace (eqb c squote) with false.
    + cbn [andb]. f_equal. apply IH; [exact Hws|].
      apply isspace_not_backslash, Hc.
    + symmetry. destruct (eqb c squote) eqn:E; [|reflexivity].
      apply eqb_eq in E. subst c. discriminate.
Qed.

Lemma sub_from_match (n : nat) (m : Re.matcher) (repl : str)
    (prev : option char) (c : char) (r : str) (k : nat) :
  m prev (c :: r) = Some (S k) ->
  Re.sub_from (S n) m repl prev (c :: r)
  = repl ++ Re.sub_from n m repl (last (take (S k) (c :: r)))
              (drop (S k) (c :: r)).
Proof. intros H. cbn [Re.sub_from]. rewrite H. reflexivity. Qed.

Lemma fenced_json_opens (body : str) :
  has_char backtick body = false ->
  Re.sub Re.fence_json [] (lit "```json" ++ body ++ fence)
  = lstrip body ++ fence.
Proof.
  intros Hb. unfold Re.sub.
  change (lit "```json" ++ body ++ fence)
    with (backtick :: lit "``json" ++ body ++ fence).
  cbn [length].
  rewrite (sub_from_match _ _ _ _ _ _
             (6 + Re.span_len isspace (body ++ fence))) by reflexivity.
  change (drop (S (6 + Re.span_len isspace (body ++ fence)))
            (backtick :: lit "``json" ++ body ++ fence))
    with (drop (Re.span_len isspace (body ++ fence)) (body ++ fence)).
  rewrite drop_span_isspace.
  change fence with (backtick :: lit "``").
  rewrite lstrip_before_nonspace by reflexivity.
  change (backtick :: lit "``") with fence.
  cbn [app].
  apply sub_from_no_match. intros k p. unfold Re.fence_json.
  assert (Hl : has_char backtick (lstrip body) = false)
    by exact (has_char_sublist _ _ _ (lstrip_sublist body) Hb).
  assert (Hc : contains (lit "```json") (lstrip body ++ fence) = false).
  { rewrite (contains_after_foreign (lit "```json") (lstrip body) fence
               backtick (lit "``json") eq_refl Hl). reflexivity. }
  rewrite (contains_drop _ _ k Hc). reflexivity.
Qed.

Lemma fenced_json_closes (a : str) :
  has_char backtick a = false -> Re.sub Re.fence_end [] (a ++ fence) = a.
Proof.
  intros Ha. unfold Re.sub. rewrite length_app.
  change (length fence) with 3. apply (fence_end_removes_fence a Ha 2).
Qed.

(** X7.  An answer wrapped in a code block is unwrapped: for a body without
    backtick, the text made of the tagged opening fence, the body and the
    closing fence is sanitised to what the body alone is sanitised to, by
    the sanitiser of the home and footer scripts and by that of the product
    script; for the former that is the stripped body when the body does not
    hold the literal of the fourth line. *)
Theorem fenced_answer_is_unwrapped (body : str) :
  has_char backtick body = false ->
  Home.clean_json_response (lit "```json" ++ body ++ fence)
  = Home.clean_json_response body
  /\ Product.clean_json_response (lit "```json" ++ body ++ fence)
     = Product.clean_json_response body
  /\ (contains quote_literal body = false ->
      Home.clean_json_response (lit "```json" ++ body ++ fence)
      = strip body).
Proof.
  intros Hb.
  assert (Hf : contains fence body = false)
    by exact (has_char_no_start backtick (lit "``") body Hb).
  assert (Hl : has_char backtick (lstrip body) = false)
    by exact (has_char_sublist _ _ _ (lstrip_sublist body) Hb).
  destruct (lstrip_split body) as (ws & Ews & Hws).
  assert (Hcomma : has_char 44%N ws = false)
    by (apply isspace_has_no; [reflexivity|exact Hws]).
  assert (HH : Home.clean_json_response (lit "```json" ++ body ++ fence)
               = Home.clean_json_response body).
  { unfold Home.clean_json_response.
    rewrite (fenced_json_opens body Hb), (fenced_json_closes _ Hl).
    rewrite (fence_json_finds_nothing _ Hf), (fence_end_finds_nothing _ Hf).
    rewrite !replace_same by discriminate.
    rewrite Ews at 2.
    rewrite (replace_after_foreign quote_literal (lit "'") ws (lstrip body)
               44%N _ eq_refl Hcomma).
    rewrite (strip_after_space _ _ Hws). reflexivity. }
  split; [exact HH|]. split.
  - unfold Product.clean_json_response.
    rewrite (fenced_json_opens body Hb), (fenced_json_closes _ Hl).
    rewrite (fence_json_finds_nothing _ Hf), (fence_end_finds_nothing _ Hf).
    rewrite !replace_same by discriminate.
    unfold Re.sub. fold (escape None (lstrip body)). fold (escape None body).
    rewrite Ews at 2.
    rewrite (escape_after_space ws (lstrip body) Hws None eq_refl).
    rewrite (replace_after_foreign quote_literal (lit "'") ws _
               44%N _ eq_refl Hcomma).
    rewrite (strip_after_space _ _ Hws). reflexivity.
  - intros Hq. rewrite HH. apply home_clean_is_strip; assumption.
Qed.

Lemma fenced_answer_is_unwrapped_witness :
  has_char backtick (nl ++ lit "{'title': 'Offre'}" ++ nl) = false
  /\ Home.clean_json_response
       (lit "```json" ++ (nl ++ lit "{'title': 'Offre'}" ++ nl) ++ fence)
     = lit "{'title': 'Offre'}".
Proof.
  split; [reflexivity|].
  destruct (fenced_answer_is_unwrapped (nl ++ lit "{'title': 'Offre'}" ++ nl)
              eq_refl) as (_ & _ & H).
  rewrite (H eq_refl). reflexivity.
Defined.

(** ** What a substitution leaves alone *)

Lemma same_but_text_refl (path : string) (w : world) :
  same_but_text path w w.
Proof.
  unfold same_but_text. repeat split.
  destruct (files w !! path); auto.
Qed.

Lemma same_but_text_store (path : string) (w : world) (f : file)
    (data : str) :
  files w !! path = Some f ->
  same_but_text path w (store_text w path f data).
Proof.
  intros Hf. unfold same_but_text, store_text. cbn.
  split; [reflexivity|]. split; [reflexivity|]. split.
  - intros p Hp. apply lookup_insert_ne. congruence.
  - rewrite Hf, lookup_insert_eq. cbn. auto.
Qed.

Lemma same_but_text_trans (path : string) (w1 w2 w3 : world) :
  same_but_text path w1 w2 -> same_but_text path w2 w3 ->
  same_but_text path w1 w3.
Proof.
  intros (A1 & B1 & C1 & D1) (A2 & B2 & C2 & D2).
  split; [congruence|]. split; [congruence|]. split.
  - intros p Hp. rewrite C2, C1 by assumption. reflexivity.
  - destruct (files w1 !! path), (files w2 !! path), (files w3 !! path);
      try tauto. destruct D1, D2. split; congruence.
Qed.

Lemma write_text_stores (path : string) (data : str) (w : world) (f : file) :
  files w !! path = Some f -> writable f = true ->
  write_text path data w
  = if utf8_text data then (Ok tt, store_text w path f data)
    else (Raise UnicodeEncodeError, store_text w path f []).
Proof.
  intros Hf Hw. unfold write_text, store_text. rewrite Hf, Hw.
  destruct (utf8_text data); reflexivity.
Qed.

Lemma write_text_refused (path : string) (data : str) (w : world)
    (f : file) :
  files w !! path = Some f -> writable f = false ->
  write_text path data w = (Raise (OSError path), w).
Proof.
  intros Hf Hw. unfold write_text. rewrite Hf, Hw. reflexivity.
Qed.

Lemma write_text_frame (path : string) (data : str) (w : world) (f : file) :
  files w !! path = Some f ->
  same_but_text path w (snd (write_text path data w)).
Proof.
  intros Hf. destruct (writable f) eqn:Hw.
  - rewrite (write_text_stores _ _ _ _ Hf Hw).
    destruct (utf8_text data); apply same_but_text_store, Hf.
  - rewrite (write_text_refused _ _ _ _ Hf Hw). apply same_but_text_refl.
Qed.

Lemma home_replace_in_file_frame (path : string) (token : str)
    (content : value) (w : world) :
  same_but_text path w (snd (Home.replace_in_file path token content w)).
Proof.
  unfold Home.replace_in_file, bind, read_text, lift.
  destruct (files w !! path) as [f|] eqn:Hf;
    [|apply same_but_text_refl].
  destruct (readable f); [|apply same_but_text_refl].
  destruct (replace_with token content (universal_newlines (contents f)))
    as [data|e]; [|apply same_but_text_refl].
  pose proof (write_text_frame path data w f Hf) as H.
  destruct (write_text path data w) as [[[]|e] w']; exact H.
Qed.

Lemma product_replace_in_file_frame (path : string) (token : str)
    (content : value) (w : world) :
  fst (Product.replace_in_file path token content w) = Ok tt
  /\ same_but_text path w
       (snd (Product.replace_in_file path token content w)).
Proof.
  unfold Product.replace_in_file, try_except, bind, read_text, lift, ret.
  destruct (files w !! path) as [f|] eqn:Hf;
    [|split; [reflexivity|apply same_but_text_refl]].
  destruct (readable f); [|split; [reflexivity|apply same_but_text_refl]].
  destruct (contains token (universal_newlines (contents f)));
    [|split; [reflexivity|apply same_but_text_refl]].
  destruct (replace_with token content (universal_newlines (contents f)))
    as [data|e]; [|split; [reflexivity|apply same_but_text_refl]].
  pose proof (write_text_frame path data w f Hf) as H.
  destruct (write_text path data w) as [[[]|e] w'];
    (split; [reflexivity|exact H]).
Qed.

(** X8.  [replace_in_file] touches nothing but the text of its file,
    whatever the world, the token and the value it is given, and whether it
    returns or raises: no request is sent, every other file is as it was,
    and the file itself is neither created nor removed and keeps its
    permissions.  The version of the product script, besides, always
    returns normally. *)
Theorem replace_in_file_touches_only_the_text (path : string) (token : str)
    (content : value) (w : world) :
  same_but_text path w (snd (Home.replace_in_file path token content w))
  /\ same_but_text path w
       (snd (Product.replace_in_file path token content w))
  /\ fst (Product.replace_in_file path token content w) = Ok tt.
Proof.
  split; [apply home_replace_in_file_frame|].
  destruct (product_replace_in_file_frame path token content w) as [H1 H2].
  split; assumption.
Qed.

(** X9.  A value that is not a string, such as a number or a nested object
    taken from the parsed answer, is never written: on a target document the
    version of the home and footer scripts raises [TypeError] and that of
    the product script returns normally, and both leave the world as it
    was. *)
Theorem non_string_content_is_not_written (path : string) (token : str)
    (content : value) (w : world) (f : file) :
  target_document w path f -> is_str content = false ->
  Home.replace_in_file path token content w = (Raise TypeError, w)
  /\ Product.replace_in_file path token content w = (Ok tt, w).
Proof.
  intros (Hf & Hr & Hw) Hc.
  assert (Hrep : forall data, replace_with token content data
                              = Raise TypeError).
  { intros data. destruct content; try reflexivity. discriminate. }
  split.
  - unfold Home.replace_in_file, bind, read_text, lift.
    rewrite Hf, Hr, Hrep. reflexivity.
  - unfold Product.replace_in_file, try_except, bind, read_text, lift, ret.
    rewrite Hf, Hr, Hrep.
    destruct (contains token (universal_newlines (contents f)));
      reflexivity.
Qed.

Lemma non_string_content_is_not_written_witness :
  let w := one_file "page.json" (lit "<p>NEW_RATING_COUNT_GENERATED</p>") in
  Home.replace_in_file "page.json" (lit "NEW_RATING_COUNT_GENERATED")
    (VNumber (128 # 1)) w = (Raise TypeError, w)
  /\ Product.replace_in_file "page.json" (lit "NEW_RATING_COUNT_GENERATED")
       (VNumber (128 # 1)) w = (Ok tt, w).
Proof.
  exact (non_string_content_is_not_written "page.json"
           (lit "NEW_RATING_COUNT_GENERATED") (VNumber (128 # 1))
           (one_file "page.json" (lit "<p>NEW_RATING_COUNT_GENERATED</p>"))
           {| contents := lit "<p>NEW_RATING_COUNT_GENERATED</p>";
              readable := true; writable := true |}
           (conj (lookup_singleton_eq _ _) (conj eq_refl eq_refl)) eq_refl).
Defined.

Lemma target_document_stored (w : world) (path : string) (f : file)
    (data : str) :
  target_document w path f ->
  target_document (store_text w path f data) path
    {| contents := data; readable := readable f; writable := writable f |}.
Proof.
  intros (Hf & Hr & Hw). unfold target_document, store_text. cbn.
  rewrite lookup_insert_eq. auto.
Qed.

Lemma truthy_not_nil (s : str) : truthy s = true -> s <> [].
Proof. destruct s; [discriminate|discriminate]. Qed.

(** X10.  Substituting twice is substituting once.  The target document can
    be read and written and holds text; the content is text that UTF-8
    encodes, without carriage return; the token is not empty and the content
    cannot rejoin it.  Then a second call of [replace_in_file] with the same
    token and content returns normally and changes nothing. *)
Theorem second_substitution_changes_nothing (path : string)
    (token content : str) (w : world) (f : file) :
  target_document w path f ->
  utf8_text (contents f) = true -> utf8_text content = true ->
  has_char cr content = false ->
  truthy token = true -> rejoins token content = false ->
  (Home.replace_in_file path token (VStr content) ;;;
   Home.replace_in_file path token (VStr content)) w
  = Home.replace_in_file path token (VStr content) w
  /\ (Product.replace_in_file path token (VStr content) ;;;
      Product.replace_in_file path token (VStr content)) w
     = Product.replace_in_file path token (VStr content) w.
Proof.
  intros Hdoc Hutf Hcontent Hcr Htoken Hre.
  apply truthy_not_nil in Htoken.
  set (data := replace token content (universal_newlines (contents f))).
  assert (Hdata : utf8_text data = true).
  { apply utf8_replace; [apply utf8_universal_newlines, Hutf|exact Hcontent]. }
  assert (Hread : universal_newlines data = data).
  { apply universal_newlines_fixed, no_cr_replace;
      [apply universal_newlines_no_cr|exact Hcr]. }
  assert (Hnone : contains token data = false)
    by (apply replace_leaves_no_token; assumption).
  pose proof (target_document_stored w path f data Hdoc) as (Hf' & Hr' & Hw').
  destruct Hdoc as (Hf & Hr & Hw).
  set (w' := store_text w path f data) in *.
  set (f' := {| contents := data; readable := readable f;
                writable := writable f |}) in *.
  assert (Hsame : store_text w' path f' data = w')
    by exact (store_text_same _ _ _ Hf').
  assert (H1 : Home.replace_in_file path token (VStr content) w
               = (Ok tt, w')).
  { rewrite (home_replace_in_file_opened _ _ _ _ _ Hf Hr Hw).
    fold data. rewrite Hdata. reflexivity. }
  assert (H2 : Home.replace_in_file path token (VStr content) w'
               = (Ok tt, w')).
  { rewrite (home_replace_in_file_opened _ _ _ _ _ Hf' Hr' Hw').
    cbn [contents f']. rewrite Hread, (replace_absent _ _ _ Hnone), Hdata.
    rewrite Hsame. reflexivity. }
  assert (H3 : Product.replace_in_file path token (VStr content) w'
               = (Ok tt, w')).
  { rewrite (product_replace_in_file_opened _ _ _ _ _ Hf' Hr' Hw').
    cbn [contents f']. rewrite Hread, Hnone. reflexivity. }
  split.
  - unfold bind. rewrite H1. exact H2.
  - unfold bind.
    rewrite (product_replace_in_file_opened _ _ _ _ _ Hf Hr Hw).
    fold data. rewrite Hdata. fold w'.
    destruct (contains token (universal_newlines (contents f))) eqn:E.
    + exact H3.
    + rewrite (product_replace_in_file_opened _ _ _ _ _ Hf Hr Hw).
      rewrite E. reflexivity.
Qed.

Lemma second_substitution_changes_nothing_witness :
  let w := one_file "page.json" (lit "<h1>NEW_TITLE_GENERATED</h1>") in
  (Home.replace_in_file "page.json" (lit "NEW_TITLE_GENERATED")
     (VStr (lit "Titre")) ;;;
   Home.replace_in_file "page.json" (lit "NEW_TITLE_GENERATED")
     (VStr (lit "Titre"))) w
  = Home.replace_in_file "page.json" (lit "NEW_TITLE_GENERATED")
      (VStr (lit "Titre")) w.
Proof.
  exact (proj1 (second_substitution_changes_nothing "page.json"
                  (lit "NEW_TITLE_GENERATED") (lit "Titre")
                  (one_file "page.json" (lit "<h1>NEW_TITLE_GENERATED</h1>"))
                  {| contents := lit "<h1>NEW_TITLE_GENERATED</h1>";
                     readable := true; writable := true |}
                  (conj (lookup_singleton_eq _ _) (conj eq_refl eq_refl))
                  eq_refl eq_refl eq_refl eq_refl eq_refl)).
Defined.

(** X24.  A content that UTF-8 cannot carry empties the file.  The target
    document can be read and written, its text holds the token, and the
    text with the token replaced has a code point that UTF-8 does not
    encode, such as a lone surrogate.  The file is opened for writing, which
    empties it, before the text is encoded.  The version of the home and
    footer scripts raises [UnicodeEncodeError]; that of the product script
    returns normally; in both the file is left empty. *)
Theorem unencodable_content_empties_the_file (path : string)
    (token content : str) (w : world) (f : file) :
  target_document w path f ->
  contains token (universal_newlines (contents f)) = true ->
  utf8_text (replace token content (universal_newlines (contents f)))
  = false ->
  Home.replace_in_file path token (VStr content) w
  = (Raise UnicodeEncodeError, store_text w path f [])
  /\ Product.replace_in_file path token (VStr content) w
     = (Ok tt, store_text w path f [])
  /\ file_text (store_text w path f []) path = Some [].
Proof.
  intros (Hf & Hr & Hw) Hin Hbad. split; [|split].
  - rewrite (home_replace_in_file_opened _ _ _ _ _ Hf Hr Hw), Hbad.
    reflexivity.
  - rewrite (product_replace_in_file_opened _ _ _ _ _ Hf Hr Hw), Hin, Hbad.
    reflexivity.
  - unfold file_text, store_text. cbn. rewrite lookup_insert_eq. reflexivity.
Qed.

Lemma unencodable_content_empties_the_file_witness :
  let w := one_file "page.json" (lit "<h1>NEW_TITLE_GENERATED</h1>") in
  Home.replace_in_file "page.json" (lit "NEW_TITLE_GENERATED")
    (VStr [55357%N]) w
  = (Raise UnicodeEncodeError, one_file "page.json" []).
Proof.
  pose proof
    (unencodable_content_empties_the_file "page.json"
       (lit "NEW_TITLE_GENERATED") [55357%N]
       (one_file "page.json" (lit "<h1>NEW_TITLE_GENERATED</h1>"))
       {| contents := lit "<h1>NEW_TITLE_GENERATED</h1>";
          readable := true; writable := true |}
       (conj (lookup_singleton_eq _ _) (conj eq_refl eq_refl))
       eq_refl eq_refl)
    as (H1 & _).
  cbv zeta. rewrite H1. vm_compute. reflexivity.
Defined.

(** ** A parsed answer that lacks a key *)

Lemma product_fields_present (path : string) (d : list (str * value))
    (before : list (str * str)) :
  Forall (fun field => is_Some (dict_get d (snd field))) before ->
  forall w, exists w1,
    for_each before (product_field_step path (VDict d)) w = (Ok tt, w1)
    /\ same_but_text path w w1.
Proof.
  induction 1 as [|field before [v Hv] _ IH]; intros w.
  - exists w. split; [reflexivity|apply same_but_text_refl].
  - cbn [for_each]. unfold bind at 1. unfold product_field_step at 1.
    unfold bind at 1. unfold lift, getitem. rewrite Hv.
    destruct (product_replace_in_file_frame path (fst field) v w)
      as [Hok Hframe].
    destruct (Product.replace_in_file path (fst field) v w) as [r w0].
    cbn in Hok, Hframe. subst r.
    destruct (IH w0) as (w1 & Hrun & Hframe1). exists w1.
    split; [exact Hrun|]. exact (same_but_text_trans _ _ _ _ Hframe Hframe1).
Qed.

(** X11.  In the product script a parsed object that lacks the key of one
    field stops the run in the middle of its group: the fields before it
    have been substituted, [KeyError] is raised for the missing key, and the
    fields after it are not touched.  A parsed value that is no object
    raises [TypeError] before any field is substituted. *)
Theorem missing_key_stops_midway (path : string) (g : Product.unit_group)
    (d : list (str * value)) (before after : list (str * str))
    (placeholder key : str) (w : world) :
  Product.fields g = before ++ (placeholder, key) :: after ->
  Forall (fun field => is_Some (dict_get d (snd field))) before ->
  dict_get d key = None ->
  (exists w1,
     for_each before (product_field_step path (VDict d)) w = (Ok tt, w1)
     /\ Product.substitute_fields path g (VDict d) w
        = (Raise (KeyError key), w1)
     /\ same_but_text path w w1)
  /\ (forall l, Product.substitute_fields path g (VList l) w
                = (Raise TypeError, w))
  /\ Product.substitute_fields path g VNone w = (Raise TypeError, w).
Proof.
  intros Hfields Hbefore Hkey. split; [|split].
  - destruct (product_fields_present path d before Hbefore w)
      as (w1 & Hrun & Hframe).
    exists w1. split; [exact Hrun|]. split; [|exact Hframe].
    unfold Product.substitute_fields. rewrite Hfields.
    fold (product_field_step path (VDict d)).
    change (fun field : str * str =>
              (v <- lift (getitem (VDict d) (snd field)) ;;
               Product.replace_in_file path (fst field) v)%py)
      with (product_field_step path (VDict d)).
    rewrite for_each_app, Hrun. cbn [for_each]. unfold bind at 1.
    unfold product_field_step at 1. unfold bind at 1, lift, getitem.
    cbn [snd]. rewrite Hkey. reflexivity.
  - intros l. unfold Product.substitute_fields. rewrite Hfields.
    destruct before; reflexivity.
  - unfold Product.substitute_fields. rewrite Hfields.
    destruct before; reflexivity.
Qed.

Lemma missing_key_stops_midway_witness :
  let d := [(lit "announcement_91817b81", VStr (lit "Hi"));
            (lit "announcement_gAyVVz", VStr (lit "Ho"))] in
  let out :=
    Product.substitute_fields "product.json" (group_at 0) (VDict d)
      toy_page in
  fst out = Raise (KeyError (lit "announcement_XGt7RJ"))
  /\ file_text (snd out) "product.json"
     = Some (lit "Ho NEW_BUTTON-TEXT_TEXT_J7DFT4_GENERATED").
Proof.
  cbv zeta.
  destruct (missing_key_stops_midway "product.json" (group_at 0)
              [(lit "announcement_91817b81", VStr (lit "Hi"));
               (lit "announcement_gAyVVz", VStr (lit "Ho"))]
              (take 2 (Product.fields (group_at 0)))
              (drop 3 (Product.fields (group_at 0)))
              (lit "NEW_ANNOUNCEMENT_ANNOUNCEMENT_XGT7RJ_GENERATED")
              (lit "announcement_XGt7RJ") toy_page)
    as ((w1 & Hrun & Hsub & _) & _).
  - reflexivity.
  - repeat constructor; vm_compute; eauto.
  - reflexivity.
  - rewrite Hsub. split; [reflexivity|].
    assert (E : w1 = snd (for_each (take 2 (Product.fields (group_at 0)))
                            (product_field_step "product.json"
                               (VDict
                                  [(lit "announcement_91817b81",
                                    VStr (lit "Hi"));
                                   (lit "announcement_gAyVVz",
                                    VStr (lit "Ho"))])) toy_page))
      by (rewrite Hrun; reflexivity).
    rewrite E. vm_compute. reflexivity.
Defined.

(** ** The single recovery of the home and footer pages *)

Lemma home_fix_json_with_gpt_eq (complete : service)
    (broken_json context : str) (w : world) :
  Home.fix_json_with_gpt complete broken_json context w
  = (Ok (home_recovered broken_json
           (complete (api_log w) (Home.fix_request broken_json context))),
     sent w (Home.fix_request broken_json context)).
Proof.
  unfold Home.fix_json_with_gpt, try_except, bind,
    chat_completions_create, ret, home_recovered, sent.
  destruct (complete (api_log w) _); reflexivity.
Qed.

(** X12.  A JSON unit of the home and footer pages has one strike only.
    When the sanitised text parses, no recovery request is sent and the
    fields are substituted from the parsed object.  When it does not, the
    recovery step is called once, under the label of the unit; if its text
    does not parse either, the error of the parser itself leaves the unit
    after that single request, with no second attempt and nothing
    substituted. *)
Theorem home_json_unit_has_one_strike (complete : service)
    (json_loads : str -> result value)
    (render : string -> str -> str -> str -> str -> str) (path : string)
    (brand_name product_title product_description language : str)
    (prompt_fn : string) (context : str) (fields : list (str * list str))
    (result : str) (w w1 : world) :
  let rq := Home.fix_request result context in
  let run :=
    Home.run_unit complete json_loads render path brand_name product_title
      product_description language
      (Home.JsonUnit prompt_fn context fields) in
  Home.prompt_gpt complete
    (render prompt_fn brand_name product_title product_description language)
    3 w = (Ok result, w1) ->
  (forall obj,
     json_loads (Home.clean_json_response result) = Ok obj ->
     run w
     = for_each fields
         (fun field =>
            v <- lift (Home.getpath obj (snd field)) ;;
            Home.replace_in_file path (fst field) v) w1)
  /\ (forall e0 e1,
      json_loads (Home.clean_json_response result) = Raise e0 ->
      json_loads (home_recovered result (complete (api_log w1) rq))
      = Raise e1 ->
      run w = (Raise e1, sent w1 rq)
      /\ files (sent w1 rq) = files w1
      /\ api_log (sent w1 rq) = api_log w1 ++ [rq]).
Proof.
  intros rq run Hgen. subst run. cbn [Home.run_unit]. split.
  - intros obj Hobj. unfold bind at 1. rewrite Hgen.
    unfold bind at 1, try_except, Home.loads, lift at 1. rewrite Hobj.
    reflexivity.
  - intros e0 e1 H0 H1. split; [|split; reflexivity].
    unfold bind at 1. rewrite Hgen.
    unfold bind at 1, try_except, Home.loads, lift at 1. rewrite H0.
    unfold bind at 1.
    rewrite home_fix_json_with_gpt_eq. fold rq. unfold lift at 1.
    rewrite H1. reflexivity.
Qed.

Lemma home_json_unit_has_one_strike_witness :
  let out :=
    Home.run_unit (service_saying (lit "garbage"))
      (fun _ => Raise JSONDecodeError)
      toy_render "home.json" (lit "Acme") (lit "Mouse") (lit "A mouse")
      (lit "French")
      (Home.JsonUnit "generate_customer_reviews_prompt" (lit "reviews")
         [(lit "NEW_CUSTOMER_REVIEW_1_GENERATED", [lit "review_1"])])
      (one_file "home.json" (lit "NEW_CUSTOMER_REVIEW_1_GENERATED")) in
  fst out = Raise JSONDecodeError
  /\ length (api_log (snd out)) = 2
  /\ file_text (snd out) "home.json"
     = Some (lit "NEW_CUSTOMER_REVIEW_1_GENERATED").
Proof.
  cbv zeta.
  edestruct (home_json_unit_has_one_strike (service_saying (lit "garbage"))
               (fun _ => Raise JSONDecodeError) toy_render "home.json"
               (lit "Acme")
               (lit "Mouse") (lit "A mouse") (lit "French")
               "generate_customer_reviews_prompt" (lit "reviews")
               [(lit "NEW_CUSTOMER_REVIEW_1_GENERATED", [lit "review_1"])]
               (lit "garbage")
               (one_file "home.json" (lit "NEW_CUSTOMER_REVIEW_1_GENERATED")))
    as (_ & H).
  - vm_compute. reflexivity.
  - destruct (H _ _ eq_refl eq_refl) as (Hrun & _).
    rewrite Hrun. vm_compute. repeat split.
Defined.

(** ** The translation phases *)

Lemma phase_frame_zero (path : string) (w : world) : phase_frame path 0 w w.
Proof. unfold phase_frame. repeat split. lia. Qed.

Lemma phase_frame_then (path : string) (n m : nat) (w1 w2 w3 : world) :
  phase_frame path n w1 w2 -> phase_frame path m w2 w3 ->
  phase_frame path (n + m) w1 w3.
Proof.
  intros (A1 & B1 & C1) (A2 & B2 & C2). split; [lia|].
  split; [congruence|]. intros p Hp. rewrite C2, C1 by assumption.
  reflexivity.
Qed.

Lemma same_but_text_phase (path : string) (w w' : world) :
  same_but_text path w w' -> phase_frame path 0 w w'.
Proof.
  intros (A & B & C & _). split; [rewrite A; lia|]. split; assumption.
Qed.

(** A call of [translate_text] returns normally after one request. *)
Lemma translate_text_returns (complete : service) (text language : str)
    (w : world) :
  exists translated w1,
    Home.translate_text complete text language w = (Ok translated, w1)
    /\ phase_frame "" 1 w w1 /\ files w1 = files w.
Proof.
  destruct (guarded_call_single complete
              (Home.translate_request text language)
              (fun t => replace [dquote] [] (strip t)) text w)
    as (Hlog & Hcalls & Hfiles & [translated Hres] & _).
  fold (Home.translate_text complete text language) in *.
  destruct (Home.translate_text complete text language w) as [r w1].
  cbn in *. subst r. exists translated, w1. split; [reflexivity|].
  split; [|exact Hfiles]. split; [rewrite Hlog, length_app; reflexivity|].
  split; [exact Hcalls|]. intros p _. rewrite Hfiles. reflexivity.
Qed.

Lemma phase_frame_path (path path' : string) (n : nat) (w w' : world) :
  phase_frame path' n w w' -> files w' = files w -> phase_frame path n w w'.
Proof.
  intros (A & B & _) Hf. split; [exact A|]. split; [exact B|].
  intros p _. rewrite Hf. reflexivity.
Qed.

Lemma product_translation_phase (complete : service) (path : string)
    (language : str) (table : list (str * str)) :
  forall w, exists w',
    for_each table (Product.translation_step complete path language) w
    = (Ok tt, w')
    /\ phase_frame path (length table) w w'.
Proof.
  induction table as [|row table IH]; intros w.
  - exists w. split; [reflexivity|apply phase_frame_zero].
  - cbn [for_each]. unfold bind at 1.
    unfold Product.translation_step at 1. unfold bind at 1.
    destruct (translate_text_returns complete (fst row) language w)
      as (translated & w1 & Ht & Hframe & Hfiles).
    change (Product.translate_text complete (fst row) language w)
      with (Home.translate_text complete (fst row) language w).
    rewrite Ht.
    destruct (product_replace_in_file_frame path (snd row)
                (VStr translated) w1) as [Hok Hsame].
    destruct (Product.replace_in_file path (snd row) (VStr translated) w1)
      as [r w2].
    cbn in Hok, Hsame. subst r.
    destruct (IH w2) as (w' & Hrun & Hrest). exists w'.
    split; [exact Hrun|].
    change (length (row :: table)) with (1 + 0 + length table).
    apply (phase_frame_then path (1 + 0) (length table) w w2 w');
      [|exact Hrest].
    apply (phase_frame_then path 1 0 w w1 w2).
    + exact (phase_frame_path path "" 1 w w1 Hframe Hfiles).
    + apply same_but_text_phase, Hsame.
Qed.

(** X13.  The translation phase of the product page cannot fail: for every
    service, language and world it returns normally, having sent exactly
    one request for each of the 73 rows of its table, none of them through
    [prompt_gpt], and it leaves every file but the target file as it was.
    A run of the product page therefore always reaches its generation
    phase. *)
Theorem product_translations_never_raise (complete : service)
    (json_loads : str -> result value) (console : str -> option exn)
    (render : string -> str -> str -> str -> str -> str) (path : string)
    (brand_name product_title product_description language : str)
    (w : world) :
  exists w',
    Product.process_product_translations complete path language w
    = (Ok tt, w')
    /\ phase_frame path 73 w w'
    /\ Product.change_product_content complete json_loads console render
         path brand_name product_title product_description language w
       = Product.process_product_generated_content complete json_loads
           console render path brand_name product_title product_description
           language w'.
Proof.
  destruct (product_translation_phase complete path language
              Product.translations w) as (w' & Hrun & Hframe).
  exists w'. split; [exact Hrun|]. split; [exact Hframe|].
  unfold Product.change_product_content. unfold bind at 1.
  unfold Product.process_product_translations in Hrun |- *.
  rewrite Hrun. reflexivity.
Qed.

Lemma utf8_sublist (a b : str) :
  a `sublist_of` b -> utf8_text b = true -> utf8_text a = true.
Proof.
  unfold utf8_text. induction 1 as [|x a b _ IH|x a b _ IH]; cbn; intros H.
  - reflexivity.
  - apply andb_true_iff in H as [Hx H]. rewrite Hx. exact (IH H).
  - apply andb_true_iff in H as [_ H]. exact (IH H).
Qed.

(** What [translate_text] returns is text when the label and the answers of
    the service are. *)
Lemma translate_text_utf8 (complete : service) (text language : str)
    (w : world) (translated : str) (w1 : world) :
  utf8_service complete -> utf8_text text = true ->
  Home.translate_text complete text language w = (Ok translated, w1) ->
  utf8_text translated = true.
Proof.
  intros Hservice Htext.
  unfold Home.translate_text, try_except, bind, chat_completions_create, ret.
  destruct (complete (api_log w) _) as [t|e] eqn:E; intros [= <- _].
  - change (utf8_text (replace [dquote] [] (strip t)) = true).
    apply utf8_replace; [|reflexivity].
    apply (utf8_sublist _ t); [apply strip_sublist|].
    exact (Hservice _ _ _ E).
  - exact Htext.
Qed.

Lemma text_document_stored (w : world) (path : string) (f : file)
    (data : str) :
  text_document w path f -> utf8_text data = true ->
  text_document (store_text w path f data) path
    {| contents := data; readable := readable f; writable := writable f |}.
Proof.
  intros [Hdoc _] Hdata. split; [|exact Hdata].
  apply target_document_stored, Hdoc.
Qed.

Lemma home_substitutions_on_document (path : string) (translated : str)
    (placeholders : list str) :
  utf8_text translated = true ->
  forall w f,
    text_document w path f ->
    exists w' f',
      for_each placeholders
        (fun placeholder =>
           Home.replace_in_file path placeholder (VStr translated)) w
      = (Ok tt, w')
      /\ text_document w' path f'
      /\ phase_frame path 0 w w'.
Proof.
  intros Htr.
  induction placeholders as [|p ps IH]; intros w f Hdoc.
  - exists w, f. split; [reflexivity|].
    split; [exact Hdoc|apply phase_frame_zero].
  - cbn [for_each]. unfold bind at 1.
    set (data := replace p translated (universal_newlines (contents f))).
    assert (Hdata : utf8_text data = true).
    { apply utf8_replace; [|exact Htr].
      apply utf8_universal_newlines, Hdoc. }
    pose proof (text_document_stored w path f data Hdoc Hdata) as Hdoc1.
    pose proof (home_replace_in_file_frame path p (VStr translated) w)
      as Hsame.
    destruct Hdoc as ((Hf & Hr & Hw) & Hutf).
    rewrite (home_replace_in_file_opened _ _ _ _ _ Hf Hr Hw) in Hsame |- *.
    fold data in Hsame |- *. rewrite Hdata in Hsame |- *.
    cbn [snd] in Hsame.
    destruct (IH _ _ Hdoc1) as (w' & f' & Hrun & Hdoc' & Hrest).
    exists w', f'. split; [exact Hrun|]. split; [exact Hdoc'|].
    exact (phase_frame_then path 0 0 w _ w'
             (same_but_text_phase _ _ _ Hsame) Hrest).
Qed.

Lemma home_translation_phase (complete : service) (path : string)
    (language : str) (table : list (str * list str)) :
  utf8_service complete ->
  forallb (fun row => utf8_text (fst row)) table = true ->
  forall w f,
    text_document w path f ->
    exists w' f',
      Home.run_translations complete path language table w = (Ok tt, w')
      /\ text_document w' path f'
      /\ phase_frame path (length table) w w'.
Proof.
  intros Hservice. unfold Home.run_translations.
  induction table as [|row table IH]; intros Hlabels w f Hdoc.
  - exists w, f. split; [reflexivity|].
    split; [exact Hdoc|apply phase_frame_zero].
  - cbn [forallb] in Hlabels. apply andb_true_iff in Hlabels as [Hrow Hlabels].
    cbn [for_each]. unfold bind at 1.
    unfold Home.translation_step at 1. unfold bind at 1.
    destruct (translate_text_returns complete (fst row) language w)
      as (translated & w1 & Ht & Hframe & Hfiles).
    pose proof (translate_text_utf8 _ _ _ _ _ _ Hservice Hrow Ht) as Htr.
    rewrite Ht.
    assert (Hdoc1 : text_document w1 path f).
    { unfold text_document, target_document in *. rewrite Hfiles.
      exact Hdoc. }
    destruct (home_substitutions_on_document path translated (snd row) Htr
                w1 f Hdoc1) as (w2 & f2 & Hsub & Hdoc2 & Hframe2).
    rewrite Hsub.
    destruct (IH Hlabels w2 f2 Hdoc2) as (w' & f' & Hrun & Hdoc' & Hrest).
    exists w', f'. split; [exact Hrun|]. split; [exact Hdoc'|].
    change (length (row :: table)) with (1 + 0 + length table).
    apply (phase_frame_then path (1 + 0) (length table) w w2 w');
      [|exact Hrest].
    apply (phase_frame_then path 1 0 w w1 w2); [|exact Hframe2].
    exact (phase_frame_path path "" 1 w w1 Hframe Hfiles).
Qed.

(** A lone surrogate in the answer to the first label of the footer: the
    phase raises at its first substitution and the file is empty. *)
Lemma unencodable_translation_empties_the_file :
  let w := one_file "footer.json"
             (lit "<p>NEW_NEWSLETTER_SMALL_TEXT_TRANSLATED</p>") in
  let out :=
    Footer.process_footer_translations (service_saying [55357%N])
      "footer.json" (lit "French") w in
  fst out = Raise UnicodeEncodeError
  /\ file_text (snd out) "footer.json" = Some []
  /\ length (api_log (snd out)) = 1.
Proof.
  vm_compute. repeat split.
Qed.

(** X14.  The target document can be read and written and holds text, and
    the answers of the service are text that UTF-8 encodes.  Then the
    translation phases of the home and footer pages complete: they return
    normally, having sent exactly one request for each label (26 on the home
    page, 4 in the footer), none of them through [prompt_gpt]; the file is
    still such a document afterwards and every other file is as it was. *)
Theorem home_translations_complete_on_document (complete : service)
    (path : string) (language : str) (w : world) (f : file) :
  utf8_service complete ->
  text_document w path f ->
  (exists w' f',
     Home.process_translations complete path language w = (Ok tt, w')
     /\ text_document w' path f'
     /\ phase_frame path 26 w w')
  /\ (exists w' f',
        Footer.process_footer_translations complete path language w
        = (Ok tt, w')
        /\ text_document w' path f'
        /\ phase_frame path 4 w w').
Proof.
  intros Hservice Hdoc. split.
  - exact (home_translation_phase complete path language Home.translations
             Hservice eq_refl w f Hdoc).
  - exact (home_translation_phase complete path language Footer.translations
             Hservice eq_refl w f Hdoc).
Qed.

Lemma home_translations_complete_on_document_witness :
  let w := one_file "footer.json" (lit "<h4>NEW_FOOTER_INFO_HEADING_TRANSLATED</h4>") in
  let out :=
    Footer.process_footer_translations (service_saying (lit "Informations"))
      "footer.json" (lit "French") w in
  fst out = Ok tt /\ length (api_log (snd out)) = 4.
Proof.
  cbv zeta.
  assert (Hservice : utf8_service (service_saying (lit "Informations"))).
  { intros log rq t [= <-]. reflexivity. }
  destruct (home_translations_complete_on_document
              (service_saying (lit "Informations")) "footer.json"
              (lit "French")
              (one_file "footer.json"
                 (lit "<h4>NEW_FOOTER_INFO_HEADING_TRANSLATED</h4>"))
              {| contents := lit "<h4>NEW_FOOTER_INFO_HEADING_TRANSLATED</h4>";
                 readable := true; writable := true |}
              Hservice
              (conj (conj (lookup_singleton_eq _ _) (conj eq_refl eq_refl))
                 eq_refl))
    as (_ & (w' & f' & Hrun & _ & Hlog & _)).
  rewrite Hrun. split; [reflexivity|]. exact Hlog.
Defined.

(** ** What a translation returns *)

Lemma replace_char_removed (c : char) (s : str) :
  has_char c (replace [c] [] s) = false.
Proof.
  assert (Hold : [c] <> []) by discriminate.
  induction s as [|t IHt|x r E IHr] using (replace_scan_ind [c] Hold).
  - rewrite replace_nil by assumption. reflexivity.
  - rewrite replace_match by assumption. exact IHt.
  - rewrite replace_step by assumption. unfold has_char in *.
    cbn [existsb]. rewrite IHr, orb_false_r.
    cbn [startswith] in E. rewrite andb_true_r in E. exact E.
Qed.

(** X15.  When the service answers, [translate_text] returns the answer
    with the white space at its ends and every double quote removed: the
    text returned holds no double quote and is the answer with characters
    left out. *)
Theorem translation_has_no_double_quote (complete : service)
    (text language t : str) (w : world) :
  complete (api_log w) (Home.translate_request text language) = Reply t ->
  exists r w',
    Home.translate_text complete text language w = (Ok r, w')
    /\ Product.translate_text complete text language w = (Ok r, w')
    /\ has_char dquote r = false
    /\ r `sublist_of` t.
Proof.
  intros H.
  exists (replace [dquote] [] (strip t)),
         (sent w (Home.translate_request text language)).
  split; [|split; [|split]].
  - unfold Home.translate_text, try_except, bind, chat_completions_create.
    rewrite H. reflexivity.
  - unfold Product.translate_text, try_except, bind, chat_completions_create.
    rewrite H. reflexivity.
  - apply replace_char_removed.
  - etransitivity; [|apply strip_sublist].
    apply replace_sublist; [discriminate|apply sublist_nil_l].
Qed.

Lemma translation_has_no_double_quote_witness :
  fst (Home.translate_text
         (service_saying ([dquote] ++ lit "Einkaufen" ++ [dquote]))
         (lit "Shop") (lit "German") no_files)
  = Ok (lit "Einkaufen").
Proof.
  destruct (translation_has_no_double_quote
              (service_saying ([dquote] ++ lit "Einkaufen" ++ [dquote]))
              (lit "Shop") (lit "German")
              ([dquote] ++ lit "Einkaufen" ++ [dquote]) no_files eq_refl)
    as (r & w' & H & _).
  reflexivity.
Defined.

(** ** The tags that the validation counts *)

Lemma span_len_take (p : char -> bool) (r : str) :
  forallb p (take (Re.span_len p r) r) = true.
Proof.
  induction r as [|c r IH]; [reflexivity|]. cbn.
  destruct (p c) eqn:E; [|reflexivity]. cbn. rewrite E. exact IH.
Qed.

Lemma span_len_stop (p : char -> bool) (r : str) (x : char) (rest : str) :
  drop (Re.span_len p r) r = x :: rest -> p x = false.
Proof.
  induction r as [|c r IH]; [discriminate|]. cbn.
  destruct (p c) eqn:E; [exact IH|]. cbn. intros [= <- _]. exact E.
Qed.

Lemma html_tag_shape (prev : option char) (s : str) (k : nat) :
  Re.html_tag prev s = Some k ->
  is_tag (take k s) /\ 3 <= k <= length s.
Proof.
  unfold Re.html_tag. destruct s as [|c r]; [discriminate|].
  destruct (eqb c lt_sign) eqn:Ec; [|discriminate].
  apply eqb_eq in Ec. subst c.
  set (p := fun x => negb (eqb x gt_sign)).
  destruct (Re.span_len p r) as [|n] eqn:En; [discriminate|].
  destruct (drop (S n) r) as [|x rest] eqn:Ed; [discriminate|].
  intros [= <-].
  assert (Hx : x = gt_sign).
  { rewrite <- En in Ed. apply span_len_stop in Ed. unfold p in Ed.
    apply negb_false_iff, eqb_eq in Ed. exact Ed. }
  subst x.
  assert (Hlen : S n < length r).
  { assert (length (drop (S n) r) = length r - S n) by apply length_drop.
    rewrite Ed in H. cbn in H. lia. }
  assert (Htake : take (S (S n)) r = take (S n) r ++ [gt_sign]).
  { rewrite (take_S_r r (S n) gt_sign); [reflexivity|].
    rewrite <- (Nat.add_0_r (S n)), <- lookup_drop, Ed. reflexivity. }
  split; [|cbn [length]; lia].
  exists (take (S n) r). split; [|split].
  - cbn [take]. f_equal. exact Htake.
  - destruct r; [cbn in Hlen; lia|discriminate].
  - pose proof (span_len_take p r) as Hall. rewrite En in Hall.
    apply has_char_false. intros y Hy Heq. subst y.
    rewrite forallb_forall in Hall. specialize (Hall _ Hy).
    unfold p in Hall. rewrite eqb_refl in Hall. discriminate.
Qed.

Lemma findall_from_pieces (m : Re.matcher) (P : str -> Prop) (n : nat) :
  (forall prev s k, m prev s = Some k -> P (take k s)) ->
  forall prev s,
    Forall P (Re.findall_from n m prev s)
    /\ concat (Re.findall_from n m prev s) `sublist_of` s.
Proof.
  intros Hm. induction n as [|n IH]; intros prev s.
  - split; [constructor|apply sublist_nil_l].
  - destruct s as [|c r]; [split; [constructor|reflexivity]|].
    cbn [Re.findall_from].
    destruct (m prev (c :: r)) as [[|k]|] eqn:E.
    + destruct (IH (Some c) r) as [H1 H2].
      split; [exact H1|apply sublist_cons, H2].
    + destruct (IH (last (take (S k) (c :: r))) (drop (S k) (c :: r)))
        as [H1 H2].
      split; [constructor; [exact (Hm _ _ _ E)|exact H1]|].
      cbn [concat].
      etransitivity; [apply sublist_app; [reflexivity|exact H2]|].
      rewrite take_drop. reflexivity.
    + destruct (IH (Some c) r) as [H1 H2].
      split; [exact H1|apply sublist_cons, H2].
Qed.

Lemma concat_length_tags (l : list str) :
  Forall (fun t => 3 <= length t) l -> 3 * length l <= length (concat l).
Proof.
  induction 1 as [|t l Ht _ IH]; [reflexivity|].
  cbn [concat length]. rewrite length_app. lia.
Qed.

(** X16.  What [validate_html_format] counts: every tag that the pattern
    finds is a [<], then one or more characters other than [>], then a
    [>]; the tags found are pieces of the text that follow one another
    without overlapping; and so a text holds at most a third of its length
    in tags. *)
Theorem tags_found_are_well_formed (s : str) :
  Forall is_tag (Re.findall Re.html_tag s)
  /\ concat (Re.findall Re.html_tag s) `sublist_of` s
  /\ 3 * tag_count s <= length s.
Proof.
  assert (H : Forall (fun t => is_tag t /\ 3 <= length t)
                (Re.findall Re.html_tag s)
              /\ concat (Re.findall Re.html_tag s) `sublist_of` s).
  { apply findall_from_pieces. intros prev s0 k Hk.
    destruct (html_tag_shape _ _ _ Hk) as [Ht Hb].
    split; [exact Ht|]. rewrite length_take. lia. }
  destruct H as [Hall Hsub].
  split; [|split; [exact Hsub|]].
  - eapply Forall_impl; [exact Hall|]. intros t [Ht _]. exact Ht.
  - unfold tag_count. etransitivity; [|apply sublist_length, Hsub].
    apply concat_length_tags.
    eapply Forall_impl; [exact Hall|]. intros t [_ Ht]. exact Ht.
Qed.

(** ** The placeholders of a page *)

Lemma apart_sound (ps : list str) :
  apart ps = true ->
  forall i j a b,
    i <> j -> ps !! i = Some a -> ps !! j = Some b -> contains a b = false.
Proof.
  induction ps as [|p ps IH]; intros H i j a b Hij Hi Hj;
    [discriminate|].
  cbn [apart] in H. apply andb_true_iff in H as [Hhead Htail].
  rewrite forallb_forall in Hhead.
  destruct i as [|i], j as [|j]; [congruence| | |].
  - cbn in Hi, Hj. injection Hi as <-.
    apply list_elem_of_lookup_2, list_elem_of_In in Hj.
    specialize (Hhead _ Hj). apply andb_true_iff in Hhead as [Hh _].
    apply negb_true_iff, Hh.
  - cbn in Hi, Hj. injection Hj as <-.
    apply list_elem_of_lookup_2, list_elem_of_In in Hi.
    specialize (Hhead _ Hi). apply andb_true_iff in Hhead as [_ Hh].
    apply negb_true_iff, Hh.
  - cbn in Hi, Hj. apply (IH Htail i j); [congruence|assumption|assumption].
Qed.

Lemma home_placeholders_apart : apart home_placeholders = true.
Proof. vm_compute. reflexivity. Qed.

Lemma footer_placeholders_apart : apart footer_placeholders = true.
Proof. vm_compute. reflexivity. Qed.

Lemma product_placeholders_apart : apart product_placeholders = true.
Proof. vm_compute. reflexivity. Qed.

(** X17.  Within each page no placeholder occurs inside another one, and no
    two are the same: for two placeholders [a] and [b] at different
    positions of the page, [a] does not occur in [b], so that substituting
    whatever content for [a] leaves the name [b] as it is. *)
Theorem placeholders_do_not_overlap (ps : list str) (i j : nat)
    (a b content : str) :
  ps = home_placeholders \/ ps = footer_placeholders
  \/ ps = product_placeholders ->
  i <> j -> ps !! i = Some a -> ps !! j = Some b ->
  contains a b = false /\ a <> b /\ replace a content b = b.
Proof.
  intros Hps Hij Hi Hj.
  assert (Hap : apart ps = true).
  { destruct Hps as [-> | [-> | ->]];
      [apply home_placeholders_apart|apply footer_placeholders_apart
      |apply product_placeholders_apart]. }
  pose proof (apart_sound ps Hap i j a b Hij Hi Hj) as Hc.
  split; [exact Hc|]. split; [|apply replace_absent, Hc].
  intros ->. assert (contains b b = true); [|congruence].
  destruct b; [reflexivity|]. rewrite contains_cons, startswith_refl.
  reflexivity.
Qed.

Lemma placeholders_do_not_overlap_witness :
  replace (lit "NEW_HERO_CAPTION_TRANSLATED") (lit "Offres")
    (lit "NEW_HERO_BUTTON_TRANSLATED")
  = lit "NEW_HERO_BUTTON_TRANSLATED".
Proof.
  exact (proj2 (proj2
           (placeholders_do_not_overlap home_placeholders 0 1
              (lit "NEW_HERO_CAPTION_TRANSLATED")
              (lit "NEW_HERO_BUTTON_TRANSLATED") (lit "Offres")
              (or_introl eq_refl) (O_S 0) eq_refl eq_refl))).
Defined.

(** ** What the repair request carries *)

Lemma contains_here (p b : str) : contains p (p ++ b) = true.
Proof.
  destruct p as [|a p]; [destruct b; reflexivity|].
  cbn [app]. rewrite contains_cons.
  change (a :: p ++ b) with ((a :: p) ++ b).
  rewrite startswith_app. reflexivity.
Qed.

Lemma contains_app_l (p a b : str) :
  contains p a = true -> contains p (a ++ b) = true.
Proof.
  induction a as [|c a IH]; intros H.
  - destruct p; [destruct b; reflexivity|discriminate].
  - cbn [app]. rewrite contains_cons in H |- *.
    apply orb_true_iff in H as [Hs | Hc].
    + pose proof (startswith_app_l _ (c :: a) b Hs) as Hs'.
      cbn [app] in Hs'. rewrite Hs'. reflexivity.
    + rewrite IH by exact Hc. apply orb_true_r.
Qed.

Lemma contains_app_r (p a b : str) :
  contains p b = true -> contains p (a ++ b) = true.
Proof.
  intros H. induction a as [|c a IH]; [exact H|].
  cbn [app]. rewrite contains_cons, IH. apply orb_true_r.
Qed.

Lemma contains_join (sep k : str) (l : list str) :
  In k l -> contains k (join sep l) = true.
Proof.
  induction l as [|a l IH]; [intros []|].
  intros [-> | Hk].
  - destruct l; cbn [join]; [|apply contains_here].
    rewrite <- (app_nil_r k) at 2. apply contains_here.
  - destruct l as [|b l]; [destruct Hk|].
    cbn [join]. do 2 apply contains_app_r. apply IH, Hk.
Qed.

(** X18.  The repair request carries, word for word, the broken text it was
    given and the label of the unit; in the product script it also carries
    every key that the caller expects. *)
Theorem repair_prompt_carries_its_input (broken_json context : str)
    (keys : list str) :
  contains broken_json (Home.fix_prompt broken_json context) = true
  /\ contains context (Home.fix_prompt broken_json context) = true
  /\ contains broken_json
       (Product.fix_prompt broken_json context (Some keys)) = true
  /\ contains context
       (Product.fix_prompt broken_json context (Some keys)) = true
  /\ (forall k, In k keys ->
        contains k (Product.fix_prompt broken_json context (Some keys))
        = true).
Proof.
  unfold Home.fix_prompt, Product.fix_prompt.
  split; [|split; [|split; [|split]]];
    try (repeat first [apply contains_here | apply contains_app_r]).
  intros k Hk.
  repeat first [apply contains_here
               | match goal with
                 | |- contains _ (Product.keys_text _ ++ _) = true => fail 1
                 | _ => apply contains_app_r
                 end].
  apply contains_app_l.
  destruct keys as [|k0 ks]; [destruct Hk|]. cbn [Product.keys_text].
  apply contains_join, Hk.
Qed.

(** ** Runs that succeed and runs without the service *)

Lemma field_text_Some (d : list (str * value)) (key s : str) :
  field_text d key = Some s -> dict_get d key = Some (VStr s).
Proof.
  unfold field_text. destruct (dict_get d key) as [[]|]; try discriminate.
  intros [= ->]. reflexivity.
Qed.

(** One substitution of the product script on a document that holds text:
    the text of the file, as it is read, is the text before with the token
    replaced. *)
Lemma product_replace_in_file_text (path : string) (token content : str)
    (w : world) (f : file) :
  text_document w path f -> plain_text content = true ->
  exists w' f',
    Product.replace_in_file path token (VStr content) w = (Ok tt, w')
    /\ text_document w' path f'
    /\ universal_newlines (contents f')
       = replace token content (universal_newlines (contents f))
    /\ same_but_text path w w'.
Proof.
  intros Hdoc Hplain. unfold plain_text in Hplain.
  apply andb_true_iff in Hplain as [Hc Hcr]. apply negb_true_iff in Hcr.
  pose proof Hdoc as [(Hf & Hr & Hw) Hutf].
  rewrite (product_replace_in_file_opened _ _ _ _ _ Hf Hr Hw).
  set (prior := universal_newlines (contents f)).
  set (data := replace token content prior).
  assert (Hdata : utf8_text data = true).
  { apply utf8_replace; [apply utf8_universal_newlines, Hutf|exact Hc]. }
  rewrite Hdata.
  destruct (contains token prior) eqn:E.
  - exists (store_text w path f data),
      {| contents := data; readable := readable f; writable := writable f |}.
    split; [reflexivity|]. split; [|split].
    + apply text_document_stored; assumption.
    + cbn [contents]. apply universal_newlines_fixed, no_cr_replace;
        [apply universal_newlines_no_cr|exact Hcr].
    + apply same_but_text_store, Hf.
  - exists w, f. split; [reflexivity|]. split; [exact Hdoc|]. split.
    + symmetry. apply replace_absent, E.
    + apply same_but_text_refl.
Qed.

Lemma product_fields_substituted (path : string) (d : list (str * value))
    (fields : list (str * str)) :
  plain_fields d fields = true ->
  forall w f,
    text_document w path f ->
    exists w' f',
      for_each fields (product_field_step path (VDict d)) w = (Ok tt, w')
      /\ text_document w' path f'
      /\ universal_newlines (contents f')
         = substituted d fields (universal_newlines (contents f))
      /\ same_but_text path w w'.
Proof.
  induction fields as [|field fields IH]; intros Hplain w f Hdoc.
  - exists w, f. split; [reflexivity|]. split; [exact Hdoc|].
    split; [reflexivity|apply same_but_text_refl].
  - unfold plain_fields in Hplain. cbn [forallb] in Hplain.
    apply andb_true_iff in Hplain as [Hfield Hplain].
    cbn [for_each substituted]. unfold bind at 1.
    unfold product_field_step at 1. unfold bind at 1.
    destruct (field_text d (snd field)) as [s|] eqn:Es; [|discriminate].
    unfold lift, getitem. rewrite (field_text_Some _ _ _ Es).
    destruct (product_replace_in_file_text path (fst field) s w f Hdoc Hfield)
      as (w0 & f0 & Hstep & Hdoc0 & Htext0 & Hframe0).
    rewrite Hstep.
    destruct (IH Hplain w0 f0 Hdoc0) as (w' & f' & Hrun & Hdoc' & Htext & Hframe).
    exists w', f'. split; [exact Hrun|]. split; [exact Hdoc'|]. split.
    + rewrite Htext, Htext0. reflexivity.
    + exact (same_but_text_trans _ _ _ _ Hframe0 Hframe).
Qed.

(** X19.  A group of the product page completes when its generated text
    parses at once to an object in which the key of every field holds a
    string of plain text, the target document being one that can be read
    and written and holds text.  No recovery request is sent; the text of
    the file, as it is read, is then the text before with the placeholder of
    each field replaced by the string of its key, in the order of the table;
    and nothing but the text of the target file changes after the
    generation. *)
Theorem product_group_completes (complete : service)
    (json_loads : str -> result value) (console : str -> option exn)
    (render : string -> str -> str -> str -> str -> str) (path : string)
    (brand_name product_title product_description language : str)
    (g : Product.unit_group) (result : str) (d : list (str * value))
    (w w1 : world) (f : file) :
  Product.generate complete (Product.gen g)
    (render (Product.prompt_fn g) brand_name product_title
       product_description language)
    (Product.group_max_tokens g) w = (Ok result, w1) ->
  json_loads (Product.clean_json_response result) = Ok (VDict d) ->
  plain_fields d (Product.fields g) = true ->
  text_document w1 path f ->
  exists w' f',
    Product.run_group complete json_loads console render path brand_name
      product_title product_description language g w = (Ok tt, w')
    /\ api_log w' = api_log w1
    /\ text_document w' path f'
    /\ universal_newlines (contents f')
       = substituted d (Product.fields g) (universal_newlines (contents f))
    /\ same_but_text path w1 w'.
Proof.
  intros Hgen Hparse Hplain Hdoc.
  destruct (product_fields_substituted path d (Product.fields g) Hplain w1 f
              Hdoc) as (w' & f' & Hrun & Hdoc' & Htext & Hframe).
  exists w', f'. split; [|split; [|split; [|split]]]; try assumption.
  - unfold Product.run_group. unfold bind at 1. rewrite Hgen.
    unfold bind at 1. rewrite parse_or_recover_outcome.
    unfold recovery_outcome. rewrite Hparse. exact Hrun.
  - apply Hframe.
Qed.

Lemma product_group_completes_witness :
  let out :=
    Product.run_group toy_service toy_loads utf8_console toy_render
      "product.json" (lit "Acme") (lit "Mouse") (lit "A mouse")
      (lit "French") (group_at 0) toy_page in
  fst out = Ok tt
  /\ length (api_log (snd out)) = 1
  /\ file_text (snd out) "product.json"
     = Some (lit "Hi NEW_BUTTON-TEXT_TEXT_J7DFT4_GENERATED").
Proof.
  cbv zeta.
  edestruct (product_group_completes toy_service toy_loads utf8_console
               toy_render
               "product.json" (lit "Acme") (lit "Mouse") (lit "A mouse")
               (lit "French") (group_at 0) (lit "<h1>Hi</h1>")
               (List.map (fun k => (k, VStr (lit "Hi")))
                  (Product.expected_keys (group_at 0))) toy_page)
    as (w' & f' & Hrun & _).
  - vm_compute. reflexivity.
  - reflexivity.
  - vm_compute. reflexivity.
  - split; [split; [vm_compute; reflexivity|split; reflexivity]|reflexivity].
  - rewrite Hrun. cbn [fst snd].
    assert (E : w' = snd (Product.run_group toy_service toy_loads
                            utf8_console toy_render
                            "product.json" (lit "Acme") (lit "Mouse")
                            (lit "A mouse") (lit "French") (group_at 0)
                            toy_page))
      by (rewrite Hrun; reflexivity).
    rewrite E. vm_compute. repeat split.
Defined.

Lemma home_prompt_gpt_service_down (complete : service) (prompt : str)
    (w : world) :
  always_fails complete ->
  exists e w',
    Home.prompt_gpt complete prompt 3 w = (Raise e, w')
    /\ length (api_log w') = length (api_log w) + 3
    /\ client_calls w' = S (client_calls w)
    /\ files w' = files w.
Proof.
  intros Hdown.
  pose proof (home_prompt_gpt_counts complete prompt w) as Hcount.
  unfold Home.prompt_gpt, bind, count_client_call in *.
  change (Pos.to_nat 3 - 1) with 2 in *.
  set (w0 := {| api_log := api_log w; client_calls := S (client_calls w);
                files := files w |}) in *.
  destruct (prompt_gpt_attempts_bounded complete (Home.prompt_request prompt)
              2 w0) as (n & Hn & Hlog & Hfiles & _ & Hlast & _).
  destruct (Hdown (api_log w0 ++ repeat (Home.prompt_request prompt) (n - 1))
              (Home.prompt_request prompt)) as [e He].
  rewrite He in Hlast. destruct Hlast as [-> Hr].
  destruct (prompt_gpt_attempts complete (Home.prompt_request prompt) 2 w0)
    as [r w'].
  cbn [fst snd] in *. subst r. exists e, w'.
  split; [reflexivity|]. split; [|split; [exact Hcount|exact Hfiles]].
  rewrite Hlog, length_app, repeat_length. reflexivity.
Qed.

(** A service that never answers has no answer that UTF-8 cannot carry. *)
Lemma always_fails_utf8 (complete : service) :
  always_fails complete -> utf8_service complete.
Proof.
  intros Hdown log rq t E. destruct (Hdown log rq) as [e He]. congruence.
Qed.

(** X20.  When the service fails on every request, a run of the home page
    over a target document that holds text first completes its translation
    phase, the labels going into the file untranslated, and then stops at
    the first generated unit, the hero heading: the exception of the service
    leaves the run after 29 requests (one for each of the 26 labels, three
    for the heading), with a single call of [prompt_gpt], every other file
    being as it was. *)
Theorem home_run_without_service (complete : service)
    (json_loads : str -> result value)
    (render : string -> str -> str -> str -> str -> str) (path : string)
    (brand_name product_title product_description language : str)
    (w : world) (f : file) :
  always_fails complete -> text_document w path f ->
  exists e w' f',
    Home.change_home_page_content complete json_loads render path brand_name
      product_title product_description language w = (Raise e, w')
    /\ text_document w' path f'
    /\ length (api_log w') = length (api_log w) + 29
    /\ client_calls w' = S (client_calls w)
    /\ (forall p, p <> path -> files w' !! p = files w !! p).
Proof.
  intros Hdown Hdoc.
  destruct (home_translation_phase complete path language Home.translations
              (always_fails_utf8 _ Hdown) eq_refl w f Hdoc)
    as (w1 & f1 & Hrun & Hdoc1 & Hlog1 & Hcalls1 & Hfiles1).
  destruct (home_prompt_gpt_service_down complete
              (render "generate_hero_heading_prompt" brand_name product_title
                 product_description language) w1 Hdown)
    as (e & w2 & Hgpt & Hlog2 & Hcalls2 & Hfiles2).
  exists e, w2, f1. split; [|split; [|split; [|split]]].
  - unfold Home.change_home_page_content, Home.process_translations.
    unfold bind at 1. rewrite Hrun.
    unfold Home.process_generated_content, Home.run_units, Home.content_units.
    cbn [for_each]. unfold bind at 1. cbn [Home.run_unit Home.generate].
    unfold bind at 1. rewrite Hgpt. reflexivity.
  - unfold text_document, target_document in *. rewrite Hfiles2. exact Hdoc1.
  - rewrite Hlog2, Hlog1. change (length Home.translations) with 26. lia.
  - rewrite Hcalls2, Hcalls1. reflexivity.
  - intros p Hp. rewrite Hfiles2. apply Hfiles1, Hp.
Qed.

Lemma home_run_without_service_witness :
  let out :=
    Home.change_home_page_content service_down
      (fun _ => Raise JSONDecodeError) toy_render
      "home.json" (lit "Acme") (lit "Mouse") (lit "A mouse") (lit "French")
      (one_file "home.json" (lit "<h2>NEW_HERO_CAPTION_TRANSLATED</h2>")) in
  fst out = Raise (APIError (lit "Connection error."))
  /\ length (api_log (snd out)) = 29
  /\ file_text (snd out) "home.json"
     = Some (lit "<h2>Exclusive Holiday Bundles</h2>").
Proof.
  cbv zeta.
  destruct (home_run_without_service service_down
              (fun _ => Raise JSONDecodeError) toy_render
              "home.json" (lit "Acme") (lit "Mouse") (lit "A mouse")
              (lit "French")
              (one_file "home.json"
                 (lit "<h2>NEW_HERO_CAPTION_TRANSLATED</h2>"))
              {| contents := lit "<h2>NEW_HERO_CAPTION_TRANSLATED</h2>";
                 readable := true; writable := true |})
    as (e & w' & f' & Hrun & _ & Hlog & _).
  - intros log rq. eexists. reflexivity.
  - exact (conj (conj (lookup_singleton_eq _ _) (conj eq_refl eq_refl))
             eq_refl).
  - split; [vm_compute; reflexivity|].
    split; [rewrite Hrun; exact Hlog|]. vm_compute. reflexivity.
Defined.

(** ** The parser with a fallback *)

(** X21.  [safe_json_parse] sends at most one request and leaves the files
    alone.  When the sanitised text parses it returns the value, without any
    request.  An exception of [json.loads] other than [JSONDecodeError] is
    not handled and leaves the function at once.  On [JSONDecodeError], when
    the console prints the two messages of the function, no exception leaves
    it: the recovery step is called once, and the parsed repair is returned
    when the repair parses, the fallback of the caller when it does not. *)
Theorem safe_json_parse_outcomes (complete : service)
    (json_loads : str -> result value) (console : str -> option exn)
    (json_string context : str) (fallback_data : value) (w : world) :
  let rq := Home.fix_request json_string context in
  let out :=
    Home.safe_json_parse complete json_loads console json_string context
      fallback_data w in
  (snd out = w \/ snd out = sent w rq)
  /\ (forall v,
        json_loads (Home.clean_json_response json_string) = Ok v ->
        out = (Ok v, w))
  /\ (forall e,
        json_loads (Home.clean_json_response json_string) = Raise e ->
        e <> JSONDecodeError -> out = (Raise e, w))
  /\ (json_loads (Home.clean_json_response json_string)
      = Raise JSONDecodeError ->
      printed console
        (lit "JSON parse failed for " ++ context ++ lit ", trying GPT fix...")
      = true ->
      printed console
        (lit "GPT fix failed for " ++ context ++ lit ", using fallback")
      = true ->
      out = match json_loads
                    (home_recovered json_string (complete (api_log w) rq)) with
            | Ok v => (Ok v, sent w rq)
            | Raise _ => (Ok fallback_data, sent w rq)
            end).
Proof.
  intros rq out.
  set (first_message :=
         lit "JSON parse failed for " ++ context ++ lit ", trying GPT fix...").
  set (second_message :=
         lit "GPT fix failed for " ++ context ++ lit ", using fallback").
  set (handled :=
         match console first_message with
         | Some e1 => (Raise e1, w)
         | None =>
             match json_loads
                     (home_recovered json_string
                        (complete (api_log w) rq)) with
             | Ok v => (Ok v, sent w rq)
             | Raise _ =>
                 match console second_message with
                 | Some e2 => (Raise e2, sent w rq)
                 | None => (Ok fallback_data, sent w rq)
                 end
             end
         end).
  assert (E : out = match json_loads
                            (Home.clean_json_response json_string) with
                    | Ok v => (Ok v, w)
                    | Raise JSONDecodeError => handled
                    | Raise e => (Raise e, w)
                    end).
  { subst out. unfold Home.safe_json_parse, try_except_json, Home.loads.
    unfold lift at 1.
    destruct (json_loads (Home.clean_json_response json_string)) as [v|e];
      [reflexivity|].
    destruct e; try reflexivity.
    fold first_message second_message. subst handled.
    unfold bind at 1. unfold py_print at 1.
    destruct (console first_message); [reflexivity|].
    unfold try_except. unfold bind at 1.
    rewrite home_fix_json_with_gpt_eq. fold rq. unfold lift at 1.
    destruct (json_loads (home_recovered json_string _)); [reflexivity|].
    unfold bind, py_print, ret.
    destruct (console second_message); reflexivity. }
  split; [|split; [|split]].
  - rewrite E.
    destruct (json_loads (Home.clean_json_response json_string)) as [v|e];
      [left; reflexivity|].
    destruct e; try (left; reflexivity). subst handled.
    destruct (console first_message); [left; reflexivity|].
    destruct (json_loads (home_recovered json_string _));
      [right; reflexivity|].
    destruct (console second_message); right; reflexivity.
  - intros v Hv. rewrite E, Hv. reflexivity.
  - intros e He Hne. rewrite E, He. destruct e; try reflexivity. congruence.
  - intros H0 H1 H2. rewrite E, H0. subst handled.
    rewrite (printed_true _ _ H1), (printed_true _ _ H2). reflexivity.
Qed.

(** ** The recovery step and the console *)

(** X22.  [fix_json_with_gpt] never raises, sends at most one request and
    leaves the files alone, in every script and on every console.  In the
    home and footer scripts it is one guarded call: the request is sent
    once, not through [prompt_gpt], the sanitised answer is returned when
    the service answers and the broken text when it fails.  In the product
    script it returns either the broken text or the sanitised answer of
    the service, and it is one guarded call, as in the home script,
    whenever the console prints its messages. *)
Theorem fix_json_with_gpt_never_raises (complete : service)
    (console : str -> option exn) (broken_json context : str)
    (expected_keys : option (list str)) (w : world) :
  let rq := Product.fix_request broken_json context expected_keys in
  let out :=
    Product.fix_json_with_gpt complete console broken_json context
      expected_keys w in
  single_guarded_call complete (Home.fix_request broken_json context)
    (fun t => Home.clean_json_response (strip t)) broken_json w
    (Home.fix_json_with_gpt complete broken_json context w)
  /\ (exists s, fst out = Ok s)
  /\ (snd out = w \/ snd out = sent w rq)
  /\ (fst out = Ok broken_json
      \/ exists t, complete (api_log w) rq = Reply t
                   /\ fst out = Ok (Product.clean_json_response (strip t)))
  /\ (repair_printed console broken_json context (complete (api_log w) rq)
      = true ->
      single_guarded_call complete rq
        (fun t => Product.clean_json_response (strip t)) broken_json w out).
Proof.
  intros rq out. split; [apply guarded_call_single|].
  subst out. rewrite product_fix_json_with_gpt_eq. cbn [fst snd].
  split; [eauto|]. split; [|split].
  - unfold repair. fold rq.
    destruct (console (Product.attempt_message _ _)); [left; reflexivity|].
    destruct (complete (api_log w) rq); [|right; reflexivity].
    cbv zeta. destruct (console _); right; reflexivity.
  - unfold repair. fold rq.
    destruct (console (Product.attempt_message _ _)); [left; reflexivity|].
    destruct (complete (api_log w) rq) as [t|e]; [|left; reflexivity].
    cbv zeta. destruct (console _); [left; reflexivity|].
    right. exists t. split; reflexivity.
  - intros Hp. rewrite (repair_when_printed _ _ _ _ _ _ Hp). fold rq.
    unfold single_guarded_call, recovered, sent. cbn [fst snd api_log
      client_calls files].
    destruct (complete (api_log w) rq); eauto 10.
Qed.

(** ** The two strikes of the product page *)

(** X23.  On the product page every group of fields goes through the same
    two-strike recovery: parsing with recovery is [recovery_outcome], and
    the retry label of each of the six groups is its label followed by
    [_retry].  The console prints the start of the generated text and the
    messages of the two calls of the recovery step.  When the groups before
    [g] have completed, the text generated for [g] does not parse, and
    neither does what the recovery step hands back on its first call and on
    its second, the run ends with the exception of the group: exactly two
    recovery requests have been sent, the first under the label of the
    group and the second under its retry label, no field of [g] has been
    substituted, and the file is as the groups before [g] left it. *)
Theorem two_strike_recovery_aborts (complete : service)
    (json_loads : str -> result value) (console : str -> option exn)
    (render : string -> str -> str -> str -> str -> str) (path : string)
    (brand_name product_title product_description language : str)
    (before after : list Product.unit_group) (g : Product.unit_group)
    (result : str) (w0 w1 w2 : world) (e0 e1 e2 : exn) :
  let keys := Some (Product.expected_keys g) in
  let rq1 := Product.fix_request result (Product.context g) keys in
  let rq2 := Product.fix_request result (Product.retry_context g) keys in
  let r1 := complete (api_log w2) rq1 in
  let r2 := complete (api_log w2 ++ [rq1]) rq2 in
  let run :=
    Product.run_groups complete json_loads console render path brand_name
      product_title product_description language in
  printed console (Product.parse_failure_message g result) = true ->
  repair_printed console result (Product.context g) r1 = true ->
  repair_printed console result (Product.retry_context g) r2 = true ->
  run before w0 = (Ok tt, w1) ->
  Product.generate complete (Product.gen g)
    (render (Product.prompt_fn g) brand_name product_title
       product_description language)
    (Product.group_max_tokens g) w1 = (Ok result, w2) ->
  json_loads (Product.clean_json_response result) = Raise e0 ->
  json_loads (recovered result r1) = Raise e1 ->
  json_loads (recovered result r2) = Raise e2 ->
  run (before ++ g :: after) w0
    = (Raise (Exception (Product.failure_message g)), sent (sent w2 rq1) rq2)
  /\ files (sent (sent w2 rq1) rq2) = files w2
  /\ (forall g' res w,
        Product.parse_or_recover complete json_loads console g' res w
        = recovery_outcome complete json_loads console g' res w)
  /\ Forall (fun g' => Product.retry_context g'
                       = Product.context g' ++ lit "_retry")
       Product.unit_groups
  /\ Product.process_product_generated_content complete json_loads console
       render path brand_name product_title product_description language
     = run Product.unit_groups.
Proof.
  intros keys rq1 rq2 r1 r2 run Hp0 Hp1 Hp2 Hbefore Hgen P0 P1 P2.
  split; [|split; [|split; [|split]]].
  - subst run. unfold Product.run_groups in *.
    rewrite for_each_app, Hbefore. cbn [for_each].
    unfold bind at 1. unfold Product.run_group at 1.
    unfold bind at 1. rewrite Hgen.
    unfold bind at 1. rewrite parse_or_recover_outcome.
    unfold recovery_outcome. fold keys. rewrite P0.
    rewrite (printed_true _ _ Hp0). cbv zeta.
    rewrite (repair_when_printed complete console result (Product.context g)
               keys w2 Hp1).
    cbn [fst snd]. fold rq1 r1. rewrite P1.
    rewrite (repair_when_printed complete console result
               (Product.retry_context g) keys (sent w2 rq1) Hp2).
    cbn [fst snd]. fold rq2.
    change (complete (api_log (sent w2 rq1)) rq2) with r2. rewrite P2.
    reflexivity.
  - reflexivity.
  - intros g' res w. apply parse_or_recover_outcome.
  - unfold Product.unit_groups. repeat constructor.
  - reflexivity.
Qed.

Lemma two_strike_recovery_aborts_witness :
  let out :=
    Product.process_product_generated_content toy_service toy_loads
      utf8_console toy_render "product.json" (lit "Acme") (lit "Mouse")
      (lit "A mouse") (lit "French") toy_page in
  fst out
  = Raise (Exception
             (lit "Failed to generate valid button texts JSON after retries."))
  /\ file_text (snd out) "product.json"
     = Some (lit "Hi NEW_BUTTON-TEXT_TEXT_J7DFT4_GENERATED")
  /\ length (api_log (snd out)) = 4.
Proof.
  edestruct (two_strike_recovery_aborts toy_service toy_loads utf8_console
               toy_render
               "product.json" (lit "Acme") (lit "Mouse") (lit "A mouse")
               (lit "French") [group_at 0] (skipn 2 Product.unit_groups)
               (group_at 1) (lit "garbage") toy_page) as (Hrun & _).
  - vm_compute. reflexivity.
  - vm_compute. reflexivity.
  - vm_compute. reflexivity.
  - vm_compute. reflexivity.
  - vm_compute. reflexivity.
  - reflexivity.
  - reflexivity.
  - reflexivity.
  - cbv zeta.
    change (Product.process_product_generated_content toy_service toy_loads
              utf8_console toy_render "product.json" (lit "Acme")
              (lit "Mouse") (lit "A mouse") (lit "French") toy_page)
      with (Product.run_groups toy_service toy_loads utf8_console toy_render
              "product.json" (lit "Acme") (lit "Mouse") (lit "A mouse")
              (lit "French")
              ([group_at 0] ++ group_at 1 :: skipn 2 Product.unit_groups)
              toy_page).
    rewrite Hrun. vm_compute. repeat split.
Defined.
